(** * service_monitor.py: a shallow embedding and its properties

    The monitor supervises systemd services: it probes each configured
    service, tries a bounded recovery, counts consecutive failures in a
    JSON state file, and sends a rate-limited alert.  The development
    models the program over an explicit world (files, process table,
    command and mail oracles, clock) threaded through a state-and-exception
    monad, and proves properties of the per-service cycle, the recovery
    loop, the state store and the lock file. *)

From Stdlib Require Import ZArith List String Ascii Bool Lia Arith.
From Stdlib Require Import DecimalString.
From Stdlib Require DecimalZ DecimalN DecimalPos DecimalFacts.
Import ListNotations.
Local Open Scope string_scope.
Local Open Scope Z_scope.

(** ** Text helpers (Python [str] over code points below 256) *)

Module Text.

Definition dquote : ascii := "034"%char.
Definition newline : ascii := "010"%char.

(** [needle in hay] *)
Fixpoint contains (needle hay : string) : bool :=
  String.prefix needle hay ||
  match hay with
  | EmptyString => false
  | String _ rest => contains needle rest
  end.

(** Whitespace as [str.strip] sees it (code points below 256). *)
Definition is_space (c : ascii) : bool :=
  let n := nat_of_ascii c in
  ((9 <=? n) && (n <=? 13) || (28 <=? n) && (n <=? 32)
   || (n =? 133) || (n =? 160))%nat.

Fixpoint lstrip (s : string) : string :=
  match s with
  | EmptyString => EmptyString
  | String c rest => if is_space c then lstrip rest else s
  end.

Fixpoint rstrip (s : string) : string :=
  match s with
  | EmptyString => EmptyString
  | String c rest =>
      match rstrip rest with
      | EmptyString => if is_space c then EmptyString else String c EmptyString
      | r => String c r
      end
  end.

Definition strip (s : string) : string := rstrip (lstrip s).

Definition is_digit (c : ascii) : bool :=
  let n := nat_of_ascii c in ((48 <=? n) && (n <=? 57))%nat.

(** [str(n)] for an integer. *)
Definition of_Z (z : Z) : string := NilZero.string_of_int (Z.to_int z).

(** The longest prefix of decimal digits, as a [Decimal.uint], and the rest. *)
Fixpoint take_digits (s : string) : Decimal.uint * string :=
  match s with
  | EmptyString => (Decimal.Nil, EmptyString)
  | String c rest =>
      match uint_of_char c (Some Decimal.Nil) with
      | Some (Decimal.D0 _) => let (d, r) := take_digits rest in (Decimal.D0 d, r)
      | Some (Decimal.D1 _) => let (d, r) := take_digits rest in (Decimal.D1 d, r)
      | Some (Decimal.D2 _) => let (d, r) := take_digits rest in (Decimal.D2 d, r)
      | Some (Decimal.D3 _) => let (d, r) := take_digits rest in (Decimal.D3 d, r)
      | Some (Decimal.D4 _) => let (d, r) := take_digits rest in (Decimal.D4 d, r)
      | Some (Decimal.D5 _) => let (d, r) := take_digits rest in (Decimal.D5 d, r)
      | Some (Decimal.D6 _) => let (d, r) := take_digits rest in (Decimal.D6 d, r)
      | Some (Decimal.D7 _) => let (d, r) := take_digits rest in (Decimal.D7 d, r)
      | Some (Decimal.D8 _) => let (d, r) := take_digits rest in (Decimal.D8 d, r)
      | Some (Decimal.D9 _) => let (d, r) := take_digits rest in (Decimal.D9 d, r)
      | _ => (Decimal.Nil, s)
      end
  end.

(** Single underscores between digits are allowed in an integer literal;
    [None] when one is misplaced. *)
Fixpoint drop_underscores (after_digit : bool) (s : string) : option string :=
  match s with
  | EmptyString => Some EmptyString
  | String c rest =>
      if Ascii.eqb c "_" then
        if after_digit then
          match rest with
          | String d _ =>
              if is_digit d then drop_underscores false rest else None
          | EmptyString => None
          end
        else None
      else
        match drop_underscores (is_digit c) rest with
        | Some r => Some (String c r)
        | None => None
        end
  end.

(** [int(s)]: surrounding whitespace, an optional sign, decimal digits.
    [None] stands for [ValueError]. *)
Definition to_Z (s : string) : option Z :=
  let body := strip s in
  let signed (neg : bool) (digits : string) :=
    match drop_underscores false digits with
    | None => None
    | Some plain =>
        match take_digits plain with
        | (Decimal.Nil, _) => None
        | (d, EmptyString) =>
            let n := Z.of_N (N.of_uint d) in Some (if neg then - n else n)
        | _ => None
        end
    end in
  match body with
  | String "-" rest => signed true rest
  | String "+" rest => signed false rest
  | _ => signed false body
  end.

End Text.

(** ** Python values that reach the state file *)

(** What [json.load] can return, and what [self.state] holds.  A [dict]
    keeps insertion order, so it is an association list with distinct
    keys.  Numbers are integers: the clock is modelled in whole seconds. *)
#[warnings="-register-all"]
Inductive json : Type :=
| JNull
| JBool (b : bool)
| JNum (z : Z)
| JStr (s : string)
| JArr (items : list json)
| JObj (fields : list (string * json)).

Definition dict := list (string * json).

Fixpoint dict_get (k : string) (d : dict) : option json :=
  match d with
  | [] => None
  | (k', v) :: rest => if String.eqb k k' then Some v else dict_get k rest
  end.

(** [d[k] = v]: overwrite in place, or append a new key at the end. *)
Fixpoint dict_set (k : string) (v : json) (d : dict) : dict :=
  match d with
  | [] => [(k, v)]
  | (k', v') :: rest =>
      if String.eqb k k' then (k', v) :: rest else (k', v') :: dict_set k v rest
  end.

Definition keys (d : dict) : list string := map fst d.

(** ** The JSON text codec: [json.dump(obj, f, indent=2)] and [json.load] *)

Module Json.
Import Text.

Definition hex_digit (n : nat) : ascii :=
  match n with
  | 0 => "0" | 1 => "1" | 2 => "2" | 3 => "3" | 4 => "4" | 5 => "5"
  | 6 => "6" | 7 => "7" | 8 => "8" | 9 => "9" | 10 => "a" | 11 => "b"
  | 12 => "c" | 13 => "d" | 14 => "e" | _ => "f"
  end%nat%char.

(** One character of a string literal, with [ensure_ascii] on: the short
    escapes, and [\u00xx] for everything outside [' '..'~']. *)
Definition escape_char (c : ascii) : string :=
  let n := nat_of_ascii c in
  if Ascii.eqb c dquote then String "\" (String dquote EmptyString)
  else if Ascii.eqb c "\" then "\\"
  else if (n =? 10)%nat then "\n"
  else if (n =? 13)%nat then "\r"
  else if (n =? 9)%nat then "\t"
  else if (n =? 8)%nat then "\b"
  else if (n =? 12)%nat then "\f"
  else if ((32 <=? n) && (n <=? 126))%nat then String c EmptyString
  else "\u00" ++ String (hex_digit (n / 16)) (String (hex_digit (n mod 16)) EmptyString).

Fixpoint escape (s : string) : string :=
  match s with
  | EmptyString => EmptyString
  | String c rest => escape_char c ++ escape rest
  end.

Definition quote (s : string) : string :=
  String dquote (escape s ++ String dquote EmptyString).

Fixpoint spaces (n : nat) : string :=
  match n with O => EmptyString | S k => String " " (spaces k) end.

(** Line break followed by the indentation of nesting level [lvl]. *)
Definition nl (lvl : nat) : string := String newline (spaces (2 * lvl)).

Fixpoint dump (lvl : nat) (j : json) {struct j} : string :=
  match j with
  | JNull => "null"
  | JBool true => "true"
  | JBool false => "false"
  | JNum z => of_Z z
  | JStr s => quote s
  | JArr [] => "[]"
  | JArr (x :: xs) =>
      "[" ++ nl (S lvl) ++ dump (S lvl) x
      ++ (fix more (l : list json) : string :=
            match l with
            | [] => EmptyString
            | y :: ys => "," ++ nl (S lvl) ++ dump (S lvl) y ++ more ys
            end) xs
      ++ nl lvl ++ "]"
  | JObj [] => "{}"
  | JObj ((k, v) :: fs) =>
      "{" ++ nl (S lvl) ++ quote k ++ ": " ++ dump (S lvl) v
      ++ (fix more (l : list (string * json)) : string :=
            match l with
            | [] => EmptyString
            | (k', v') :: rest =>
                "," ++ nl (S lvl) ++ quote k' ++ ": " ++ dump (S lvl) v' ++ more rest
            end) fs
      ++ nl lvl ++ "}"
  end.

Definition dumps (j : json) : string := dump 0 j.

(** *** Decoding *)

Definition is_ws (c : ascii) : bool :=
  let n := nat_of_ascii c in
  ((n =? 32) || (n =? 9) || (n =? 10) || (n =? 13))%nat.

Fixpoint skip_ws (s : string) : string :=
  match s with
  | EmptyString => EmptyString
  | String c rest => if is_ws c then skip_ws rest else s
  end.

Fixpoint eat (lit s : string) : option string :=
  match lit with
  | EmptyString => Some s
  | String c l =>
      match s with
      | String d r => if Ascii.eqb c d then eat l r else None
      | EmptyString => None
      end
  end.

Definition hex_value (c : ascii) : option nat :=
  let n := nat_of_ascii c in
  if ((48 <=? n) && (n <=? 57))%nat then Some (n - 48)%nat
  else if ((97 <=? n) && (n <=? 102))%nat then Some (n - 87)%nat
  else if ((65 <=? n) && (n <=? 70))%nat then Some (n - 55)%nat
  else None.

(** The four hex digits of a [\u] escape; code points from 256 up are
    outside the modelled alphabet. *)
Definition hex4 (a b c d : ascii) : option ascii :=
  match hex_value a, hex_value b, hex_value c, hex_value d with
  | Some x, Some y, Some z, Some w =>
      let n := (((x * 16 + y) * 16 + z) * 16 + w)%nat in
      if (n <? 256)%nat then Some (ascii_of_nat n) else None
  | _, _, _, _ => None
  end.

Definition cons_char (c : ascii) (r : option (string * string)) :=
  match r with
  | Some (s, rest) => Some (String c s, rest)
  | None => None
  end.

(** The characters of a string literal after the opening quote, up to and
    including the closing one (strict mode: no raw control characters). *)
Fixpoint string_body (s : string) : option (string * string) :=
  match s with
  | EmptyString => None
  | String c r =>
      if Ascii.eqb c dquote then Some (EmptyString, r)
      else if Ascii.eqb c "\" then
        match r with
        | String e r1 =>
            if Ascii.eqb e dquote then cons_char dquote (string_body r1)
            else if Ascii.eqb e "\" then cons_char "\" (string_body r1)
            else if Ascii.eqb e "/" then cons_char "/" (string_body r1)
            else if Ascii.eqb e "b" then cons_char "008" (string_body r1)
            else if Ascii.eqb e "f" then cons_char "012" (string_body r1)
            else if Ascii.eqb e "n" then cons_char "010" (string_body r1)
            else if Ascii.eqb e "r" then cons_char "013" (string_body r1)
            else if Ascii.eqb e "t" then cons_char "009" (string_body r1)
            else if Ascii.eqb e "u" then
              match r1 with
              | String h1 (String h2 (String h3 (String h4 r2))) =>
                  match hex4 h1 h2 h3 h4 with
                  | Some x => cons_char x (string_body r2)
                  | None => None
                  end
              | _ => None
              end
            else None
        | EmptyString => None
        end
      else if (nat_of_ascii c <? 32)%nat then None
      else cons_char c (string_body r)
  end.

Definition starts_float (s : string) : bool :=
  match s with
  | String c _ => Ascii.eqb c "." || Ascii.eqb c "e" || Ascii.eqb c "E"
  | EmptyString => false
  end.

(** An integer literal: an optional minus sign, then either a single zero
    or a non-zero digit followed by digits; not followed by a fraction or an
    exponent. *)
Definition number (s : string) : option (json * string) :=
  let unsigned (neg : bool) (t : string) :=
    match take_digits t with
    | (Decimal.Nil, _) => None
    | (Decimal.D0 Decimal.Nil, r) =>
        if starts_float r then None else Some (JNum 0, r)
    | (Decimal.D0 _, _) => None
    | (d, r) =>
        if starts_float r then None
        else let n := Z.of_N (N.of_uint d) in
             Some (JNum (if neg then - n else n), r)
    end in
  match s with
  | String "-" t => unsigned true t
  | _ => unsigned false s
  end.

Fixpoint value (fuel : nat) (s : string) {struct fuel} : option (json * string) :=
  match fuel with
  | O => None
  | S f =>
      match s with
      | EmptyString => None
      | String c r =>
          if Ascii.eqb c "{" then
            match skip_ws r with
            | String c1 r1 =>
                if Ascii.eqb c1 "}" then Some (JObj [], r1)
                else members f (String c1 r1) []
            | EmptyString => None
            end
          else if Ascii.eqb c "[" then
            match skip_ws r with
            | String c1 r1 =>
                if Ascii.eqb c1 "]" then Some (JArr [], r1)
                else elements f (String c1 r1) []
            | EmptyString => None
            end
          else if Ascii.eqb c dquote then
            match string_body r with
            | Some (str, r1) => Some (JStr str, r1)
            | None => None
            end
          else if Ascii.eqb c "n" then
            match eat "ull" r with Some r1 => Some (JNull, r1) | None => None end
          else if Ascii.eqb c "t" then
            match eat "rue" r with Some r1 => Some (JBool true, r1) | None => None end
          else if Ascii.eqb c "f" then
            match eat "alse" r with Some r1 => Some (JBool false, r1) | None => None end
          else number s
      end
  end

(** [members f s acc]: [s] starts at a key; [acc] holds the pairs read so
    far (a repeated key overwrites, as [dict] does). *)
with members (fuel : nat) (s : string) (acc : dict) {struct fuel}
  : option (json * string) :=
  match fuel with
  | O => None
  | S f =>
      match s with
      | String q r =>
          if Ascii.eqb q dquote then
            match string_body r with
            | Some (k, r1) =>
                match skip_ws r1 with
                | String colon r2 =>
                    if Ascii.eqb colon ":" then
                      match value f (skip_ws r2) with
                      | Some (v, r3) =>
                          match skip_ws r3 with
                          | String d r4 =>
                              if Ascii.eqb d "}" then Some (JObj (dict_set k v acc), r4)
                              else if Ascii.eqb d "," then
                                members f (skip_ws r4) (dict_set k v acc)
                              else None
                          | EmptyString => None
                          end
                      | None => None
                      end
                    else None
                | EmptyString => None
                end
            | None => None
            end
          else None
      | EmptyString => None
      end
  end

with elements (fuel : nat) (s : string) (acc : list json) {struct fuel}
  : option (json * string) :=
  match fuel with
  | O => None
  | S f =>
      match value f s with
      | Some (v, r) =>
          match skip_ws r with
          | String d r1 =>
              if Ascii.eqb d "]" then Some (JArr (acc ++ [v]), r1)
              else if Ascii.eqb d "," then elements f (skip_ws r1) (acc ++ [v])
              else None
          | EmptyString => None
          end
      | None => None
      end
  end.

(** [json.loads]: one value, surrounded by optional whitespace.  [None]
    stands for [JSONDecodeError]. *)
Definition loads (s : string) : option json :=
  let body := skip_ws s in
  match value (S (String.length body)) body with
  | Some (v, rest) =>
      match skip_ws rest with
      | EmptyString => Some v
      | _ => None
      end
  | None => None
  end.

End Json.

(** ** The world the monitor runs in *)

(** Exceptions the program meets.  [FileExistsError] is an [OSError];
    [SystemExit] is not an [Exception]. *)
Inductive exn : Type :=
| OSError
| FileExistsError
| ValueError
| TypeError
| KeyError
| AttributeError
| OverflowError
| SystemExit (code : Z).

Definition is_OSError (e : exn) : bool :=
  match e with OSError | FileExistsError => true | _ => false end.

Definition is_FileExistsError (e : exn) : bool :=
  match e with FileExistsError => true | _ => false end.

Definition is_ValueError (e : exn) : bool :=
  match e with ValueError => true | _ => false end.

Definition is_Exception (e : exn) : bool :=
  match e with SystemExit _ => false | _ => true end.

(** The text [str(e)] of an exception is modelled by its class only. *)
Definition exn_text (e : exn) : string :=
  match e with
  | OSError => "OSError"
  | FileExistsError => "FileExistsError"
  | ValueError => "ValueError"
  | TypeError => "TypeError"
  | KeyError => "KeyError"
  | AttributeError => "AttributeError"
  | OverflowError => "OverflowError"
  | SystemExit c => Text.of_Z c
  end.

(** How a computation can stop without returning or raising: the process
    is killed, or the model ran out of fuel (the code is still running). *)
Inductive halt : Type := Crashed | OutOfFuel.

Inductive res (A : Type) : Type :=
| Ret (a : A)
| Raise (e : exn)
| Halt (h : halt).
Arguments Ret {A} a.
Arguments Raise {A} e.
Arguments Halt {A} h.

(** [subprocess.run(cmd, shell=True, capture_output=True, timeout=...)] *)
Inductive proc_outcome : Type :=
| Completed (rc : Z) (stdout stderr : string)
| ProcTimeout
| ProcError (msg : string).

(** What happens to [open(path, 'w')] followed by the writes: all of the
    text reaches the file; the open is refused (the file is untouched); an
    error is raised after [written] characters; the process dies after
    [written] characters. *)
Inductive write_outcome : Type :=
| WriteDone
| OpenRefused
| WriteError (written : nat)
| WriteCrash (written : nat).

(** The mail transport: the exit status of the mailer (for SMTP, any status
    stands for a completed session), or an exception. *)
Inductive mail_outcome : Type :=
| MailExit (rc : Z)
| MailError.

Inductive event : Type :=
| EvLog (level msg : string)
| EvJournal (priority : Z) (msg : string)
| EvCmd (cmd : string) (outcome : proc_outcome)
| EvSleep (secs : Z)
| EvClock (t : Z)
| EvWrite (text : string) (outcome : write_outcome)
| EvMail (subject body : string) (outcome : mail_outcome).

(** The environment: everything the program does not decide.  Calls that
    block or touch the outside draw their outcome by the number of such
    calls made so far. *)
Record Env : Type := {
  env_proc : nat -> string -> proc_outcome;
  env_io_fails : nat -> bool;
  env_write : nat -> write_outcome;
  env_mail : nat -> mail_outcome;
  env_clock : nat -> Z;
  env_signal : nat -> option Z;
  env_kill_ok : Z -> bool;
  env_euid : Z;
  env_pid : Z;
  env_hostname : string;
  env_fqdn : string;
  env_loadavg : string;
  env_meminfo : string
}.

Record World : Type := {
  w_env : Env;
  w_tick : nat;
  w_state_file : option string;
  w_lock_file : option string;
  w_trace : list event;
  self_state : dict;
  self_running : bool
}.

Definition with_tick (n : nat) (w : World) : World :=
  {| w_env := w_env w; w_tick := n; w_state_file := w_state_file w;
     w_lock_file := w_lock_file w; w_trace := w_trace w;
     self_state := self_state w; self_running := self_running w |}.

Definition with_state_file (f : option string) (w : World) : World :=
  {| w_env := w_env w; w_tick := w_tick w; w_state_file := f;
     w_lock_file := w_lock_file w; w_trace := w_trace w;
     self_state := self_state w; self_running := self_running w |}.

Definition with_lock_file (f : option string) (w : World) : World :=
  {| w_env := w_env w; w_tick := w_tick w; w_state_file := w_state_file w;
     w_lock_file := f; w_trace := w_trace w;
     self_state := self_state w; self_running := self_running w |}.

Definition with_trace (t : list event) (w : World) : World :=
  {| w_env := w_env w; w_tick := w_tick w; w_state_file := w_state_file w;
     w_lock_file := w_lock_file w; w_trace := t;
     self_state := self_state w; self_running := self_running w |}.

Definition with_state (d : dict) (w : World) : World :=
  {| w_env := w_env w; w_tick := w_tick w; w_state_file := w_state_file w;
     w_lock_file := w_lock_file w; w_trace := w_trace w;
     self_state := d; self_running := self_running w |}.

Definition with_running (b : bool) (w : World) : World :=
  {| w_env := w_env w; w_tick := w_tick w; w_state_file := w_state_file w;
     w_lock_file := w_lock_file w; w_trace := w_trace w;
     self_state := self_state w; self_running := b |}.

(** ** The monad: state passing with exceptions *)

Definition M (A : Type) : Type := World -> res A * World.

Definition ret {A} (a : A) : M A := fun w => (Ret a, w).

Definition bind {A B} (m : M A) (k : A -> M B) : M B :=
  fun w =>
    match m w with
    | (Ret a, w1) => k a w1
    | (Raise e, w1) => (Raise e, w1)
    | (Halt h, w1) => (Halt h, w1)
    end.

Definition raise {A} (e : exn) : M A := fun w => (Raise e, w).

Definition halt_with {A} (h : halt) : M A := fun w => (Halt h, w).

(** [try: body / except <classes>: handler] *)
Definition try_except {A} (body : M A) (caught : exn -> bool)
    (handler : exn -> M A) : M A :=
  fun w =>
    match body w with
    | (Raise e, w1) => if caught e then handler e w1 else (Raise e, w1)
    | r => r
    end.

(** [try: body / finally: fin].  The clean-up runs after a return and after
    an exception, which is then raised again; a dead process runs nothing. *)
Definition try_finally {A} (body : M A) (fin : M unit) : M A :=
  fun w =>
    match body w with
    | (Ret a, w1) =>
        match fin w1 with
        | (Ret _, w2) => (Ret a, w2)
        | (Raise e, w2) => (Raise e, w2)
        | (Halt h, w2) => (Halt h, w2)
        end
    | (Raise e, w1) =>
        match fin w1 with
        | (Ret _, w2) => (Raise e, w2)
        | (Raise e', w2) => (Raise e', w2)
        | (Halt h, w2) => (Halt h, w2)
        end
    | (Halt h, w1) => (Halt h, w1)
    end.

Declare Scope monad_scope.
Delimit Scope monad_scope with monad.
Notation "x <- c ;; k" := (bind c (fun x => k))
  (at level 61, c at next level, right associativity) : monad_scope.
Notation "' pat <- c ;; k" := (bind c (fun x => match x with pat => k end))
  (at level 61, pat pattern, c at next level, right associativity) : monad_scope.
Notation "c ;; k" := (bind c (fun _ => k))
  (at level 61, right associativity) : monad_scope.
Local Open Scope monad_scope.

Definition get_world : M World := fun w => (Ret w, w).
Definition modify (f : World -> World) : M unit := fun w => (Ret tt, f w).

(** ** Primitives *)

Definition emit (e : event) : M unit :=
  modify (fun w => with_trace (w_trace w ++ [e]) w).

(** The number of the next outside call; the counter moves on. *)
Definition next_call : M nat :=
  fun w => (Ret (w_tick w), with_tick (S (w_tick w)) w).

Definition io_fault : M bool :=
  n <- next_call ;;
  w <- get_world ;;
  ret (env_io_fails (w_env w) n).

(** [Path.exists()] *)
Definition state_file_exists : M bool :=
  w <- get_world ;;
  ret (match w_state_file w with Some _ => true | None => false end).

Definition lock_file_exists : M bool :=
  w <- get_world ;;
  ret (match w_lock_file w with Some _ => true | None => false end).

(** [open(self.state_file, 'r')] and reading all of it *)
Definition read_state_file : M string :=
  bad <- io_fault ;;
  w <- get_world ;;
  if bad then raise OSError
  else match w_state_file w with
       | Some text => ret text
       | None => raise OSError
       end.

(** [open(self.state_file, 'w')] and writing [text] through it: the open
    truncates the file in place, the text follows. *)
Definition write_state_file (text : string) : M unit :=
  n <- next_call ;;
  w <- get_world ;;
  emit (EvWrite text (env_write (w_env w) n)) ;;
  match env_write (w_env w) n with
  | WriteDone => modify (with_state_file (Some text))
  | OpenRefused => raise OSError
  | WriteError k =>
      modify (with_state_file (Some (String.substring 0 k text))) ;;
      raise OSError
  | WriteCrash k =>
      modify (with_state_file (Some (String.substring 0 k text))) ;;
      halt_with Crashed
  end.

(** [os.open(self.lock_file, os.O_CREAT | os.O_EXCL | os.O_RDWR)] *)
Definition lock_open_excl : M unit :=
  bad <- io_fault ;;
  w <- get_world ;;
  match w_lock_file w with
  | Some _ => raise FileExistsError
  | None => if bad then raise OSError
            else modify (with_lock_file (Some EmptyString))
  end.

(** [os.write(fd, data)] on the descriptor of the new lock file *)
Definition lock_write (text : string) : M unit :=
  bad <- io_fault ;;
  if bad then raise OSError else modify (with_lock_file (Some text)).

(** [open(self.lock_file, 'r')] and [f.read()] *)
Definition lock_read : M string :=
  bad <- io_fault ;;
  w <- get_world ;;
  if bad then raise OSError
  else match w_lock_file w with
       | Some text => ret text
       | None => raise OSError
       end.

(** [os.remove(self.lock_file)] *)
Definition lock_remove : M unit :=
  bad <- io_fault ;;
  w <- get_world ;;
  if bad then raise OSError
  else match w_lock_file w with
       | Some _ => modify (with_lock_file None)
       | None => raise OSError
       end.

(** [os.kill(pid, 0)]: a pid that does not fit a C [int] is refused before
    any signal is sent. *)
Definition fits_c_int (pid : Z) : bool :=
  (- 2 ^ 31 <=? pid) && (pid <? 2 ^ 31).

Definition os_kill (pid : Z) : M unit :=
  if fits_c_int pid then
    w <- get_world ;;
    if env_kill_ok (w_env w) pid then ret tt else raise OSError
  else raise OverflowError.

Definition os_getpid : M Z := w <- get_world ;; ret (env_pid (w_env w)).
Definition os_geteuid : M Z := w <- get_world ;; ret (env_euid (w_env w)).

(** [Path.mkdir(parents=True, exist_ok=True)] *)
Definition mkdir : M unit :=
  bad <- io_fault ;;
  if bad then raise OSError else ret tt.

(** Reading a file under [/proc] *)
Definition read_proc (content : Env -> string) : M string :=
  bad <- io_fault ;;
  w <- get_world ;;
  if bad then raise OSError else ret (content (w_env w)).

(** ** Configuration (the module constants of the source) *)

Record ServiceSpec : Type := {
  svc_name : string;
  svc_action : string;
  svc_alarm : bool
}.

Record Config : Type := {
  ADMIN_EMAIL : string;
  SENDMAIL_METHOD : string;
  SERVICES : list ServiceSpec;
  ALERT_THRESHOLD : Z;
  ALERT_RATE_LIMIT : Z;
  RETRY_COUNT : Z;
  RETRY_DELAY : Z;
  CHECK_INTERVAL : Z;
  DAEMON_MODE : bool
}.

Definition default_config : Config := {|
  ADMIN_EMAIL := "admin@example.com";
  SENDMAIL_METHOD := "sendmail";
  SERVICES :=
    [ {| svc_name := "apache2.service"; svc_action := "restart"; svc_alarm := true |};
      {| svc_name := "mariadb.service"; svc_action := "restart"; svc_alarm := true |};
      {| svc_name := "nginx.service"; svc_action := "restart"; svc_alarm := true |};
      {| svc_name := "ssh.service"; svc_action := "restart"; svc_alarm := true |};
      {| svc_name := "postgresql.service"; svc_action := "restart"; svc_alarm := true |} ];
  ALERT_THRESHOLD := 10;
  ALERT_RATE_LIMIT := 3600;
  RETRY_COUNT := 3;
  RETRY_DELAY := 5;
  CHECK_INTERVAL := 60;
  DAEMON_MODE := false
|}.

(** ** Logging *)

(** [log_message]: the log file, the journal and the console are one
    stream of entries here; the entry's time stamp is left out. *)
Definition log_message (level message : string) : M unit :=
  emit (EvLog level message).

Definition log_to_journal (message : string) (priority : Z) : M unit :=
  emit (EvJournal priority message).

Definition signal_handler (signum : Z) : M unit :=
  modify (with_running false) ;;
  log_message "INFO"
    ("Received signal " ++ Text.of_Z signum ++ ", shutting down gracefully").

(** A pending SIGINT or SIGTERM is handled while the process blocks. *)
Definition deliver_signal (n : nat) : M unit :=
  w <- get_world ;;
  match env_signal (w_env w) n with
  | Some signum => signal_handler signum
  | None => ret tt
  end.

Definition subprocess_run (cmd : string) : M proc_outcome :=
  n <- next_call ;;
  w <- get_world ;;
  emit (EvCmd cmd (env_proc (w_env w) n cmd)) ;;
  deliver_signal n ;;
  ret (env_proc (w_env w) n cmd).

Definition time_sleep (secs : Z) : M unit :=
  n <- next_call ;;
  emit (EvSleep secs) ;;
  deliver_signal n.

Definition time_time : M Z :=
  n <- next_call ;;
  w <- get_world ;;
  let t := env_clock (w_env w) n in
  emit (EvClock t) ;;
  ret t.

(** ** The state store *)

Definition default_entry : json :=
  JObj [("failures", JNum 0); ("last_alert", JNum 0)].

(** [defaultdict(factory, obj)]: a mapping is taken as it is; an iterable
    is read as a sequence of key/value pairs.  Pairs whose key is not a
    string would give keys that this model's [dict] cannot hold; they are
    reported as [TypeError] here. *)
Fixpoint dict_of_pairs (items : list json) (acc : dict) : exn + dict :=
  match items with
  | [] => inr acc
  | JArr [JStr k; v] :: rest => dict_of_pairs rest (dict_set k v acc)
  | JArr [_; _] :: _ => inl TypeError
  | JArr _ :: _ => inl ValueError
  | JStr (String a (String b EmptyString)) :: rest =>
      dict_of_pairs rest
        (dict_set (String a EmptyString) (JStr (String b EmptyString)) acc)
  | JStr _ :: _ => inl ValueError
  | JObj [(k1, _); (k2, _)] :: rest =>
      dict_of_pairs rest (dict_set k1 (JStr k2) acc)
  | JObj _ :: _ => inl ValueError
  | _ :: _ => inl TypeError
  end.

Definition defaultdict_of (obj : json) : exn + dict :=
  match obj with
  | JObj fields => inr fields
  | JArr items => dict_of_pairs items []
  | JStr EmptyString => inr []
  | JStr _ => inl ValueError
  | _ => inl TypeError
  end.

Definition lift_sum {A} (r : exn + A) : M A :=
  match r with inl e => raise e | inr a => ret a end.

Definition json_load : M json :=
  text <- read_state_file ;;
  match Json.loads text with
  | Some v => ret v
  | None => raise ValueError
  end.

Definition load_state : M unit :=
  try_except
    (present <- state_file_exists ;;
     if present then
       obj <- json_load ;;
       d <- lift_sum (defaultdict_of obj) ;;
       modify (with_state d)
     else ret tt)
    is_Exception
    (fun e =>
       log_message "WARNING" ("Failed to load state: " ++ exn_text e) ;;
       modify (with_state [])).

Definition save_state : M unit :=
  try_except
    (w <- get_world ;;
     write_state_file (Json.dumps (JObj (self_state w))))
    is_Exception
    (fun e => log_message "ERROR" ("Failed to save state: " ++ exn_text e)).

(** ** Running commands *)

(** What [run_command] returns for each way the subprocess can end. *)
Definition cmd_result (timeout : Z) (r : proc_outcome) : Z * string * string :=
  match r with
  | Completed rc out err => (rc, Text.strip out, Text.strip err)
  | ProcTimeout =>
      (-1, EmptyString,
       "Command timed out after " ++ Text.of_Z timeout ++ " seconds")
  | ProcError msg => (-1, EmptyString, msg)
  end.

Definition run_command (cmd : string) (timeout : Z) : M (Z * string * string) :=
  r <- subprocess_run cmd ;;
  ret (cmd_result timeout r).

Definition stdout_of (cmd : string) : M string :=
  '(_, out, _) <- run_command cmd 30 ;; ret out.

(** The command lines of the probes. *)
Definition cmd_list_unit (service : string) : string :=
  "systemctl list-unit-files | grep -q '^" ++ service ++ "$'".

Definition cmd_is_enabled (service : string) : string :=
  "systemctl is-enabled " ++ service.

Definition cmd_is_active (service : string) : string :=
  "systemctl is-active " ++ service.

(** ** Diagnostics for the alert body *)

Fixpoint split_lines_aux (s cur : string) : list string :=
  match s with
  | EmptyString => match cur with EmptyString => [] | _ => [cur] end
  | String c rest =>
      if Ascii.eqb c Text.newline then cur :: split_lines_aux rest EmptyString
      else split_lines_aux rest (cur ++ String c EmptyString)
  end.

Definition split_lines (s : string) : list string := split_lines_aux s EmptyString.

Definition join_lines (l : list string) : string :=
  String.concat (String Text.newline EmptyString) l.

Definition first_containing (key : string) (l : list string) : string :=
  match filter (Text.contains key) l with
  | x :: _ => x
  | [] => EmptyString
  end.

Definition get_system_info : M string :=
  w <- get_world ;;
  uname <- stdout_of "uname -a" ;;
  uptime <- stdout_of "uptime" ;;
  load <- read_proc env_loadavg ;;
  meminfo <- read_proc env_meminfo ;;
  let mem_total := first_containing "MemTotal" (split_lines meminfo) in
  let mem_free := first_containing "MemAvailable" (split_lines meminfo) in
  disk <- stdout_of "df -h /" ;;
  ret (join_lines
         [ "Hostname: " ++ env_fqdn (w_env w);
           "System: " ++ uname;
           "Uptime: " ++ uptime;
           "Load Average: " ++ Text.strip load;
           "Memory: " ++ Text.strip mem_total;
           "Available: " ++ Text.strip mem_free;
           "Root Disk:" ++ String Text.newline disk ]).

Definition service_keys : list string :=
  ["MainPID"; "ActiveState"; "SubState"; "LoadState"; "UnitFileState"].

Definition get_service_info (service : string) : M string :=
  status <- stdout_of (cmd_is_active service) ;;
  show_output <- stdout_of ("systemctl show " ++ service ++ " --no-pager") ;;
  let picked :=
    filter (fun line => existsb (fun key => Text.contains key line) service_keys)
           (split_lines show_output) in
  journal <- stdout_of ("journalctl -u " ++ service ++ " -n 5 --no-pager") ;;
  ret (join_lines
         (["Service: " ++ service; "Status: " ++ status] ++ picked
          ++ [String Text.newline ("Recent Journal Entries:" ++ String Text.newline journal)])).

Definition get_top_info : M string :=
  ps_output <- stdout_of "ps aux --sort=-%cpu | head -n 20" ;;
  ps_mem_output <- stdout_of "ps aux --sort=-%mem | head -n 20" ;;
  loadavg <- read_proc env_loadavg ;;
  ret (String.concat (String Text.newline (String Text.newline EmptyString))
         [ "=== Top Processes by CPU ===" ++ String Text.newline ps_output;
           String Text.newline ("=== Top Processes by Memory ===" ++ String Text.newline ps_mem_output);
           String Text.newline ("=== Load Averages ===" ++ String Text.newline (Text.strip loadavg)) ]).

Definition log_line (e : event) : list string :=
  match e with
  | EvLog level msg => ["[" ++ level ++ "] " ++ msg]
  | _ => []
  end.

(** The last 20 lines of the log file, which holds the entries logged so
    far. *)
Definition get_recent_logs : M string :=
  w <- get_world ;;
  let entries := flat_map log_line (w_trace w) in
  ret (join_lines (skipn (List.length entries - 20)%nat entries)).

(** ** The notifier *)

(** Handing the message to the mailer: [Popen(...).communicate(...)] for
    [sendmail] and [mail], the SMTP session for [smtp]. *)
Definition mail_transport (subject body : string) : M mail_outcome :=
  n <- next_call ;;
  w <- get_world ;;
  emit (EvMail subject body (env_mail (w_env w) n)) ;;
  ret (env_mail (w_env w) n).

Definition send_email (c : Config) (subject body : string) : M bool :=
  if String.eqb (ADMIN_EMAIL c) EmptyString then
    log_message "WARNING" "No admin email configured, skipping alert" ;;
    ret false
  else
    try_except
      (if String.eqb (SENDMAIL_METHOD c) "sendmail" then
         r <- mail_transport subject body ;;
         match r with
         | MailExit rc => ret (rc =? 0)
         | MailError => raise OSError
         end
       else if String.eqb (SENDMAIL_METHOD c) "smtp" then
         r <- mail_transport subject body ;;
         match r with
         | MailExit _ => ret true
         | MailError => raise OSError
         end
       else if String.eqb (SENDMAIL_METHOD c) "mail" then
         r <- mail_transport subject body ;;
         match r with
         | MailExit rc => ret (rc =? 0)
         | MailError => raise OSError
         end
       else
         log_message "ERROR" ("Unknown email method: " ++ SENDMAIL_METHOD c) ;;
         ret false)
      is_Exception
      (fun e =>
         log_message "ERROR" ("Failed to send email: " ++ exn_text e) ;;
         ret false).

(** ** Probes *)

Definition check_service_exists (service : string) : M bool :=
  '(rc, _, _) <- run_command (cmd_list_unit service) 30 ;;
  ret (rc =? 0).

Definition is_service_masked (service : string) : M bool :=
  '(rc, stdout, _) <- run_command (cmd_is_enabled service) 30 ;;
  ret (Text.contains "masked" stdout || negb (rc =? 0)).

(** ** Recovery *)

Definition action_command (action service : string) : option string :=
  if String.eqb action "restart" then Some ("systemctl restart " ++ service)
  else if String.eqb action "start" then Some ("systemctl start " ++ service)
  else if String.eqb action "stop" then Some ("systemctl stop " ++ service)
  else if String.eqb action "mask" then Some ("systemctl mask " ++ service)
  else if String.eqb action "reload" then Some ("systemctl reload " ++ service)
  else if String.eqb action "try-restart" then Some ("systemctl try-restart " ++ service)
  else None.

(** [action in ["start", "restart", "try-restart"]] *)
Definition verified_action (action : string) : bool :=
  String.eqb action "start" || String.eqb action "restart"
  || String.eqb action "try-restart".

(** [range(n)] *)
Definition range (n : Z) : list Z := map Z.of_nat (seq 0 (Z.to_nat n)).

(** The body of [for attempt in range(RETRY_COUNT)], over the attempts
    still to come. *)
Fixpoint attempt_loop (c : Config) (service action cmd : string)
    (attempts : list Z) : M bool :=
  match attempts with
  | [] => ret false
  | attempt :: rest =>
      log_message "INFO"
        ("Attempt " ++ Text.of_Z (attempt + 1) ++ " to " ++ action ++ " " ++ service) ;;
      '(rc, _, stderr) <- run_command cmd 30 ;;
      if rc =? 0 then
        log_message "SUCCESS"
          ("Successfully performed " ++ action ++ " on " ++ service) ;;
        if verified_action action then
          time_sleep 3 ;;
          '(status_rc, status_out, _) <- run_command (cmd_is_active service) 30 ;;
          if (status_rc =? 0) && Text.contains "active" status_out then ret true
          else
            log_message "WARNING"
              ("Service " ++ service ++ " still not active after " ++ action) ;;
            attempt_loop c service action cmd rest
        else ret true
      else
        log_message "WARNING"
          ("Failed to " ++ action ++ " " ++ service ++ ": " ++ stderr) ;;
        (if attempt <? RETRY_COUNT c - 1 then time_sleep (RETRY_DELAY c)
         else ret tt) ;;
        attempt_loop c service action cmd rest
  end.

Definition perform_action (c : Config) (service action : string) : M bool :=
  match action_command action service with
  | None =>
      log_message "ERROR"
        ("Unknown action: " ++ action ++ " for service " ++ service) ;;
      ret false
  | Some cmd => attempt_loop c service action cmd (range (RETRY_COUNT c))
  end.

(** ** Access to [self.state] *)

(** [self.state[name]]: a missing key is filled with the default entry. *)
Definition state_entry (name : string) : M json :=
  w <- get_world ;;
  match dict_get name (self_state w) with
  | Some e => ret e
  | None =>
      modify (with_state (dict_set name default_entry (self_state w))) ;;
      ret default_entry
  end.

(** [obj[k]] for a string [k] *)
Definition getitem (obj : json) (k : string) : M json :=
  match obj with
  | JObj fields =>
      match dict_get k fields with
      | Some v => ret v
      | None => raise KeyError
      end
  | _ => raise TypeError
  end.

(** [obj.get(k, default)] *)
Definition get_or (obj : json) (k : string) (default : json) : M json :=
  match obj with
  | JObj fields =>
      match dict_get k fields with
      | Some v => ret v
      | None => ret default
      end
  | _ => raise AttributeError
  end.

(** The integer an arithmetic operand or comparison sees ([bool] is an
    [int] in Python); anything else is a [TypeError]. *)
Definition number_of (v : json) : option Z :=
  match v with
  | JNum z => Some z
  | JBool true => Some 1
  | JBool false => Some 0
  | _ => None
  end.

Definition as_number (v : json) : M Z :=
  match number_of v with
  | Some z => ret z
  | None => raise TypeError
  end.

(** [self.state[name][k] = v]; the entry is shared with the table, so the
    table sees the update. *)
Definition setitem (name k : string) (v : json) : M unit :=
  e <- state_entry name ;;
  match e with
  | JObj fields =>
      w <- get_world ;;
      modify (with_state (dict_set name (JObj (dict_set k v fields)) (self_state w)))
  | _ => raise TypeError
  end.

(** [self.state[name]["failures"]] as a number *)
Definition failures_of (name : string) : M Z :=
  e <- state_entry name ;;
  f <- getitem e "failures" ;;
  as_number f.

(** ** Alerts *)

Definition render (v : json) : string := Json.dumps v.

(** The subject and the body of the alert (lines 457-500).  The body
    template is kept to the values it interpolates; the formatted time of
    day is left out. *)
Definition alert_text (c : Config) (service action : string) (failures : json)
  : M (string * string) :=
  w <- get_world ;;
  let subject :=
    "CRITICAL: Service '" ++ service ++ "' failed on " ++ env_hostname (w_env w) in
  system_info <- get_system_info ;;
  service_info <- get_service_info service ;;
  top_info <- get_top_info ;;
  recent <- get_recent_logs ;;
  ret (subject,
       join_lines
         [ "CRITICAL SERVICE ALERT";
           "Service '" ++ service ++ "' has failed " ++ render failures
             ++ " consecutive times on " ++ env_fqdn (w_env w) ++ ".";
           "Configured Action: " ++ action;
           "Retry Attempts: " ++ Text.of_Z (RETRY_COUNT c);
           system_info; service_info; top_info; recent ]).

(** [send_alert] (lines 452-505) *)
Definition send_alert (c : Config) (service action : string) : M unit :=
  e <- state_entry service ;;
  failures <- getitem e "failures" ;;
  '(subject, body) <- alert_text c service action failures ;;
  sent <- send_email c subject body ;;
  if sent then log_message "ALERT" ("Alert sent for " ++ service)
  else log_message "ERROR" ("Failed to send alert for " ++ service).

(** ** One service, one cycle: [check_service] *)

(** Lines 448-450: the alert, its time stamp, the save. *)
Definition alert_and_record (c : Config) (service_name action : string)
    (current_time : Z) : M unit :=
  send_alert c service_name action ;;
  setitem service_name "last_alert" (JNum current_time) ;;
  save_state.

(** Lines 441-450: the escalation after a failed recovery. *)
Definition escalate (c : Config) (service_name action : string)
    (alarm_enabled : bool) : M unit :=
  over <- (if alarm_enabled then
             failures <- failures_of service_name ;;
             ret (ALERT_THRESHOLD c <=? failures)
           else ret false) ;;
  if over then
    current_time <- time_time ;;
    e <- state_entry service_name ;;
    v <- get_or e "last_alert" (JNum 0) ;;
    last_alert <- as_number v ;;
    if ALERT_RATE_LIMIT c <=? current_time - last_alert then
      alert_and_record c service_name action current_time
    else ret tt
  else ret tt.

(** Lines 413-419: the service was found active. *)
Definition on_active (service_name : string) : M unit :=
  log_message "INFO" ("Service " ++ service_name ++ " is active") ;;
  failures <- failures_of service_name ;;
  if 0 <? failures then
    setitem service_name "failures" (JNum 0) ;;
    save_state
  else ret tt.

(** Lines 421-450: the service was found not active. *)
Definition on_inactive (c : Config) (service_name action : string)
    (alarm_enabled : bool) (status : string) : M unit :=
  log_message "ERROR" ("Service " ++ service_name ++ " is not active: " ++ status) ;;
  log_to_journal ("Service " ++ service_name ++ " failed with status: " ++ status) 3 ;;
  failures <- failures_of service_name ;;
  setitem service_name "failures" (JNum (failures + 1)) ;;
  save_state ;;
  success <- perform_action c service_name action ;;
  if success then
    log_message "SUCCESS" ("Successfully recovered " ++ service_name) ;;
    setitem service_name "failures" (JNum 0) ;;
    save_state
  else
    log_message "CRITICAL"
      ("Failed to recover " ++ service_name ++ " after "
       ++ Text.of_Z (RETRY_COUNT c) ++ " attempts") ;;
    log_to_journal ("CRITICAL: Service " ++ service_name ++ " recovery failed") 2 ;;
    escalate c service_name action alarm_enabled.

Definition check_service (c : Config) (service_name action : string)
    (alarm_enabled : bool) : M unit :=
  log_message "INFO" ("Checking service: " ++ service_name) ;;
  present <- check_service_exists service_name ;;
  if negb present then
    log_message "WARNING" ("Service " ++ service_name ++ " does not exist, skipping")
  else
    masked <- is_service_masked service_name ;;
    if masked then
      log_message "INFO" ("Service " ++ service_name ++ " is masked, skipping")
    else
      '(rc, status, _) <- run_command (cmd_is_active service_name) 30 ;;
      if (rc =? 0) && Text.contains "active" status then on_active service_name
      else on_inactive c service_name action alarm_enabled status.

(** ** The lock file *)

(** [acquire_lock] calls itself after removing a stale lock; [fuel] bounds
    the depth of that recursion in the model. *)
Fixpoint acquire_lock (fuel : nat) : M bool :=
  match fuel with
  | O => halt_with OutOfFuel
  | S k =>
      try_except
        (lock_open_excl ;;
         pid <- os_getpid ;;
         lock_write (Text.of_Z pid) ;;
         ret true)
        is_FileExistsError
        (fun _ =>
           try_except
             (text <- lock_read ;;
              match Text.to_Z (Text.strip text) with
              | Some pid => os_kill pid ;; ret false
              | None => raise ValueError
              end)
             (fun e => is_OSError e || is_ValueError e)
             (fun _ => lock_remove ;; acquire_lock k))
  end.

Definition release_lock : M unit :=
  try_except
    (present <- lock_file_exists ;;
     if present then lock_remove else ret tt)
    (fun _ => true)
    (fun _ => ret tt).

(** ** The main loop *)

Fixpoint check_all (c : Config) (services : list ServiceSpec) : M unit :=
  match services with
  | [] => ret tt
  | s :: rest =>
      check_service c (svc_name s) (svc_action s) (svc_alarm s) ;;
      check_all c rest
  end.

(** [for _ in range(CHECK_INTERVAL): if not self.running: break; time.sleep(1)] *)
Fixpoint wait_loop (seconds : list Z) : M unit :=
  match seconds with
  | [] => ret tt
  | _ :: rest =>
      w <- get_world ;;
      if self_running w then time_sleep 1 ;; wait_loop rest else ret tt
  end.

(** [while self.running: ...]; [fuel] bounds the number of cycles. *)
Fixpoint cycles (c : Config) (fuel : nat) : M unit :=
  match fuel with
  | O => halt_with OutOfFuel
  | S k =>
      w <- get_world ;;
      if self_running w then
        check_all c (SERVICES c) ;;
        if DAEMON_MODE c then
          wait_loop (range (CHECK_INTERVAL c)) ;;
          cycles c k
        else ret tt
      else ret tt
  end.

(** The [try] block of [run] (lines 552-573). *)
Definition loop_body (c : Config) (fuel : nat) : M unit :=
  w <- get_world ;;
  log_message "INFO" ("Starting Service Monitor on " ++ env_fqdn (w_env w)) ;;
  log_message "INFO"
    ("Monitoring " ++ Text.of_Z (Z.of_nat (List.length (SERVICES c))) ++ " services") ;;
  (if DAEMON_MODE c then
     log_message "INFO"
       ("Running in daemon mode, checking every "
        ++ Text.of_Z (CHECK_INTERVAL c) ++ " seconds")
   else ret tt) ;;
  cycles c fuel.

(** The [try] block with its [except Exception] handler (lines 575-578). *)
Definition guarded_loop (c : Config) (fuel : nat) : M unit :=
  try_except (loop_body c fuel) is_Exception
    (fun e =>
       log_message "ERROR" ("Unexpected error: " ++ exn_text e) ;;
       log_message "ERROR" ("Traceback: " ++ exn_text e)).

Definition cleanup : M unit :=
  save_state ;;
  release_lock ;;
  log_message "INFO" "Service Monitor stopped".

Definition run (c : Config) (fuel : nat) : M unit :=
  locked <- acquire_lock fuel ;;
  if negb locked then
    log_message "ERROR" "Another instance is already running. Exiting." ;;
    raise (SystemExit 1)
  else try_finally (guarded_loop c fuel) cleanup.

(** [ServiceMonitor.__init__] *)
Definition init : M unit :=
  modify (with_state []) ;;
  modify (with_running true) ;;
  euid <- os_geteuid ;;
  if negb (euid =? 0) then
    log_to_journal "Must be run as root!" 0 ;;
    raise (SystemExit 1)
  else
    mkdir ;;
    mkdir ;;
    load_state.

Definition main (c : Config) (fuel : nat) : M unit :=
  init ;;
  run c fuel.

(** The exit status of the interpreter: 0 after a normal return, the
    argument of [sys.exit], 1 after an uncaught exception; none while the
    process has not exited by itself. *)
Definition exit_status {A} (r : res A) : option Z :=
  match r with
  | Ret _ => Some 0
  | Raise (SystemExit code) => Some code
  | Raise _ => Some 1
  | Halt _ => None
  end.

(** ** Observations on runs *)

(** The events that act on the outside; log entries are left out. *)
Definition is_effect (e : event) : bool :=
  match e with
  | EvLog _ _ | EvJournal _ _ => false
  | _ => true
  end.

Definition effects (t : list event) : list event := filter is_effect t.

(** What the command issued as the [k]-th outside call from [w] on will
    give to [run_command]. *)
Definition answer (w : World) (k : nat) (cmd : string) : Z * string * string :=
  cmd_result 30 (env_proc (w_env w) (w_tick w + k) cmd).

(** The event of running [cmd] as the [k]-th outside call from [w] on. *)
Definition issued (w : World) (k : nat) (cmd : string) : event :=
  EvCmd cmd (env_proc (w_env w) (w_tick w + k) cmd).

(** The parts of the world a probe leaves alone. *)
Definition same_store (w w' : World) : Prop :=
  w_env w' = w_env w /\ self_state w' = self_state w /\
  w_state_file w' = w_state_file w /\ w_lock_file w' = w_lock_file w.

(** The world after a blocking call that shows as [ev]: the call is
    counted, the event recorded, a pending signal handled. *)
Definition after_blocking (ev : event) (w : World) : World :=
  let w1 := with_trace (w_trace w ++ [ev]) (with_tick (S (w_tick w)) w) in
  match env_signal (w_env w) (w_tick w) with
  | Some signum =>
      with_trace
        (w_trace w1 ++
         [EvLog "INFO" ("Received signal " ++ Text.of_Z signum
                        ++ ", shutting down gracefully")])
        (with_running false w1)
  | None => w1
  end.

Definition logged (level msg : string) (w : World) : World :=
  with_trace (w_trace w ++ [EvLog level msg]) w.

(** *** Transcripts of a recovery *)

Definition reports_success (o : proc_outcome) : bool :=
  fst (fst (cmd_result 30 o)) =? 0.

Definition reports_active (o : proc_outcome) : bool :=
  let '(rc, out, _) := cmd_result 30 o in
  (rc =? 0) && Text.contains "active" out.

(** The pause after a failed command, on all attempts but the last. *)
Definition delay (c : Config) (attempt : Z) : list event :=
  if attempt <? RETRY_COUNT c - 1 then [EvSleep (RETRY_DELAY c)] else [].

(** [recovery c action service cmd attempts seg b]: with [attempts] still
    allowed, the outside calls [seg] are a run of the recovery routine that
    returns [b]. *)
Inductive recovery (c : Config) (action service cmd : string)
  : list Z -> list event -> bool -> Prop :=
| rec_exhausted :
    recovery c action service cmd [] [] false
| rec_command_failed attempt rest o seg b :
    reports_success o = false ->
    recovery c action service cmd rest seg b ->
    recovery c action service cmd (attempt :: rest)
      (EvCmd cmd o :: delay c attempt ++ seg) b
| rec_done attempt rest o :
    reports_success o = true ->
    verified_action action = false ->
    recovery c action service cmd (attempt :: rest) [EvCmd cmd o] true
| rec_verified attempt rest o p :
    reports_success o = true ->
    verified_action action = true ->
    reports_active p = true ->
    recovery c action service cmd (attempt :: rest)
      [EvCmd cmd o; EvSleep 3; EvCmd (cmd_is_active service) p] true
| rec_not_verified attempt rest o p seg b :
    reports_success o = true ->
    verified_action action = true ->
    reports_active p = false ->
    recovery c action service cmd rest seg b ->
    recovery c action service cmd (attempt :: rest)
      (EvCmd cmd o :: EvSleep 3 :: EvCmd (cmd_is_active service) p :: seg) b.





(** *** Reading the state table *)

(** The failure count an entry holds, as the comparisons of the program
    read it. *)
Definition entry_failures (e : json) : option Z :=
  match e with
  | JObj fields =>
      match dict_get "failures" fields with
      | Some v => number_of v
      | None => None
      end
  | _ => None
  end.

(** The time of the last alert an entry holds; a missing field reads 0. *)
Definition entry_last_alert (e : json) : option Z :=
  match e with
  | JObj fields =>
      match dict_get "last_alert" fields with
      | Some v => number_of v
      | None => Some 0
      end
  | _ => None
  end.

(** [self.state[name]] as a lookup: a missing key reads as the default
    entry. *)
Definition entry_of (st : dict) (name : string) : json :=
  match dict_get name st with
  | Some e => e
  | None => default_entry
  end.

Definition state_failures (st : dict) (name : string) : option Z :=
  entry_failures (entry_of st name).

Definition state_last_alert (st : dict) (name : string) : option Z :=
  entry_last_alert (entry_of st name).

(** The world after [time.time()]. *)
Definition clocked (w : World) : World :=
  with_trace (w_trace w ++ [EvClock (env_clock (w_env w) (w_tick w))])
    (with_tick (S (w_tick w)) w).

Definition is_mail (e : event) : bool :=
  match e with EvMail _ _ _ => true | _ => false end.

(** The messages handed to the mailer. *)
Definition mails (t : list event) : list event := filter is_mail t.

(** The process is not killed while it writes the state file. *)
Definition survives (w : World) : Prop :=
  forall n k, env_write (w_env w) n <> WriteCrash k.

(** *** The alert gate, in the words of the specification *)

(** [shouldAlert(state, alarmEnabled, now)]: the alarm flag is set, the
    failures have reached the threshold, and the last alert is at least the
    rate limit ago. *)
Definition shouldAlert (c : Config) (failures last_alert : Z)
    (alarmEnabled : bool) (now : Z) : bool :=
  alarmEnabled && (ALERT_THRESHOLD c <=? failures)
  && (ALERT_RATE_LIMIT c <=? now - last_alert).

(** *** Frames *)

(** A step that leaves the table, the files and the environment alone and
    sends no mail. *)
Definition quiet (w w' : World) : Prop :=
  same_store w w' /\ mails (w_trace w') = mails (w_trace w).

(** [keeps R m]: [m] returns or raises (the process is not killed, no
    fuel runs out), and the world it leaves is related by [R] to the one it
    started in. *)
Definition keeps {A} (R : World -> World -> Prop) (m : M A) : Prop :=
  forall w, R w (snd (m w)) /\ forall h, fst (m w) <> Halt h.

(** The table after [self.state[name]] was read: a missing entry has been
    filled in. *)
Definition touch (name : string) (st : dict) : dict :=
  match dict_get name st with
  | Some _ => st
  | None => dict_set name default_entry st
  end.

(** The table after [self.state[name]["failures"] = n]. *)
Definition with_failures (name : string) (n : Z) (st : dict) : dict :=
  match entry_of st name with
  | JObj fields =>
      dict_set name (JObj (dict_set "failures" (JNum n) fields)) (touch name st)
  | _ => st
  end.

(** *** Valid state tables *)

(** Where a number may end: not before a digit, a point or an exponent. *)
Definition ends_number (rest : string) : bool :=
  match rest with
  | EmptyString => true
  | String c _ => negb (Text.is_digit c) && negb (Json.starts_float rest)
  end.

(** An entry of a valid table: an object with distinct keys and integer
    values. *)
Definition valid_entry (v : json) : Prop :=
  exists fields,
    v = JObj fields /\ NoDup (keys fields) /\
    Forall (fun kv => exists z, snd kv = JNum z) fields.

(** A valid state table: distinct service names, each with a valid entry
    that holds the two counters. *)
Definition valid_table (t : dict) : Prop :=
  NoDup (keys t) /\
  Forall (fun kv => valid_entry (snd kv) /\
                    entry_failures (snd kv) <> None /\
                    entry_last_alert (snd kv) <> None) t.

(** The text [dump] gives to the members of an object after the first. *)
Fixpoint members_text (lvl : nat) (l : list (string * json)) : string :=
  match l with
  | [] => EmptyString
  | (k, v) :: rest =>
      "," ++ Json.nl (S lvl) ++ Json.quote k ++ ": " ++ Json.dump (S lvl) v
      ++ members_text lvl rest
  end.

(** [reads_back lvl v]: the text of [v] at nesting level [lvl], followed by
    anything a number may end before, is decoded to [v] with as much fuel
    as the text is long. *)
Definition reads_back (lvl : nat) (v : json) : Prop :=
  forall f rest,
    ends_number rest = true ->
    (String.length (Json.dump lvl v) <= f)%nat ->
    Json.value f (Json.dump lvl v ++ rest) = Some (v, rest).

(** The table after storing the pairs of [l], in order. *)
Definition store_all (l : list (string * json)) (acc : dict) : dict :=
  fold_left (fun a kv => dict_set (fst kv) (snd kv) a) l acc.

(** ** Sample worlds *)

Module Sample.

(** A host whose systemd answers by [proc]. *)
Definition env_with (proc : nat -> string -> proc_outcome)
    (write : write_outcome) (mail : mail_outcome) : Env := {|
  env_proc := proc;
  env_io_fails := fun _ => false;
  env_write := fun _ => write;
  env_mail := fun _ => mail;
  env_clock := fun _ => 5000;
  env_signal := fun _ => None;
  env_kill_ok := fun pid => pid =? 4242;
  env_euid := 0;
  env_pid := 100;
  env_hostname := "host";
  env_fqdn := "host.example.org";
  env_loadavg := "0.10 0.20 0.30 1/100 4242";
  env_meminfo := "MemTotal: 1000 kB"
|}.

Definition world_with (env : Env) (state_file lock_file : option string)
    (table : dict) : World := {|
  w_env := env;
  w_tick := 0;
  w_state_file := state_file;
  w_lock_file := lock_file;
  w_trace := [];
  self_state := table;
  self_running := true
|}.

(** The unit exists and is enabled; the liveness probe and the actions
    answer as given. *)
Definition systemd (active : proc_outcome) (action : proc_outcome)
    (n : nat) (cmd : string) : proc_outcome :=
  if Text.contains "list-unit-files" cmd then Completed 0 "" ""
  else if Text.contains "is-enabled" cmd then Completed 0 "enabled" ""
  else if Text.contains "is-active" cmd then active
  else action.

Definition down : nat -> string -> proc_outcome :=
  systemd (Completed 3 "inactive" "") (Completed 1 "" "Job failed").

Definition up : nat -> string -> proc_outcome :=
  systemd (Completed 0 "active" "") (Completed 0 "" "").

(** The unit exists but is disabled: [is-enabled] prints "disabled" and
    exits with status 1. *)
Definition disabled (n : nat) (cmd : string) : proc_outcome :=
  if Text.contains "list-unit-files" cmd then Completed 0 "" ""
  else if Text.contains "is-enabled" cmd then Completed 1 "disabled" ""
  else Completed 0 "active" "".

Definition entry (failures last_alert : Z) : json :=
  JObj [("failures", JNum failures); ("last_alert", JNum last_alert)].

Definition config : Config := {|
  ADMIN_EMAIL := "admin@example.com";
  SENDMAIL_METHOD := "sendmail";
  SERVICES := [ {| svc_name := "db"; svc_action := "restart"; svc_alarm := true |} ];
  ALERT_THRESHOLD := 10;
  ALERT_RATE_LIMIT := 3600;
  RETRY_COUNT := 3;
  RETRY_DELAY := 5;
  CHECK_INTERVAL := 60;
  DAEMON_MODE := false
|}.

(** The service is down and stays down; nothing on record yet. *)
Definition w_down : World :=
  world_with (env_with down WriteDone (MailExit 0)) None None [].

Definition w_disabled : World :=
  world_with (env_with disabled WriteDone (MailExit 0)) None None [].

(** Ten failures on record, no alert sent yet, and a mailer that fails. *)
Definition w_mail_fails : World :=
  world_with (env_with down WriteDone (MailExit 1)) None None [("db", entry 10 0)].

(** Another live process (pid 4242) holds the lock. *)
Definition w_locked : World :=
  world_with (env_with up WriteDone (MailExit 0)) None (Some "4242") [].

(** The lock file names a process that is gone. *)
Definition w_stale : World :=
  world_with (env_with up WriteDone (MailExit 0)) None (Some "77") [].

(** Three failures are on disk; the table in memory has four, and the
    process dies ten characters into writing it. *)
Definition w_crash : World :=
  world_with (env_with down (WriteCrash 10) (MailExit 0))
    (Some (Json.dumps (JObj [("db", entry 3 0)]))) None [("db", entry 4 0)].

(** The next start of the monitor on what [w_crash] left behind. *)
Definition w_restart : World :=
  world_with (env_with down WriteDone (MailExit 0))
    (w_state_file (snd (save_state w_crash))) None [].

(** A state file whose entry for the service is a number. *)
Definition w_bad_entry : World :=
  world_with (env_with up WriteDone (MailExit 0))
    (Some (Json.dumps (JObj [("db", JNum 5)]))) None [].

End Sample.

(** *** The known actions *)

(** The six actions [perform_action] knows. *)
Definition known_actions : list string :=
  ["restart"; "start"; "stop"; "mask"; "reload"; "try-restart"].

(** *** The cost of a run *)

(** The seconds spent in [time.sleep]. *)
Definition slept (t : list event) : Z :=
  fold_right (fun e acc => match e with EvSleep n => n + acc | _ => acc end) 0 t.

Definition is_cmd (e : event) : bool :=
  match e with EvCmd _ _ => true | _ => false end.

(** The number of commands run. *)
Definition commands (t : list event) : nat := List.length (filter is_cmd t).

(** *** The mail methods *)

(** The values of [SENDMAIL_CONFIG["method"]] that [send_email] knows. *)
Definition mail_methods : list string := ["sendmail"; "smtp"; "mail"].

(** *** Texts of digits *)

Fixpoint all_digits (s : string) : bool :=
  match s with
  | EmptyString => true
  | String c rest => Text.is_digit c && all_digits rest
  end.

Fixpoint no_space (s : string) : bool :=
  match s with
  | EmptyString => true
  | String c rest => negb (Text.is_space c) && no_space rest
  end.

(** *** What a cycle for one service leaves alone *)

(** [apart name w w']: from [w] to [w'] the entries of the services other
    than [name] are the same, the lock file and the environment are the
    same, and a cleared [running] flag has stayed cleared. *)
Definition apart (name : string) (w w' : World) : Prop :=
  (forall other, other <> name ->
                 dict_get other (self_state w') = dict_get other (self_state w)) /\
  w_lock_file w' = w_lock_file w /\
  w_env w' = w_env w /\
  (self_running w = false -> self_running w' = false).

(** [preserves R m]: however [m] ends, the world it leaves is related by
    [R] to the one it started in. *)
Definition preserves {A} (R : World -> World -> Prop) (m : M A) : Prop :=
  forall w, R w (snd (m w)).

(** [held w w']: from [w] to [w'] the lock file and the environment are
    the same, and a cleared [running] flag has stayed cleared. *)
Definition held (w w' : World) : Prop :=
  w_lock_file w' = w_lock_file w /\
  w_env w' = w_env w /\
  (self_running w = false -> self_running w' = false).

(** [stays_valid w w']: a valid table in [w] is a valid table in [w']. *)
Definition stays_valid (w w' : World) : Prop :=
  valid_table (self_state w) -> valid_table (self_state w').

(** *** The recovery and what follows it *)


(** *** Runs that meet no I/O error *)

(** No file operation fails. *)
Definition io_sound (w : World) : Prop :=
  forall n, env_io_fails (w_env w) n = false.

(** [runs k P m]: where no file operation fails, [m] returns a value
    satisfying [P] after [k] outside calls, leaving the table and the files
    alone and sending no mail. *)
Definition runs {A} (k : nat) (P : A -> Prop) (m : M A) : Prop :=
  forall w,
    io_sound w ->
    exists a w',
      m w = (Ret a, w') /\ P a /\ quiet w w' /\ w_tick w' = (w_tick w + k)%nat.


(** *** Values with distinct keys *)

(** No object in [j], at any depth, has a key twice. *)
Fixpoint distinct_keys (j : json) : Prop :=
  match j with
  | JArr items =>
      (fix all (l : list json) : Prop :=
         match l with
         | [] => True
         | x :: rest => distinct_keys x /\ all rest
         end) items
  | JObj fields =>
      NoDup (keys fields) /\
      (fix all (l : list (string * json)) : Prop :=
         match l with
         | [] => True
         | (_, v) :: rest => distinct_keys v /\ all rest
         end) fields
  | _ => True
  end.

(** The text [dump] gives to the items of an array after the first. *)
Fixpoint items_text (lvl : nat) (l : list json) : string :=
  match l with
  | [] => EmptyString
  | y :: ys => "," ++ Json.nl (S lvl) ++ Json.dump (S lvl) y ++ items_text lvl ys
  end.

(** ** Basic facts *)

Lemma effects_app (a b : list event) :
  effects (a ++ b) = (effects a ++ effects b)%list.
Proof. apply filter_app. Qed.

Lemma same_store_refl w : same_store w w.
Proof. repeat split. Qed.

Lemma same_store_trans w1 w2 w3 :
  same_store w1 w2 -> same_store w2 w3 -> same_store w1 w3.
Proof.
  unfold same_store. intros (A & B & C & D) (A' & B' & C' & D').
  repeat split; congruence.
Qed.

Lemma log_message_eq level msg w :
  log_message level msg w = (Ret tt, logged level msg w).
Proof. reflexivity. Qed.

Lemma logged_store level msg w : same_store w (logged level msg w).
Proof. repeat split. Qed.

Lemma logged_effects level msg w :
  effects (w_trace (logged level msg w)) = effects (w_trace w).
Proof.
  unfold logged. simpl. rewrite effects_app. simpl. apply List.app_nil_r.
Qed.

Lemma after_blocking_store ev w : same_store w (after_blocking ev w).
Proof.
  unfold after_blocking. destruct (env_signal (w_env w) (w_tick w)); repeat split.
Qed.

Lemma after_blocking_tick ev w : w_tick (after_blocking ev w) = S (w_tick w).
Proof.
  unfold after_blocking. destruct (env_signal (w_env w) (w_tick w)); reflexivity.
Qed.

Lemma after_blocking_effects ev w :
  is_effect ev = true ->
  effects (w_trace (after_blocking ev w)) = (effects (w_trace w) ++ [ev])%list.
Proof.
  intros H. unfold after_blocking.
  destruct (env_signal (w_env w) (w_tick w)); simpl;
    repeat rewrite effects_app; simpl; rewrite H; simpl;
    try rewrite List.app_nil_r; reflexivity.
Qed.

(** Unfolding the monad and the world's setters. *)
Ltac mred :=
  cbv beta iota zeta delta
    [bind ret raise halt_with modify get_world emit next_call
     log_message log_to_journal deliver_signal signal_handler
     with_tick with_trace with_state with_running with_state_file
     with_lock_file logged
     w_env w_tick w_trace w_state_file w_lock_file self_state self_running].

Lemma subprocess_run_eq cmd w :
  subprocess_run cmd w
  = (Ret (env_proc (w_env w) (w_tick w) cmd),
     after_blocking (EvCmd cmd (env_proc (w_env w) (w_tick w) cmd)) w).
Proof.
  unfold subprocess_run, after_blocking. mred.
  destruct w as [env tick sf lf tr st run]. mred.
  destruct (env_signal env tick); reflexivity.
Qed.

Lemma run_command_eq cmd t w :
  run_command cmd t w
  = (Ret (cmd_result t (env_proc (w_env w) (w_tick w) cmd)),
     after_blocking (EvCmd cmd (env_proc (w_env w) (w_tick w) cmd)) w).
Proof.
  unfold run_command, bind. rewrite subprocess_run_eq. reflexivity.
Qed.

Lemma time_sleep_eq secs w :
  time_sleep secs w = (Ret tt, after_blocking (EvSleep secs) w).
Proof.
  unfold time_sleep, after_blocking. mred.
  destruct w as [env tick sf lf tr st run]. mred.
  destruct (env_signal env tick); reflexivity.
Qed.

Lemma answer_0 w cmd :
  answer w 0 cmd = cmd_result 30 (env_proc (w_env w) (w_tick w) cmd).
Proof. unfold answer. rewrite Nat.add_0_r. reflexivity. Qed.

Lemma is_service_masked_eq name w :
  is_service_masked name w
  = (Ret (let '(rc, out, _) := answer w 0 (cmd_is_enabled name) in
          Text.contains "masked" out || negb (rc =? 0)),
     after_blocking (issued w 0 (cmd_is_enabled name)) w).
Proof.
  unfold is_service_masked, bind, issued. rewrite run_command_eq, answer_0.
  rewrite Nat.add_0_r.
  destruct (cmd_result 30 _) as [[rc out] err]. reflexivity.
Qed.

Lemma check_service_exists_eq name w :
  check_service_exists name w
  = (Ret (fst (fst (answer w 0 (cmd_list_unit name))) =? 0),
     after_blocking (issued w 0 (cmd_list_unit name)) w).
Proof.
  unfold check_service_exists, bind, issued. rewrite run_command_eq, answer_0.
  rewrite Nat.add_0_r.
  destruct (cmd_result 30 _) as [[rc out] err]. reflexivity.
Qed.

(** C10: the masked-check answers true whenever [systemctl is-enabled]
    exits nonzero or prints a text containing "masked"; a service for which
    it does so (a masked one, or one that is merely disabled) is skipped for
    the cycle: the only commands run are the existence check and the
    is-enabled query, and the state table, the state file and the lock file
    are as before. *)
Theorem masked_or_disabled_skipped :
  forall c name action alarm w rc out err,
    fst (fst (answer w 0 (cmd_list_unit name))) = 0 ->
    answer w 1 (cmd_is_enabled name) = (rc, out, err) ->
    rc <> 0 \/ Text.contains "masked" out = true ->
    (forall w0, answer w0 0 (cmd_is_enabled name) = (rc, out, err) ->
                fst (is_service_masked name w0) = Ret true) /\
    exists w',
      check_service c name action alarm w = (Ret tt, w') /\
      same_store w w' /\
      effects (w_trace w')
      = (effects (w_trace w)
         ++ [issued w 0 (cmd_list_unit name); issued w 1 (cmd_is_enabled name)])%list.
Proof.
  intros c name action alarm w rc out err Hex Hen Hm.
  assert (Hb : Text.contains "masked" out || negb (rc =? 0) = true).
  { destruct Hm as [Hm | Hm].
    - apply orb_true_iff. right. apply negb_true_iff. apply Z.eqb_neq. exact Hm.
    - rewrite Hm. reflexivity. }
  split.
  - intros w0 H0. rewrite is_service_masked_eq, H0. simpl. f_equal. exact Hb.
  - unfold check_service, bind.
    rewrite log_message_eq, check_service_exists_eq.
    set (w1 := logged "INFO" ("Checking service: " ++ name) w).
    assert (E1 : answer w1 0 (cmd_list_unit name) = answer w 0 (cmd_list_unit name))
      by reflexivity.
    rewrite E1, Hex. cbv beta iota. rewrite Z.eqb_refl. cbv beta iota delta [negb].
    rewrite is_service_masked_eq.
    set (w2 := after_blocking (issued w1 0 (cmd_list_unit name)) w1).
    assert (E2 : answer w2 0 (cmd_is_enabled name) = (rc, out, err)).
    { rewrite <- Hen. unfold answer, w2.
      rewrite after_blocking_tick.
      destruct (after_blocking_store (issued w1 0 (cmd_list_unit name)) w1) as (Henv & _).
      rewrite Henv. unfold w1. simpl.
      rewrite Nat.add_0_r, Nat.add_1_r. reflexivity. }
    rewrite E2. cbv beta iota. rewrite Hb.
    rewrite log_message_eq.
    eexists. split; [reflexivity|]. split.
    + eapply same_store_trans; [|apply logged_store].
      eapply same_store_trans; [|apply after_blocking_store].
      eapply same_store_trans; [|apply after_blocking_store].
      apply logged_store.
    + rewrite logged_effects.
      rewrite after_blocking_effects by reflexivity.
      unfold w2. rewrite after_blocking_effects by reflexivity.
      unfold w1. rewrite logged_effects.
      rewrite <- List.app_assoc. unfold issued.
      rewrite after_blocking_tick.
      destruct (after_blocking_store
                  (EvCmd (cmd_list_unit name)
                     (env_proc (w_env (logged "INFO" ("Checking service: " ++ name) w))
                        (w_tick (logged "INFO" ("Checking service: " ++ name) w) + 0)
                        (cmd_list_unit name)))
                  (logged "INFO" ("Checking service: " ++ name) w)) as (Henv & _).
      rewrite Henv. simpl. rewrite !Nat.add_0_r, Nat.add_1_r. reflexivity.
Qed.

(** *** The lock file *)

Ltac lred :=
  cbv beta iota zeta delta
    [release_lock acquire_lock try_except lock_file_exists lock_remove
     lock_open_excl lock_write lock_read os_getpid os_kill io_fault
     is_FileExistsError is_OSError is_ValueError orb
     bind ret raise halt_with modify get_world emit next_call
     with_tick with_trace with_state with_running with_state_file
     with_lock_file
     w_env w_tick w_trace w_state_file w_lock_file self_state self_running].

(** With no lock file in place, acquiring never recurses. *)
Lemma acquire_lock_free k w :
  w_lock_file w = None ->
  acquire_lock (S k) w = acquire_lock 1 w /\
  (forall h, fst (acquire_lock 1 w) <> Halt h).
Proof.
  destruct w as [env tick sf lf tr st run]. simpl. intros ->.
  lred. destruct (env_io_fails env tick); lred.
  - split; [reflexivity | discriminate].
  - destruct (env_io_fails env (S tick)); lred; split;
      try reflexivity; discriminate.
Qed.

Lemma acquire_lock_free_result w :
  w_lock_file w = None ->
  env_io_fails (w_env w) (w_tick w) = false ->
  env_io_fails (w_env w) (S (w_tick w)) = false ->
  acquire_lock 1 w
  = (Ret true,
     with_lock_file (Some (Text.of_Z (env_pid (w_env w))))
       (with_tick (S (S (w_tick w))) w)).
Proof.
  destruct w as [env tick sf lf tr st run]. simpl. intros -> H1 H2.
  lred. rewrite H1. lred. rewrite H2. reflexivity.
Qed.

(** The lock file holds [text]; what the steps of [acquire_lock] meet. *)
Lemma acquire_lock_held k w text :
  w_lock_file w = Some text ->
  acquire_lock (S k) w
  = if env_io_fails (w_env w) (S (w_tick w)) then
      (lock_remove ;; acquire_lock k) (with_tick (S (S (w_tick w))) w)
    else
      match Text.to_Z (Text.strip text) with
      | None => (lock_remove ;; acquire_lock k) (with_tick (S (S (w_tick w))) w)
      | Some pid =>
          if fits_c_int pid then
            if env_kill_ok (w_env w) pid
            then (Ret false, with_tick (S (S (w_tick w))) w)
            else (lock_remove ;; acquire_lock k) (with_tick (S (S (w_tick w))) w)
          else (Raise OverflowError, with_tick (S (S (w_tick w))) w)
      end.
Proof.
  destruct w as [env tick sf lf tr st run]. simpl. intros ->.
  cbn [acquire_lock]. unfold try_except at 1.
  replace ((lock_open_excl;; pid <- os_getpid;; lock_write (Text.of_Z pid);; ret true)
             {| w_env := env; w_tick := tick; w_state_file := sf;
                w_lock_file := Some text; w_trace := tr; self_state := st;
                self_running := run |})
    with (@Raise bool FileExistsError,
          {| w_env := env; w_tick := S tick; w_state_file := sf;
             w_lock_file := Some text; w_trace := tr; self_state := st;
             self_running := run |}) by reflexivity.
  cbv beta iota delta [is_FileExistsError].
  unfold try_except, lock_read, io_fault, bind, next_call, get_world, ret, raise.
  cbn [w_tick w_env w_lock_file with_tick].
  destruct (env_io_fails env (S tick)); cbn [is_OSError is_ValueError orb].
  - reflexivity.
  - destruct (Text.to_Z (Text.strip text)) as [pid|]; cbn [is_OSError is_ValueError orb];
      [|reflexivity].
    unfold os_kill, bind, get_world, ret, raise.
    destruct (fits_c_int pid); [|reflexivity].
    unfold with_tick. cbn [w_env w_tick].
    destruct (env_kill_ok env pid); reflexivity.
Qed.

Lemma lock_remove_eq w text :
  w_lock_file w = Some text ->
  lock_remove w
  = if env_io_fails (w_env w) (w_tick w)
    then (Raise OSError, with_tick (S (w_tick w)) w)
    else (Ret tt, with_lock_file None (with_tick (S (w_tick w)) w)).
Proof.
  destruct w as [env tick sf lf tr st run]. simpl. intros ->.
  lred. destruct (env_io_fails env tick); reflexivity.
Qed.

(** After a stale lock is found: the removal, then the second attempt. *)
Lemma reclaim_eq k w text :
  w_lock_file w = Some text ->
  (lock_remove ;; acquire_lock (S k)) w
  = if env_io_fails (w_env w) (w_tick w)
    then (Raise OSError, with_tick (S (w_tick w)) w)
    else acquire_lock 1 (with_lock_file None (with_tick (S (w_tick w)) w)).
Proof.
  intros H. unfold bind. rewrite (lock_remove_eq _ _ H).
  destruct (env_io_fails (w_env w) (w_tick w)); [reflexivity|].
  apply acquire_lock_free. reflexivity.
Qed.

(** C6: [acquire_lock] answers false, leaving the file alone, when the lock
    file records the pid of a live process; when the recorded process is
    gone it removes the file and acquires the lock, which then records the
    caller's pid; the reclamation retries once: two levels of the recursion
    always suffice, the function never runs longer, and a removal that
    fails ends the call with [OSError]. *)
Theorem acquire_lock_spec :
  forall w,
    (forall text pid k,
        w_lock_file w = Some text ->
        env_io_fails (w_env w) (S (w_tick w)) = false ->
        Text.to_Z (Text.strip text) = Some pid ->
        fits_c_int pid = true ->
        env_kill_ok (w_env w) pid = true ->
        fst (acquire_lock (S k) w) = Ret false /\
        w_lock_file (snd (acquire_lock (S k) w)) = Some text) /\
    (forall text pid k,
        w_lock_file w = Some text ->
        env_io_fails (w_env w) (S (w_tick w)) = false ->
        Text.to_Z (Text.strip text) = Some pid ->
        fits_c_int pid = true ->
        env_kill_ok (w_env w) pid = false ->
        env_io_fails (w_env w) (2 + w_tick w) = false ->
        env_io_fails (w_env w) (3 + w_tick w) = false ->
        env_io_fails (w_env w) (4 + w_tick w) = false ->
        fst (acquire_lock (S (S k)) w) = Ret true /\
        w_lock_file (snd (acquire_lock (S (S k)) w))
        = Some (Text.of_Z (env_pid (w_env w)))) /\
    (forall k, acquire_lock (S (S k)) w = acquire_lock 2 w) /\
    (forall h, fst (acquire_lock 2 w) <> Halt h) /\
    (forall text pid k,
        w_lock_file w = Some text ->
        env_io_fails (w_env w) (S (w_tick w)) = false ->
        Text.to_Z (Text.strip text) = Some pid ->
        fits_c_int pid = true ->
        env_kill_ok (w_env w) pid = false ->
        env_io_fails (w_env w) (2 + w_tick w) = true ->
        fst (acquire_lock (S (S k)) w) = Raise OSError /\
        w_lock_file (snd (acquire_lock (S (S k)) w)) = Some text).
Proof.
  intros w.
  split; [|split; [|split; [|split; [|]]]].
  - intros text pid k L R P F A.
    rewrite (acquire_lock_held _ _ _ L), R, P, F, A. split; [reflexivity|exact L].
  - intros text pid k L R P F A R2 R3 R4. cbn [Nat.add] in R2, R3, R4.
    rewrite (acquire_lock_held _ _ _ L), R, P, F, A.
    rewrite (reclaim_eq k _ text) by exact L. cbn [w_env w_tick with_tick].
    rewrite R2. rewrite acquire_lock_free_result; [split; reflexivity| reflexivity | |];
      cbn [w_env w_tick with_tick with_lock_file]; assumption.
  - intros k. destruct (w_lock_file w) as [text|] eqn:L.
    + rewrite !(acquire_lock_held _ _ _ L).
      rewrite (reclaim_eq k _ text), (reclaim_eq 0 _ text) by exact L.
      reflexivity.
    + destruct (acquire_lock_free (S k) w L) as [-> _].
      destruct (acquire_lock_free 1 w L) as [-> _]. reflexivity.
  - intros h. destruct (w_lock_file w) as [text|] eqn:L.
    + rewrite (acquire_lock_held _ _ _ L).
      rewrite (reclaim_eq 0 _ text) by exact L.
      assert (F : forall w0, w_lock_file w0 = None ->
                             fst (acquire_lock 1 w0) <> Halt h).
      { intros w0 L0. apply (acquire_lock_free 0 w0 L0). }
      cbn [w_env w_tick with_tick].
      destruct (env_io_fails (w_env w) (S (w_tick w))).
      * destruct (env_io_fails (w_env w) (S (S (w_tick w)))); [discriminate|].
        apply F. reflexivity.
      * destruct (Text.to_Z (Text.strip text)) as [pid|].
        -- destruct (fits_c_int pid); [|discriminate].
           destruct (env_kill_ok (w_env w) pid); [discriminate|].
           destruct (env_io_fails (w_env w) (S (S (w_tick w)))); [discriminate|].
           apply F. reflexivity.
        -- destruct (env_io_fails (w_env w) (S (S (w_tick w)))); [discriminate|].
           apply F. reflexivity.
    + destruct (acquire_lock_free 1 w L) as [-> N]. apply N.
  - intros text pid k L R P F A R2. cbn [Nat.add] in R2.
    rewrite (acquire_lock_held _ _ _ L), R, P, F, A.
    rewrite (reclaim_eq k _ text) by exact L. cbn [w_env w_tick with_tick].
    rewrite R2. split; [reflexivity|exact L].
Qed.

Lemma release_lock_eq w :
  release_lock w
  = (Ret tt,
     match w_lock_file w with
     | None => w
     | Some _ =>
         if env_io_fails (w_env w) (w_tick w)
         then with_tick (S (w_tick w)) w
         else with_lock_file None (with_tick (S (w_tick w)) w)
     end).
Proof.
  destruct w as [env tick sf lf tr st run]. lred.
  destruct lf as [text|]; lred; [|reflexivity].
  destruct (env_io_fails env tick); reflexivity.
Qed.

(** C9, as the code has it: [release_lock] never raises; it removes the
    lock file whenever one exists (and the removal is not refused), without
    looking at the pid it records; called when no lock file exists it
    changes nothing, so a second call after a removal is the identity. *)
Theorem release_lock_spec :
  forall w,
    fst (release_lock w) = Ret tt /\
    (w_lock_file w = None -> snd (release_lock w) = w) /\
    (env_io_fails (w_env w) (w_tick w) = false ->
     w_lock_file (snd (release_lock w)) = None) /\
    (w_lock_file (snd (release_lock w)) = None ->
     release_lock (snd (release_lock w)) = (Ret tt, snd (release_lock w))).
Proof.
  intros w. rewrite release_lock_eq. cbn [fst snd].
  split; [reflexivity|]. split; [|split].
  - intros ->. reflexivity.
  - intros F. rewrite F. destruct (w_lock_file w) eqn:L; [reflexivity|exact L].
  - intros N. rewrite release_lock_eq. rewrite N. reflexivity.
Qed.

(** *** The recovery loop *)

Lemma effects_cons_effect e t :
  is_effect e = true -> effects (e :: t) = e :: effects t.
Proof. intros H. unfold effects. simpl. rewrite H. reflexivity. Qed.

Lemma delay_eq c attempt w :
  exists w',
    (if attempt <? RETRY_COUNT c - 1 then time_sleep (RETRY_DELAY c) else ret tt) w
    = (Ret tt, w') /\
    same_store w w' /\
    effects (w_trace w') = (effects (w_trace w) ++ delay c attempt)%list.
Proof.
  unfold delay. destruct (attempt <? RETRY_COUNT c - 1).
  - rewrite time_sleep_eq. eexists. split; [reflexivity|]. split.
    + apply after_blocking_store.
    + apply after_blocking_effects. reflexivity.
  - exists w. split; [reflexivity|]. split; [apply same_store_refl|].
    symmetry. apply List.app_nil_r.
Qed.

(** The loop follows the transcripts of [recovery], touches neither the
    state table nor the files, and always returns. *)
Lemma attempt_loop_recovery c service action cmd attempts :
  forall w,
  exists seg b w',
    attempt_loop c service action cmd attempts w = (Ret b, w') /\
    same_store w w' /\
    effects (w_trace w') = (effects (w_trace w) ++ seg)%list /\
    recovery c action service cmd attempts seg b.
Proof.
  induction attempts as [|attempt rest IH]; intros w.
  - exists [], false, w. split; [reflexivity|]. split; [apply same_store_refl|].
    split; [symmetry; apply List.app_nil_r | constructor].
  - cbn [attempt_loop]. unfold bind at 1. rewrite log_message_eq.
    set (w1 := logged "INFO" _ w).
    unfold bind at 1. rewrite run_command_eq.
    set (o := env_proc (w_env w1) (w_tick w1) cmd).
    set (w2 := after_blocking (EvCmd cmd o) w1).
    assert (S2 : same_store w w2).
    { eapply same_store_trans; [apply logged_store | apply after_blocking_store]. }
    assert (E2 : effects (w_trace w2) = (effects (w_trace w) ++ [EvCmd cmd o])%list).
    { unfold w2. rewrite after_blocking_effects by reflexivity.
      unfold w1. rewrite logged_effects. reflexivity. }
    assert (RS : reports_success o = (fst (fst (cmd_result 30 o)) =? 0)) by reflexivity.
    destruct (cmd_result 30 o) as [[rc out] err]. cbn [fst] in RS.
    cbv beta iota. destruct (rc =? 0).
    + unfold bind at 1. rewrite log_message_eq.
      set (w3 := logged "SUCCESS" _ w2).
      destruct (verified_action action) eqn:V.
      * unfold bind at 1. rewrite time_sleep_eq.
        set (w4 := after_blocking (EvSleep 3) w3).
        unfold bind at 1. rewrite run_command_eq.
        set (p := env_proc (w_env w4) (w_tick w4) (cmd_is_active service)).
        set (w5 := after_blocking (EvCmd (cmd_is_active service) p) w4).
        assert (S5 : same_store w w5).
        { eapply same_store_trans; [exact S2|].
          eapply same_store_trans; [apply logged_store|].
          eapply same_store_trans; apply after_blocking_store. }
        assert (E5 : effects (w_trace w5)
                     = (effects (w_trace w)
                        ++ [EvCmd cmd o; EvSleep 3; EvCmd (cmd_is_active service) p])%list).
        { unfold w5. rewrite after_blocking_effects by reflexivity.
          unfold w4. rewrite after_blocking_effects by reflexivity.
          unfold w3. rewrite logged_effects, E2.
          rewrite <- !List.app_assoc. reflexivity. }
        assert (RA : reports_active p
                     = (let '(rc, out, _) := cmd_result 30 p in
                        (rc =? 0) && Text.contains "active" out)) by reflexivity.
        destruct (cmd_result 30 p) as [[prc pout] perr].
        cbv beta iota. cbv beta iota in RA.
        destruct ((prc =? 0) && Text.contains "active" pout).
        -- exists [EvCmd cmd o; EvSleep 3; EvCmd (cmd_is_active service) p], true, w5.
           split; [reflexivity|]. split; [exact S5|]. split; [exact E5|].
           apply rec_verified; assumption.
        -- unfold bind at 1. rewrite log_message_eq.
           set (w6 := logged "WARNING" _ w5).
           destruct (IH w6) as (seg & b & w' & R & S & E & T).
           exists (EvCmd cmd o :: EvSleep 3 :: EvCmd (cmd_is_active service) p :: seg), b, w'.
           split; [exact R|]. split.
           { eapply same_store_trans; [exact S5|].
             eapply same_store_trans; [apply logged_store | exact S]. }
           split.
           { rewrite E. unfold w6. rewrite logged_effects, E5.
             rewrite <- List.app_assoc. reflexivity. }
           apply rec_not_verified; assumption.
      * exists [EvCmd cmd o], true, w3.
        split; [reflexivity|]. split.
        { eapply same_store_trans; [exact S2 | apply logged_store]. }
        split.
        { unfold w3. rewrite logged_effects. exact E2. }
        apply rec_done; assumption.
    + unfold bind at 1. rewrite log_message_eq.
      set (w3 := logged "WARNING" _ w2).
      destruct (delay_eq c attempt w3) as (w4 & D & S4 & E4).
      unfold bind at 1. rewrite D.
      destruct (IH w4) as (seg & b & w' & R & S & E & T).
      exists (EvCmd cmd o :: delay c attempt ++ seg)%list, b, w'.
      split; [exact R|]. split.
      { eapply same_store_trans; [exact S2|].
        eapply same_store_trans; [apply logged_store|].
        eapply same_store_trans; [exact S4 | exact S]. }
      split.
      { rewrite E, E4. unfold w3. rewrite logged_effects, E2.
        rewrite <- !List.app_assoc. reflexivity. }
      apply rec_command_failed; assumption.
Qed.


Lemma range_length n : List.length (range n) = Z.to_nat n.
Proof. unfold range. rewrite List.length_map, List.length_seq. reflexivity. Qed.



Section RecoveryFacts.

Variables (c : Config) (action service cmd : string).
Hypothesis cmd_probe : String.eqb cmd (cmd_is_active service) = false.
Hypothesis probe_cmd : String.eqb (cmd_is_active service) cmd = false.











End RecoveryFacts.


(** *** The state table *)

Lemma dict_get_set_same k v d : dict_get k (dict_set k v d) = Some v.
Proof.
  induction d as [|[k' v'] d IH]; simpl.
  - rewrite String.eqb_refl. reflexivity.
  - destruct (String.eqb k k') eqn:E; simpl; rewrite E; [reflexivity | exact IH].
Qed.

Lemma dict_get_set_other k k' v d :
  String.eqb k' k = false -> dict_get k' (dict_set k v d) = dict_get k' d.
Proof.
  intros N. induction d as [|[k0 v0] d IH]; simpl.
  - rewrite N. reflexivity.
  - destruct (String.eqb k k0) eqn:E; simpl.
    + apply String.eqb_eq in E. subst k0. rewrite N. reflexivity.
    + rewrite IH. reflexivity.
Qed.

Lemma time_time_eq w :
  time_time w = (Ret (env_clock (w_env w) (w_tick w)), clocked w).
Proof. destruct w. reflexivity. Qed.

Lemma clocked_store w : same_store w (clocked w).
Proof. repeat split. Qed.

Lemma state_entry_eq name e w :
  dict_get name (self_state w) = Some e -> state_entry name w = (Ret e, w).
Proof. intros H. unfold state_entry, bind, get_world. rewrite H. reflexivity. Qed.

Lemma state_entry_missing name w :
  dict_get name (self_state w) = None ->
  state_entry name w
  = (Ret default_entry,
     with_state (dict_set name default_entry (self_state w)) w).
Proof. intros H. unfold state_entry, bind, get_world. rewrite H. reflexivity. Qed.

Lemma failures_of_eq name e f w :
  dict_get name (self_state w) = Some e ->
  entry_failures e = Some f ->
  failures_of name w = (Ret f, w).
Proof.
  intros H F. unfold failures_of, bind. rewrite (state_entry_eq _ _ _ H).
  unfold entry_failures in F. destruct e as [| | | | |fields]; try discriminate.
  cbn [getitem]. destruct (dict_get "failures" fields) as [v|]; [|discriminate].
  unfold ret, as_number. rewrite F. reflexivity.
Qed.

Lemma setitem_eq name k v fields w :
  dict_get name (self_state w) = Some (JObj fields) ->
  setitem name k v w
  = (Ret tt,
     with_state (dict_set name (JObj (dict_set k v fields)) (self_state w)) w).
Proof.
  intros H. unfold setitem, bind. rewrite (state_entry_eq _ _ _ H). reflexivity.
Qed.

(** *** Saving *)

Lemma save_state_eq w :
  let text := Json.dumps (JObj (self_state w)) in
  let o := env_write (w_env w) (w_tick w) in
  let w1 := with_trace (w_trace w ++ [EvWrite text o]) (with_tick (S (w_tick w)) w) in
  save_state w
  = match o with
    | WriteDone => (Ret tt, with_state_file (Some text) w1)
    | OpenRefused =>
        (Ret tt, logged "ERROR" ("Failed to save state: " ++ exn_text OSError) w1)
    | WriteError k =>
        (Ret tt,
         logged "ERROR" ("Failed to save state: " ++ exn_text OSError)
           (with_state_file (Some (String.substring 0 k text)) w1))
    | WriteCrash k =>
        (Halt Crashed, with_state_file (Some (String.substring 0 k text)) w1)
    end.
Proof.
  destruct w as [env tick sf lf tr st run].
  unfold save_state, try_except, write_state_file. mred.
  destruct (env_write env tick); reflexivity.
Qed.

(** A save leaves the table in memory and the lock file alone, records one
    write of the full table, and returns unless the process is killed. *)
Lemma save_state_run w :
  exists r w',
    save_state w = (r, w') /\
    self_state w' = self_state w /\ w_env w' = w_env w /\
    w_lock_file w' = w_lock_file w /\ w_tick w' = S (w_tick w) /\
    effects (w_trace w')
    = (effects (w_trace w)
       ++ [EvWrite (Json.dumps (JObj (self_state w)))
             (env_write (w_env w) (w_tick w))])%list /\
    (survives w -> r = Ret tt) /\
    (env_write (w_env w) (w_tick w) = WriteDone ->
     r = Ret tt /\ w_state_file w' = Some (Json.dumps (JObj (self_state w)))).
Proof.
  pose proof (save_state_eq w) as E. cbv zeta in E.
  assert (T : effects (w_trace w ++ [EvWrite (Json.dumps (JObj (self_state w)))
                                       (env_write (w_env w) (w_tick w))])
              = (effects (w_trace w)
                 ++ [EvWrite (Json.dumps (JObj (self_state w)))
                       (env_write (w_env w) (w_tick w))])%list).
  { rewrite effects_app. reflexivity. }
  destruct (env_write (w_env w) (w_tick w)) eqn:O; rewrite E;
    eexists; eexists; (split; [reflexivity|]);
    do 5 (split; [first [reflexivity | exact T
                        | rewrite logged_effects; exact T]|]).
  - split; [reflexivity|]. intros _. split; reflexivity.
  - split; [reflexivity | discriminate].
  - split; [reflexivity | discriminate].
  - split; [|discriminate]. intros S. exfalso. exact (S _ _ O).
Qed.

(** *** Frame rules *)

Lemma mails_app a b : mails (a ++ b) = (mails a ++ mails b)%list.
Proof. apply filter_app. Qed.

Lemma quiet_refl w : quiet w w.
Proof. split; [apply same_store_refl | reflexivity]. Qed.

Lemma quiet_trans w1 w2 w3 : quiet w1 w2 -> quiet w2 w3 -> quiet w1 w3.
Proof.
  intros (S1 & M1) (S2 & M2). split.
  - eapply same_store_trans; eassumption.
  - congruence.
Qed.

Section Keeps.

Variable R : World -> World -> Prop.
Hypothesis R_refl : forall w, R w w.
Hypothesis R_trans : forall w1 w2 w3, R w1 w2 -> R w2 w3 -> R w1 w3.

Lemma keeps_ret {A} (a : A) : keeps R (ret a).
Proof. intros w. split; [apply R_refl | discriminate]. Qed.

Lemma keeps_raise {A} (e : exn) : keeps R (@raise A e).
Proof. intros w. split; [apply R_refl | discriminate]. Qed.

Lemma keeps_get_world : keeps R get_world.
Proof. intros w. split; [apply R_refl | discriminate]. Qed.

Lemma keeps_bind {A B} (m : M A) (k : A -> M B) :
  keeps R m -> (forall a, keeps R (k a)) -> keeps R (bind m k).
Proof.
  intros Hm Hk w. unfold bind. destruct (Hm w) as [H1 H2].
  destruct (m w) as [[a|e|h] w1]; cbn [fst snd] in *.
  - destruct (Hk a w1) as [K1 K2]. split; [|exact K2].
    eapply R_trans; [exact H1 | exact K1].
  - split; [exact H1 | discriminate].
  - exfalso. exact (H2 h eq_refl).
Qed.

Lemma keeps_try_except {A} (body : M A) caught handler :
  keeps R body -> (forall e, keeps R (handler e)) ->
  keeps R (try_except body caught handler).
Proof.
  intros Hb Hh w. unfold try_except. destruct (Hb w) as [H1 H2].
  destruct (body w) as [[a|e|h] w1]; cbn [fst snd] in *.
  - split; [exact H1 | discriminate].
  - destruct (caught e).
    + destruct (Hh e w1) as [K1 K2]. split; [|exact K2].
      eapply R_trans; [exact H1 | exact K1].
    + split; [exact H1 | discriminate].
  - exfalso. exact (H2 h eq_refl).
Qed.

Lemma keeps_if {A} (b : bool) (m1 m2 : M A) :
  keeps R m1 -> keeps R m2 -> keeps R (if b then m1 else m2).
Proof. destruct b; auto. Qed.

End Keeps.

Lemma quiet_log level msg : keeps quiet (log_message level msg).
Proof.
  intros w. rewrite log_message_eq. cbn [fst snd].
  split; [|discriminate]. split; [apply logged_store|].
  unfold logged. cbn. rewrite mails_app. apply List.app_nil_r.
Qed.

Lemma after_blocking_mails ev w :
  is_mail ev = false ->
  mails (w_trace (after_blocking ev w)) = mails (w_trace w).
Proof.
  intros H. unfold after_blocking.
  destruct (env_signal (w_env w) (w_tick w)); cbn;
    rewrite !mails_app; cbn; rewrite H; cbn; rewrite ?List.app_nil_r; reflexivity.
Qed.

Lemma quiet_run_command cmd t : keeps quiet (run_command cmd t).
Proof.
  intros w. rewrite run_command_eq. cbn [fst snd].
  split; [|discriminate]. split.
  - apply after_blocking_store.
  - apply after_blocking_mails. reflexivity.
Qed.

Lemma quiet_stdout_of cmd : keeps quiet (stdout_of cmd).
Proof.
  unfold stdout_of. apply keeps_bind; [apply quiet_trans | apply quiet_run_command |].
  intros [[rc out] err]. apply keeps_ret. apply quiet_refl.
Qed.

Lemma quiet_read_proc f : keeps quiet (read_proc f).
Proof.
  intros w. destruct w as [env tick sf lf tr st run].
  unfold read_proc, io_fault. mred. destruct (env_io_fails env tick);
    (split; [split; [repeat split | reflexivity] | discriminate]).
Qed.

Ltac quiet_step :=
  first
    [ apply quiet_stdout_of
    | apply quiet_run_command
    | apply quiet_read_proc
    | apply quiet_log
    | apply keeps_ret; apply quiet_refl
    | apply keeps_get_world; apply quiet_refl
    | progress cbv zeta
    | apply keeps_bind; [apply quiet_trans | | intros ] ].

Lemma quiet_get_system_info : keeps quiet get_system_info.
Proof. unfold get_system_info. repeat quiet_step. Qed.

Lemma quiet_get_service_info service : keeps quiet (get_service_info service).
Proof. unfold get_service_info. repeat quiet_step. Qed.

Lemma quiet_get_top_info : keeps quiet get_top_info.
Proof. unfold get_top_info. repeat quiet_step. Qed.

Lemma quiet_get_recent_logs : keeps quiet get_recent_logs.
Proof. unfold get_recent_logs. repeat quiet_step. Qed.

Lemma quiet_alert_text c service action failures :
  keeps quiet (alert_text c service action failures).
Proof.
  unfold alert_text.
  repeat first [ apply quiet_get_system_info | apply quiet_get_service_info
               | apply quiet_get_top_info | apply quiet_get_recent_logs
               | quiet_step ].
Qed.

(** *** Sending *)

Lemma mail_transport_eq subject body w :
  mail_transport subject body w
  = (Ret (env_mail (w_env w) (w_tick w)),
     with_trace
       (w_trace w ++ [EvMail subject body (env_mail (w_env w) (w_tick w))])
       (with_tick (S (w_tick w)) w)).
Proof. destruct w. reflexivity. Qed.

(** [send_email] always returns; it touches neither the table nor the
    files. *)
Lemma send_email_run c subject body w :
  exists sent w',
    send_email c subject body w = (Ret sent, w') /\ same_store w w'.
Proof.
  unfold send_email.
  destruct (String.eqb (ADMIN_EMAIL c) EmptyString).
  { eexists. eexists. split; [reflexivity | repeat split]. }
  unfold try_except.
  destruct (String.eqb (SENDMAIL_METHOD c) "sendmail");
    [|destruct (String.eqb (SENDMAIL_METHOD c) "smtp");
      [|destruct (String.eqb (SENDMAIL_METHOD c) "mail")]];
    try (unfold bind at 1; rewrite mail_transport_eq;
         destruct (env_mail (w_env w) (w_tick w));
         eexists; eexists; (split; [reflexivity | repeat split])).
  eexists. eexists. split; [reflexivity | repeat split].
Qed.

(** [send_alert] with the service's entry in the table: the table and the
    files are left alone; the call returns, or it raises before any mail
    is handed over. *)
Lemma send_alert_run c name action e w :
  dict_get name (self_state w) = Some e ->
  exists r w',
    send_alert c name action w = (r, w') /\
    same_store w w' /\
    (forall h, r <> Halt h) /\
    (r = Ret tt \/ mails (w_trace w') = mails (w_trace w)).
Proof.
  intros He. unfold send_alert. unfold bind at 1.
  rewrite (state_entry_eq _ _ _ He).
  unfold bind at 1.
  assert (G : (exists v, getitem e "failures" w = (Ret v, w)) \/
              (exists x, getitem e "failures" w = (Raise x, w))).
  { unfold getitem. destruct e; try (right; eexists; reflexivity).
    destruct (dict_get "failures" fields);
      [left | right]; eexists; reflexivity. }
  destruct G as [(v & ->) | (x & ->)].
  2:{ eexists. eexists. split; [reflexivity|].
      split; [apply same_store_refl|]. split; [discriminate|].
      right. reflexivity. }
  unfold bind at 1.
  destruct (quiet_alert_text c name action v w) as [[S1 M1] N1].
  destruct (alert_text c name action v w) as [[[subject body]|x|h] w1];
    cbn [fst snd] in *.
  - destruct (send_email_run c subject body w1) as (sent & w2 & E2 & S2).
    unfold bind at 1. rewrite E2.
    destruct sent; rewrite log_message_eq;
      (eexists; eexists; split; [reflexivity|]; split;
       [ eapply same_store_trans; [exact S1|];
         eapply same_store_trans; [exact S2 | apply logged_store]
       | split; [discriminate | left; reflexivity] ]).
  - eexists. eexists. split; [reflexivity|]. split; [exact S1|].
    split; [discriminate | right; exact M1].
  - exfalso. exact (N1 h eq_refl).
Qed.

(** *** The escalation *)

Lemma shouldAlert_iff c f la alarm now :
  shouldAlert c f la alarm now = true <->
  alarm = true /\ ALERT_THRESHOLD c <= f /\ ALERT_RATE_LIMIT c <= now - la.
Proof.
  unfold shouldAlert. rewrite !andb_true_iff, !Z.leb_le. tauto.
Qed.

(** The code of lines 441-450 against the gate of the specification. *)
Lemma escalate_eq c name action alarm w e f la :
  dict_get name (self_state w) = Some e ->
  entry_failures e = Some f ->
  entry_last_alert e = Some la ->
  escalate c name action alarm w
  = if alarm && (ALERT_THRESHOLD c <=? f) then
      if ALERT_RATE_LIMIT c <=? env_clock (w_env w) (w_tick w) - la
      then alert_and_record c name action (env_clock (w_env w) (w_tick w)) (clocked w)
      else (Ret tt, clocked w)
    else (Ret tt, w).
Proof.
  intros He Hf Hl. unfold escalate. unfold bind at 1.
  destruct alarm; cbn [andb]; [|reflexivity].
  unfold bind at 1. rewrite (failures_of_eq _ _ _ _ He Hf). cbn [ret].
  destruct (ALERT_THRESHOLD c <=? f); [|reflexivity].
  unfold bind at 1. rewrite time_time_eq.
  unfold bind at 1. rewrite (state_entry_eq name e (clocked w)) by exact He.
  unfold entry_last_alert in Hl. destruct e as [| | | | |fields]; try discriminate.
  unfold bind at 1. cbn [get_or].
  destruct (dict_get "last_alert" fields) as [v|].
  - unfold ret at 1. unfold bind at 1. unfold as_number. rewrite Hl.
    unfold ret. destruct (ALERT_RATE_LIMIT c <=? _); reflexivity.
  - unfold ret at 1. unfold bind at 1. unfold as_number. cbn [number_of].
    inversion Hl; subst.
    unfold ret. destruct (ALERT_RATE_LIMIT c <=? _); reflexivity.
Qed.

Lemma entry_fields e f : entry_failures e = Some f -> exists fields, e = JObj fields.
Proof. destruct e; try discriminate. eexists. reflexivity. Qed.

Lemma stamped_entry name fields now st :
  state_last_alert (dict_set name (JObj (dict_set "last_alert" (JNum now) fields)) st)
    name = Some now /\
  state_failures (dict_set name (JObj (dict_set "last_alert" (JNum now) fields)) st)
    name = entry_failures (JObj fields).
Proof.
  unfold state_last_alert, state_failures, entry_of.
  rewrite dict_get_set_same. cbn [entry_last_alert entry_failures].
  rewrite dict_get_set_same.
  rewrite dict_get_set_other by reflexivity. split; reflexivity.
Qed.

(** What [alert_and_record] leaves, with the service's entry in place:
    unless [send_alert] raised before any mail was handed over, the entry
    holds the time stamp. *)
Lemma alert_and_record_run c name action now w e f :
  dict_get name (self_state w) = Some e ->
  entry_failures e = Some f ->
  exists r w',
    alert_and_record c name action now w = (r, w') /\
    ((state_last_alert (self_state w') name = Some now /\
      state_failures (self_state w') name = Some f /\
      (survives w -> r = Ret tt)) \/
     (mails (w_trace w') = mails (w_trace w) /\
      self_state w' = self_state w /\ exists x, r = Raise x)).
Proof.
  intros He Hf. destruct (entry_fields _ _ Hf) as (fields & ->).
  unfold alert_and_record. unfold bind at 1.
  destruct (send_alert_run c name action _ w He) as (r1 & w1 & E1 & S1 & N1 & C1).
  rewrite E1. destruct S1 as (Senv & Sst & Ssf & Slf).
  destruct r1 as [[]|x|h].
  - unfold bind at 1. rewrite (setitem_eq name "last_alert" (JNum now) fields w1)
      by (rewrite Sst; exact He).
    set (w2 := with_state _ w1).
    destruct (save_state_run w2) as (r & w' & E & St & Env & _ & _ & _ & Sv & _).
    rewrite E. exists r, w'. split; [reflexivity|]. left.
    rewrite St. unfold w2. cbn [self_state with_state].
    destruct (stamped_entry name fields now (self_state w1)) as (A & B).
    split; [exact A|]. split; [rewrite B; exact Hf|].
    intros Sw. apply Sv. intros n k. unfold w2. cbn [w_env with_state].
    rewrite Senv. apply Sw.
  - exists (Raise x), w1. split; [reflexivity|]. right.
    destruct C1 as [C1|C1]; [discriminate|]. split; [exact C1|].
    split; [exact Sst|]. eexists. reflexivity.
  - exfalso. exact (N1 h eq_refl).
Qed.

Lemma clocked_mails w : mails (w_trace (clocked w)) = mails (w_trace w).
Proof. unfold clocked. cbn. rewrite mails_app. apply List.app_nil_r. Qed.

(** C1, as the code has it: whenever the escalation hands a message to the
    mailer, the entry's [last_alert] is set to the time read for the
    decision, whatever the mailer reports; the failure count is not
    touched. *)
Theorem alert_stamps_last_alert :
  forall c name action alarm w e f la r w',
    dict_get name (self_state w) = Some e ->
    entry_failures e = Some f ->
    entry_last_alert e = Some la ->
    escalate c name action alarm w = (r, w') ->
    mails (w_trace w') <> mails (w_trace w) ->
    state_last_alert (self_state w') name = Some (env_clock (w_env w) (w_tick w)) /\
    state_failures (self_state w') name = Some f.
Proof.
  intros c name action alarm w e f la r w' He Hf Hl Hrun Hmail.
  rewrite (escalate_eq _ _ _ _ _ _ _ _ He Hf Hl) in Hrun.
  destruct (alarm && (ALERT_THRESHOLD c <=? f)).
  2:{ inversion Hrun; subst. exfalso. apply Hmail. reflexivity. }
  destruct (ALERT_RATE_LIMIT c <=? env_clock (w_env w) (w_tick w) - la).
  2:{ inversion Hrun; subst. exfalso. apply Hmail. apply clocked_mails. }
  destruct (alert_and_record_run c name action (env_clock (w_env w) (w_tick w))
              (clocked w) e f He Hf) as (r0 & w0 & E & [(A & B & _)|(A & _)]);
    rewrite E in Hrun; inversion Hrun; subst.
  - split; assumption.
  - exfalso. apply Hmail. rewrite A. apply clocked_mails.
Qed.

(** C2: with the service's entry holding [f] failures and [la] as the time
    of the last alert, and [now] the time the clock gives, the escalation
    of [check_service] takes the alert path (the alert, the time stamp, the
    save) exactly when the alarm flag is set, [f >= ALERT_THRESHOLD] and
    [now - la >= ALERT_RATE_LIMIT], and otherwise does nothing but read the
    clock.  Hence no alert below the threshold; an alert on the cycle the
    threshold is reached, when the rate limit permits; and, the alert path
    leaving [last_alert = now], no second alert for the service at any time
    less than [ALERT_RATE_LIMIT] later. *)
Theorem escalation_decision :
  forall c name action alarm w e f la,
    dict_get name (self_state w) = Some e ->
    entry_failures e = Some f ->
    entry_last_alert e = Some la ->
    (shouldAlert c f la alarm (env_clock (w_env w) (w_tick w)) = true <->
     alarm = true /\ ALERT_THRESHOLD c <= f /\
     ALERT_RATE_LIMIT c <= env_clock (w_env w) (w_tick w) - la) /\
    (shouldAlert c f la alarm (env_clock (w_env w) (w_tick w)) = true ->
     escalate c name action alarm w
     = alert_and_record c name action (env_clock (w_env w) (w_tick w)) (clocked w)) /\
    (shouldAlert c f la alarm (env_clock (w_env w) (w_tick w)) = false ->
     exists w1,
       escalate c name action alarm w = (Ret tt, w1) /\ quiet w w1 /\
       (effects (w_trace w1) = effects (w_trace w) \/
        effects (w_trace w1)
        = (effects (w_trace w) ++ [EvClock (env_clock (w_env w) (w_tick w))])%list)) /\
    (f < ALERT_THRESHOLD c ->
     shouldAlert c f la alarm (env_clock (w_env w) (w_tick w)) = false) /\
    (alarm = true -> f = ALERT_THRESHOLD c ->
     ALERT_RATE_LIMIT c <= env_clock (w_env w) (w_tick w) - la ->
     shouldAlert c f la alarm (env_clock (w_env w) (w_tick w)) = true) /\
    (forall r w',
        alert_and_record c name action (env_clock (w_env w) (w_tick w)) (clocked w)
        = (Ret r, w') ->
        state_last_alert (self_state w') name
        = Some (env_clock (w_env w) (w_tick w)) /\
        forall f2 now2,
          now2 - env_clock (w_env w) (w_tick w) < ALERT_RATE_LIMIT c ->
          shouldAlert c f2 (env_clock (w_env w) (w_tick w)) alarm now2 = false).
Proof.
  intros c name action alarm w e f la He Hf Hl.
  set (now := env_clock (w_env w) (w_tick w)).
  pose proof (escalate_eq c name action alarm w e f la He Hf Hl) as E.
  fold now in E.
  split; [apply shouldAlert_iff|].
  split; [|split; [|split; [|split]]].
  - intros D. rewrite E. unfold shouldAlert in D.
    apply andb_true_iff in D. destruct D as [D1 D2]. rewrite D1, D2. reflexivity.
  - intros D. rewrite E. unfold shouldAlert in D.
    destruct (alarm && (ALERT_THRESHOLD c <=? f)).
    + cbn [andb] in D. rewrite D. exists (clocked w).
      split; [reflexivity|]. split.
      * split; [apply clocked_store | apply clocked_mails].
      * right. unfold clocked. cbn. rewrite effects_app. reflexivity.
    + exists w. split; [reflexivity|]. split; [apply quiet_refl|]. left. reflexivity.
  - intros L. unfold shouldAlert.
    assert (X : (ALERT_THRESHOLD c <=? f) = false) by (apply Z.leb_gt; exact L).
    rewrite X, andb_false_r. reflexivity.
  - intros A T L. apply shouldAlert_iff. split; [exact A|]. split; [lia | exact L].
  - intros r w' R.
    destruct (alert_and_record_run c name action now (clocked w) e f He Hf)
      as (r0 & w0 & E0 & [(A & _)|(_ & _ & x & X)]);
      rewrite E0 in R; inversion R; subst.
    + split; [exact A|]. intros f2 now2 L. unfold shouldAlert.
      assert (X : (ALERT_RATE_LIMIT c <=? now2 - now) = false)
        by (apply Z.leb_gt; exact L).
      rewrite X, andb_false_r. reflexivity.
    + discriminate.
Qed.

(** *** The failure counter *)

Lemma touch_get name st : dict_get name (touch name st) = Some (entry_of st name).
Proof.
  unfold touch, entry_of. destruct (dict_get name st) eqn:E.
  - exact E.
  - apply dict_get_set_same.
Qed.

Lemma state_entry_touch name w :
  state_entry name w
  = (Ret (entry_of (self_state w) name), with_state (touch name (self_state w)) w).
Proof.
  unfold state_entry, bind, get_world, touch, entry_of.
  destruct (dict_get name (self_state w)) eqn:E; [|reflexivity].
  destruct w. reflexivity.
Qed.

Lemma failures_of_touch name f w :
  state_failures (self_state w) name = Some f ->
  failures_of name w = (Ret f, with_state (touch name (self_state w)) w).
Proof.
  intros F. unfold failures_of, bind. rewrite state_entry_touch.
  unfold state_failures, entry_failures in F.
  destruct (entry_of (self_state w) name) as [| | | | |fields]; try discriminate.
  cbn [getitem]. destruct (dict_get "failures" fields) as [v|]; [|discriminate].
  unfold ret, as_number. rewrite F. reflexivity.
Qed.

Lemma set_failures_eq name n f w :
  state_failures (self_state w) name = Some f ->
  setitem name "failures" (JNum n) (with_state (touch name (self_state w)) w)
  = (Ret tt, with_state (with_failures name n (self_state w)) w).
Proof.
  intros F. unfold with_failures.
  unfold state_failures, entry_failures in F.
  destruct (entry_of (self_state w) name) as [| | | | |fields] eqn:E; try discriminate.
  rewrite (setitem_eq name "failures" (JNum n) fields).
  - destruct w. reflexivity.
  - cbn [self_state with_state]. rewrite touch_get. rewrite E. reflexivity.
Qed.

Lemma with_failures_get name n f st :
  state_failures st name = Some f ->
  state_failures (with_failures name n st) name = Some n /\
  exists fields, dict_get name (with_failures name n st) = Some (JObj fields).
Proof.
  intros F. unfold with_failures.
  unfold state_failures, entry_failures in F.
  destruct (entry_of st name) as [| | | | |fields] eqn:E; try discriminate.
  split.
  - unfold state_failures, entry_of. rewrite dict_get_set_same.
    cbn [entry_failures]. rewrite dict_get_set_same. reflexivity.
  - eexists. apply dict_get_set_same.
Qed.

Lemma entry_of_touch name st : entry_of (touch name st) name = entry_of st name.
Proof. unfold entry_of at 1. rewrite touch_get. reflexivity. Qed.

Lemma state_failures_touch name st :
  state_failures (touch name st) name = state_failures st name.
Proof. unfold state_failures. rewrite entry_of_touch. reflexivity. Qed.

Lemma survives_env w w' : w_env w' = w_env w -> survives w -> survives w'.
Proof. intros E S n k. rewrite E. apply S. Qed.

(** The service was found active: the count is 0 afterwards, and a count
    that was positive is saved. *)
Lemma on_active_run name f w :
  state_failures (self_state w) name = Some f ->
  0 <= f ->
  exists r w',
    on_active name w = (r, w') /\
    w_env w' = w_env w /\
    state_failures (self_state w') name = Some 0 /\
    (survives w -> r = Ret tt) /\
    (0 < f ->
     effects (w_trace w')
     = (effects (w_trace w)
        ++ [EvWrite (Json.dumps (JObj (self_state w')))
              (env_write (w_env w) (w_tick w))])%list).
Proof.
  intros F P. unfold on_active. unfold bind at 1. rewrite log_message_eq.
  set (w0 := logged "INFO" _ w).
  assert (F0 : state_failures (self_state w0) name = Some f) by exact F.
  unfold bind at 1. rewrite (failures_of_touch _ _ _ F0).
  destruct (0 <? f) eqn:L.
  - unfold bind at 1. rewrite (set_failures_eq name 0 f w0 F0).
    set (w1 := with_state _ w0).
    destruct (save_state_run w1) as (r & w' & E & St & Env & _ & _ & Ef & Sv & _).
    exists r, w'. split; [exact E|]. split; [rewrite Env; reflexivity|].
    split; [|split].
    + rewrite St. unfold w1. cbn [self_state with_state].
      apply (with_failures_get name 0 f). exact F.
    + intros S. apply Sv. apply (survives_env w); [reflexivity | exact S].
    + intros _. rewrite Ef, St. unfold w1, w0. cbn [w_trace with_state w_env w_tick].
      rewrite logged_effects. reflexivity.
  - apply Z.ltb_ge in L. assert (f = 0) by lia. subst f.
    eexists. eexists. split; [reflexivity|]. split; [reflexivity|].
    split; [|split].
    + cbn [self_state with_state]. rewrite state_failures_touch. exact F.
    + reflexivity.
    + intros X. lia.
Qed.

(** Every action, known or not: the recovery returns, leaves the table and
    the files alone, and writes nothing. *)
Lemma perform_action_total c service action w :
  exists seg b w',
    perform_action c service action w = (Ret b, w') /\
    same_store w w' /\
    effects (w_trace w') = (effects (w_trace w) ++ seg)%list.
Proof.
  unfold perform_action. destruct (action_command action service) as [cmd|].
  - destruct (attempt_loop_recovery c service action cmd (range (RETRY_COUNT c)) w)
      as (seg & b & w' & R & S & E & _).
    exists seg, b, w'. auto.
  - exists [], false. eexists. unfold bind. rewrite log_message_eq.
    split; [reflexivity|]. split; [apply logged_store|].
    rewrite logged_effects. symmetry. apply List.app_nil_r.
Qed.

(** The escalation never changes the failure count. *)
Lemma escalate_keeps_failures c name action alarm w e f :
  dict_get name (self_state w) = Some e ->
  entry_failures e = Some f ->
  forall r w',
    escalate c name action alarm w = (r, w') ->
    state_failures (self_state w') name = Some f.
Proof.
  intros He Hf r w' R.
  assert (F : state_failures (self_state w) name = Some f).
  { unfold state_failures, entry_of. rewrite He. exact Hf. }
  destruct (entry_last_alert e) as [la|] eqn:Hl.
  - rewrite (escalate_eq _ _ _ _ _ _ _ _ He Hf Hl) in R.
    destruct (alarm && (ALERT_THRESHOLD c <=? f)).
    2:{ inversion R; subst. exact F. }
    destruct (ALERT_RATE_LIMIT c <=? env_clock (w_env w) (w_tick w) - la).
    2:{ inversion R; subst. exact F. }
    destruct (alert_and_record_run c name action (env_clock (w_env w) (w_tick w))
                (clocked w) e f He Hf) as (r0 & w0 & E & [(_ & B & _)|(_ & B & _)]);
      rewrite E in R; inversion R; subst.
    + exact B.
    + rewrite B. exact F.
  - unfold escalate in R. unfold bind at 1 in R.
    destruct alarm.
    2:{ inversion R; subst. exact F. }
    unfold bind at 1 in R. rewrite (failures_of_eq _ _ _ _ He Hf) in R. cbn [ret] in R.
    destruct (ALERT_THRESHOLD c <=? f).
    2:{ inversion R; subst. exact F. }
    unfold bind at 1 in R. rewrite time_time_eq in R.
    unfold bind at 1 in R.
    rewrite (state_entry_eq name e (clocked w)) in R by exact He.
    unfold entry_last_alert in Hl. destruct e as [| | | | |fields]; try discriminate.
    unfold bind at 1 in R. cbn [get_or] in R.
    destruct (dict_get "last_alert" fields) as [v|]; [|discriminate].
    unfold ret at 1 in R. unfold bind at 1 in R. unfold as_number in R.
    rewrite Hl in R. inversion R; subst. exact F.
Qed.

Lemma answer_shift w w' k j cmd :
  w_env w' = w_env w -> w_tick w' = (w_tick w + j)%nat ->
  answer w' k cmd = answer w (j + k) cmd.
Proof.
  intros E T. unfold answer. rewrite E, T. rewrite Nat.add_assoc. reflexivity.
Qed.

Lemma issued_shift w w' k j cmd :
  w_env w' = w_env w -> w_tick w' = (w_tick w + j)%nat ->
  issued w' k cmd = issued w (j + k) cmd.
Proof.
  intros E T. unfold issued. rewrite E, T. rewrite Nat.add_assoc. reflexivity.
Qed.

(** A service that exists and is not masked: after the three probes the
    cycle goes on by what the liveness probe said. *)
Lemma check_service_probed c name action alarm w rc1 out1 err1 rc2 status err2 :
  fst (fst (answer w 0 (cmd_list_unit name))) = 0 ->
  answer w 1 (cmd_is_enabled name) = (rc1, out1, err1) ->
  rc1 = 0 -> Text.contains "masked" out1 = false ->
  answer w 2 (cmd_is_active name) = (rc2, status, err2) ->
  exists wp,
    same_store w wp /\
    w_tick wp = (w_tick w + 3)%nat /\
    effects (w_trace wp)
    = (effects (w_trace w)
       ++ [issued w 0 (cmd_list_unit name); issued w 1 (cmd_is_enabled name);
           issued w 2 (cmd_is_active name)])%list /\
    check_service c name action alarm w
    = if (rc2 =? 0) && Text.contains "active" status
      then on_active name wp
      else on_inactive c name action alarm status wp.
Proof.
  intros Hex Hen Hrc Hm Hac.
  unfold check_service. unfold bind at 1. rewrite log_message_eq.
  set (w0 := logged "INFO" _ w).
  unfold bind at 1. rewrite check_service_exists_eq.
  assert (A0 : answer w0 0 (cmd_list_unit name) = answer w 0 (cmd_list_unit name))
    by reflexivity.
  rewrite A0, Hex, Z.eqb_refl. cbv beta iota delta [negb].
  set (w1 := after_blocking (issued w0 0 (cmd_list_unit name)) w0).
  assert (S1 : same_store w w1).
  { eapply same_store_trans; [apply logged_store | apply after_blocking_store]. }
  assert (T1 : w_tick w1 = (w_tick w + 1)%nat).
  { unfold w1. rewrite after_blocking_tick. unfold w0. cbn. lia. }
  unfold bind at 1. rewrite is_service_masked_eq.
  rewrite (answer_shift w w1 0 1) by (apply S1 || exact T1). cbn [Nat.add].
  rewrite Hen, Hrc, Hm. cbn [orb negb Z.eqb].
  set (w2 := after_blocking (issued w1 0 (cmd_is_enabled name)) w1).
  assert (S2 : same_store w w2).
  { eapply same_store_trans; [exact S1 | apply after_blocking_store]. }
  assert (T2 : w_tick w2 = (w_tick w + 2)%nat).
  { unfold w2. rewrite after_blocking_tick. lia. }
  unfold bind at 1. rewrite run_command_eq.
  set (w3 := after_blocking _ w2).
  assert (A2 : cmd_result 30 (env_proc (w_env w2) (w_tick w2) (cmd_is_active name))
               = (rc2, status, err2)).
  { rewrite <- Hac. unfold answer. destruct S2 as (E2 & _). rewrite E2, T2.
    reflexivity. }
  rewrite A2. cbv beta iota.
  exists w3. split; [|split; [|split]].
  - eapply same_store_trans; [exact S2 | apply after_blocking_store].
  - unfold w3. rewrite after_blocking_tick. lia.
  - assert (I0 : issued w0 0 (cmd_list_unit name) = issued w 0 (cmd_list_unit name))
      by reflexivity.
    assert (I1 : issued w1 0 (cmd_is_enabled name) = issued w 1 (cmd_is_enabled name)).
    { rewrite (issued_shift w w1 0 1) by (apply S1 || exact T1). reflexivity. }
    assert (I2 : EvCmd (cmd_is_active name)
                   (env_proc (w_env w2) (w_tick w2) (cmd_is_active name))
                 = issued w 2 (cmd_is_active name)).
    { unfold issued. destruct S2 as (E2 & _). rewrite E2, T2. reflexivity. }
    assert (F1 : effects (w_trace w1)
                 = (effects (w_trace w) ++ [issued w 0 (cmd_list_unit name)])%list).
    { unfold w1. rewrite after_blocking_effects by reflexivity.
      rewrite I0. unfold w0. rewrite logged_effects. reflexivity. }
    assert (F2 : effects (w_trace w2)
                 = (effects (w_trace w1) ++ [issued w 1 (cmd_is_enabled name)])%list).
    { unfold w2. rewrite after_blocking_effects by reflexivity.
      rewrite I1. reflexivity. }
    unfold w3. rewrite after_blocking_effects by reflexivity.
    rewrite I2, F2, F1. rewrite <- !List.app_assoc. reflexivity.
  - destruct ((rc2 =? 0) && Text.contains "active" status); reflexivity.
Qed.

(** The service was found not active: the count goes up by one and is
    saved; then the recovery runs; a recovery that returns true resets the
    count and saves again; after one that returns false the cycle ends
    with the escalation. *)
Lemma on_inactive_run c name action alarm status f w :
  state_failures (self_state w) name = Some f ->
  survives w ->
  exists w1 seg b w2,
    w_env w1 = w_env w /\
    (exists e, dict_get name (self_state w1) = Some e /\
               entry_failures e = Some (f + 1)) /\
    effects (w_trace w1)
    = (effects (w_trace w)
       ++ [EvWrite (Json.dumps (JObj (self_state w1)))
             (env_write (w_env w) (w_tick w))])%list /\
    (env_write (w_env w) (w_tick w) = WriteDone ->
     w_state_file w1 = Some (Json.dumps (JObj (self_state w1)))) /\
    perform_action c name action w1 = (Ret b, w2) /\
    same_store w1 w2 /\
    effects (w_trace w2) = (effects (w_trace w1) ++ seg)%list /\
    (b = true ->
     exists w' o,
       on_inactive c name action alarm status w = (Ret tt, w') /\
       state_failures (self_state w') name = Some 0 /\
       effects (w_trace w')
       = (effects (w_trace w2)
          ++ [EvWrite (Json.dumps (JObj (self_state w'))) o])%list) /\
    (b = false ->
     exists w3,
       same_store w2 w3 /\ effects (w_trace w3) = effects (w_trace w2) /\
       on_inactive c name action alarm status w
       = escalate c name action alarm w3).
Proof.
  intros F Sv.
  pose (wa := logged "ERROR" ("Service " ++ name ++ " is not active: " ++ status) w).
  pose (wb := with_trace
                (w_trace wa
                 ++ [EvJournal 3 ("Service " ++ name ++ " failed with status: "
                                  ++ status)]) wa).
  assert (Fb : state_failures (self_state wb) name = Some f) by exact F.
  pose (wc := with_state (with_failures name (f + 1) (self_state wb)) wb).
  destruct (save_state_run wc) as (r & w1 & E & St & Env & Lk & Tk & Ef & Rs & Dn).
  assert (Sc : survives wc) by (apply (survives_env w); [reflexivity | exact Sv]).
  rewrite (Rs Sc) in E.
  destruct (with_failures_get name (f + 1) f (self_state w) F) as (G1 & fields & G2).
  assert (St1 : self_state w1 = with_failures name (f + 1) (self_state w)).
  { rewrite St. reflexivity. }
  destruct (perform_action_total c name action w1) as (seg & b & w2 & P & S2 & E2).
  assert (K : on_inactive c name action alarm status w
              = (if b then
                   log_message "SUCCESS" ("Successfully recovered " ++ name) ;;
                   setitem name "failures" (JNum 0) ;;
                   save_state
                 else
                   log_message "CRITICAL"
                     ("Failed to recover " ++ name ++ " after "
                      ++ Text.of_Z (RETRY_COUNT c) ++ " attempts") ;;
                   log_to_journal
                     ("CRITICAL: Service " ++ name ++ " recovery failed") 2 ;;
                   escalate c name action alarm) w2).
  { unfold on_inactive.
    unfold bind at 1. rewrite log_message_eq. fold wa.
    unfold bind at 1.
    change (log_to_journal
              ("Service " ++ name ++ " failed with status: " ++ status) 3 wa)
      with (@Ret unit tt, wb).
    unfold bind at 1. rewrite (failures_of_touch _ _ _ Fb).
    unfold bind at 1. rewrite (set_failures_eq name (f + 1) f wb Fb). fold wc.
    unfold bind at 1. rewrite E.
    unfold bind at 1. rewrite P. reflexivity. }
  exists w1, seg, b, w2.
  split; [rewrite Env; reflexivity|].
  split.
  { exists (JObj fields). rewrite St1. split; [exact G2|].
    unfold state_failures, entry_of in G1. rewrite G2 in G1. exact G1. }
  split.
  { rewrite Ef, St. unfold wc, wb, wa. cbn [w_trace with_state with_trace w_env w_tick].
    rewrite effects_app. cbn [effects filter is_effect]. rewrite List.app_nil_r.
    rewrite logged_effects. reflexivity. }
  split.
  { intros D. rewrite St. apply Dn. exact D. }
  split; [exact P|]. split; [exact S2|]. split; [exact E2|].
  rewrite K. clear K.
  destruct S2 as (Env2 & St2 & Sf2 & Lk2).
  split; intros ->; cbv beta iota.
  - unfold bind at 1. rewrite log_message_eq. set (wd := logged "SUCCESS" _ w2).
    assert (Fd : state_failures (self_state wd) name = Some (f + 1)).
    { unfold wd. cbn [self_state logged with_trace]. rewrite St2, St1. exact G1. }
    assert (Td : touch name (self_state wd) = self_state wd).
    { unfold touch, wd. cbn [self_state logged with_trace].
      rewrite St2, St1, G2. reflexivity. }
    unfold bind at 1.
    pose proof (set_failures_eq name 0 (f + 1) wd Fd) as X. rewrite Td in X.
    replace (with_state (self_state wd) wd) with wd in X by (destruct wd; reflexivity).
    rewrite X. set (we := with_state _ wd).
    destruct (save_state_run we) as (r' & w' & E' & St' & Env' & _ & _ & Ef' & Rs' & _).
    assert (Se : survives we).
    { apply (survives_env w); [|exact Sv]. unfold we, wd. cbn. rewrite Env2, Env.
      reflexivity. }
    rewrite (Rs' Se) in E'. rewrite E'.
    exists w', (env_write (w_env we) (w_tick we)).
    split; [reflexivity|]. split.
    + rewrite St'. unfold we. cbn [self_state with_state].
      apply (with_failures_get name 0 (f + 1)). exact Fd.
    + rewrite Ef', St'. unfold we, wd. cbn [w_trace with_state].
      rewrite logged_effects. reflexivity.
  - unfold bind at 1. rewrite log_message_eq. set (wd := logged "CRITICAL" _ w2).
    unfold bind at 1.
    change (log_to_journal ("CRITICAL: Service " ++ name ++ " recovery failed") 2 wd)
      with (@Ret unit tt,
            with_trace
              (w_trace wd
               ++ [EvJournal 2 ("CRITICAL: Service " ++ name ++ " recovery failed")])
              wd).
    eexists. split; [|split; [|reflexivity]].
    + repeat split; cbn; reflexivity.
    + cbn [w_trace with_trace]. rewrite effects_app. cbn [effects filter is_effect].
      rewrite List.app_nil_r. unfold wd. apply logged_effects.
Qed.

Lemma state_failures_of_entry name st e n :
  dict_get name st = Some e -> entry_failures e = Some n ->
  state_failures st name = Some n.
Proof. intros G F. unfold state_failures, entry_of. rewrite G. exact F. Qed.

(** C3: for a service that exists and is not masked, with [f >= 0]
    failures on record and the process not killed meanwhile.  If the
    liveness probe says active, the count is 0 after the cycle, and a
    count that was positive is saved as the cycle's last act.  If it says
    not active, the count is [f + 1] in the world [w1] in which the
    recovery starts, and the table holding it has been written out before
    the first step of the recovery; if the recovery returns true the cycle
    ends with count 0 and a second write of the table; if it returns false
    the cycle ends with the escalation, which leaves the count at [f + 1]
    however it ends. *)
Theorem failure_counter_cycle :
  forall c name action alarm w f rc1 out1 err1 rc2 status err2,
    fst (fst (answer w 0 (cmd_list_unit name))) = 0 ->
    answer w 1 (cmd_is_enabled name) = (rc1, out1, err1) ->
    rc1 = 0 -> Text.contains "masked" out1 = false ->
    answer w 2 (cmd_is_active name) = (rc2, status, err2) ->
    state_failures (self_state w) name = Some f ->
    0 <= f ->
    survives w ->
    ((rc2 =? 0) && Text.contains "active" status = true ->
     exists w',
       check_service c name action alarm w = (Ret tt, w') /\
       state_failures (self_state w') name = Some 0 /\
       (0 < f ->
        exists o,
          effects (w_trace w')
          = (effects (w_trace w)
             ++ [issued w 0 (cmd_list_unit name); issued w 1 (cmd_is_enabled name);
                 issued w 2 (cmd_is_active name);
                 EvWrite (Json.dumps (JObj (self_state w'))) o])%list)) /\
    ((rc2 =? 0) && Text.contains "active" status = false ->
     exists w1 o1 seg b w2,
       state_failures (self_state w1) name = Some (f + 1) /\
       effects (w_trace w1)
       = (effects (w_trace w)
          ++ [issued w 0 (cmd_list_unit name); issued w 1 (cmd_is_enabled name);
              issued w 2 (cmd_is_active name);
              EvWrite (Json.dumps (JObj (self_state w1))) o1])%list /\
       (o1 = WriteDone ->
        w_state_file w1 = Some (Json.dumps (JObj (self_state w1)))) /\
       perform_action c name action w1 = (Ret b, w2) /\
       effects (w_trace w2) = (effects (w_trace w1) ++ seg)%list /\
       (b = true ->
        exists w' o2,
          check_service c name action alarm w = (Ret tt, w') /\
          state_failures (self_state w') name = Some 0 /\
          effects (w_trace w')
          = (effects (w_trace w2)
             ++ [EvWrite (Json.dumps (JObj (self_state w'))) o2])%list) /\
       (b = false ->
        exists w3,
          self_state w3 = self_state w2 /\
          effects (w_trace w3) = effects (w_trace w2) /\
          check_service c name action alarm w = escalate c name action alarm w3 /\
          forall r w',
            check_service c name action alarm w = (r, w') ->
            state_failures (self_state w') name = Some (f + 1))).
Proof.
  intros c name action alarm w f rc1 out1 err1 rc2 status err2
         Hex Hen Hrc Hm Hac F P Sv.
  destruct (check_service_probed c name action alarm w _ _ _ _ _ _
              Hex Hen Hrc Hm Hac) as (wp & Sp & Tp & Ep & K).
  destruct Sp as (Envp & Stp & Sfp & Lkp).
  assert (Fp : state_failures (self_state wp) name = Some f) by (rewrite Stp; exact F).
  assert (Svp : survives wp) by (apply (survives_env w); assumption).
  split; intros A; rewrite A in K.
  - destruct (on_active_run name f wp Fp P) as (r & w' & R & Env' & Z' & Rs & Ef).
    rewrite (Rs Svp) in R. exists w'. split; [rewrite K; exact R|].
    split; [exact Z'|]. intros L. eexists. rewrite (Ef L), Ep.
    rewrite <- List.app_assoc. reflexivity.
  - destruct (on_inactive_run c name action alarm status f wp Fp Svp)
      as (w1 & seg & b & w2 & Env1 & (e & G & Fe) & E1 & D1 & Pa & S2 & E2 & Bt & Bf).
    exists w1, (env_write (w_env wp) (w_tick wp)), seg, b, w2.
    split; [apply (state_failures_of_entry _ _ e); assumption|].
    split; [rewrite E1, Ep; rewrite <- List.app_assoc; reflexivity|].
    split; [exact D1|]. split; [exact Pa|]. split; [exact E2|].
    split.
    + intros B. destruct (Bt B) as (w' & o & R & Z' & Ef).
      exists w', o. split; [rewrite K; exact R|]. split; assumption.
    + intros B. destruct (Bf B) as (w3 & S3 & E3 & R).
      exists w3. destruct S3 as (Env3 & St3 & _).
      split; [exact St3|]. split; [exact E3|]. split; [rewrite K; exact R|].
      intros r w' Run. rewrite K, R in Run.
      destruct S2 as (_ & St2 & _).
      apply (escalate_keeps_failures c name action alarm w3 e (f + 1)) with (r := r).
      * rewrite St3, St2. exact G.
      * exact Fe.
      * exact Run.
Qed.

(** *** Exit status *)

Lemma init_not_root w :
  env_euid (w_env w) <> 0 -> fst (init w) = Raise (SystemExit 1).
Proof.
  intros H. destruct w as [env tick sf lf tr st run]. cbn [w_env] in H.
  unfold init, os_geteuid. mred.
  apply Z.eqb_neq in H. rewrite H. reflexivity.
Qed.

(** What [acquire_lock] can raise. *)
Lemma acquire_lock_raises fuel :
  forall w e, fst (acquire_lock fuel w) = Raise e -> is_Exception e = true.
Proof.
  induction fuel as [|k IH]; intros w e H.
  - discriminate.
  - destruct (w_lock_file w) as [text|] eqn:L.
    + rewrite (acquire_lock_held _ _ _ L) in H.
      assert (R : forall w0, w_lock_file w0 = Some text ->
                    fst ((lock_remove ;; acquire_lock k) w0) = Raise e ->
                    is_Exception e = true).
      { intros w0 L0 H0. unfold bind in H0. rewrite (lock_remove_eq _ _ L0) in H0.
        destruct (env_io_fails (w_env w0) (w_tick w0)).
        - inversion H0. reflexivity.
        - eapply IH. exact H0. }
      destruct (env_io_fails (w_env w) (S (w_tick w))); [eapply R; [|exact H]; exact L|].
      destruct (Text.to_Z (Text.strip text)) as [pid|]; [|eapply R; [|exact H]; exact L].
      destruct (fits_c_int pid).
      * destruct (env_kill_ok (w_env w) pid); [discriminate|].
        eapply R; [|exact H]. exact L.
      * inversion H. reflexivity.
    + destruct (acquire_lock_free k w L) as [E _]. rewrite E in H.
      destruct w as [env tick sf lf tr st run]. cbn [w_lock_file] in L. subst lf.
      revert H. lred. destruct (env_io_fails env tick); lred.
      * intros H. inversion H. reflexivity.
      * destruct (env_io_fails env (S tick)); lred; intros H; inversion H; reflexivity.
Qed.

(** The clean-up of [run]: the table is written out, the lock file
    removed. *)
Lemma cleanup_run w :
  survives w ->
  exists w',
    cleanup w = (Ret tt, w') /\
    effects (w_trace w')
    = (effects (w_trace w)
       ++ [EvWrite (Json.dumps (JObj (self_state w)))
             (env_write (w_env w) (w_tick w))])%list /\
    (env_io_fails (w_env w) (S (w_tick w)) = false -> w_lock_file w' = None).
Proof.
  intros Sv. unfold cleanup.
  destruct (save_state_run w) as (r & w1 & E & St & Env & Lk & Tk & Ef & Rs & _).
  rewrite (Rs Sv) in E. unfold bind at 1. rewrite E.
  unfold bind at 1. rewrite release_lock_eq. rewrite log_message_eq.
  eexists. split; [reflexivity|]. split.
  - rewrite logged_effects.
    destruct (w_lock_file w1); [destruct (env_io_fails (w_env w1) (w_tick w1))|];
      exact Ef.
  - intros F. unfold logged. cbn [w_lock_file with_trace].
    rewrite Env, Tk, F. destruct (w_lock_file w1) eqn:L1; [reflexivity | exact L1].
Qed.

Lemma exit_status_exception {A} (e : exn) :
  is_Exception e = true -> exit_status (@Raise A e) = Some 1.
Proof. destruct e; try reflexivity. discriminate. Qed.

(** C8, as the code has it: the process exits with status 1 when it is not
    run as root, when the lock is held by a live process, and when
    acquiring the lock raises; once the lock is acquired it exits with
    status 0 both when the loop completes and when an exception escapes
    the loop, which [run] catches and logs; in both cases the table is
    written out and the lock file removed before the exit. *)
Theorem exit_status_spec :
  forall c fuel w,
    (env_euid (w_env w) <> 0 -> exit_status (fst (main c fuel w)) = Some 1) /\
    (forall w0,
        init w = (Ret tt, w0) ->
        (fst (acquire_lock fuel w0) = Ret false ->
         exit_status (fst (main c fuel w)) = Some 1) /\
        (forall e, fst (acquire_lock fuel w0) = Raise e ->
                   exit_status (fst (main c fuel w)) = Some 1) /\
        (forall w1 r w2,
            acquire_lock fuel w0 = (Ret true, w1) ->
            loop_body c fuel w1 = (r, w2) ->
            r = Ret tt \/ (exists e, r = Raise e /\ is_Exception e = true) ->
            survives w2 ->
            exists w',
              main c fuel w = (Ret tt, w') /\
              exit_status (fst (main c fuel w)) = Some 0 /\
              effects (w_trace w')
              = (effects (w_trace w2)
                 ++ [EvWrite (Json.dumps (JObj (self_state w2)))
                       (env_write (w_env w2) (w_tick w2))])%list /\
              (env_io_fails (w_env w2) (S (w_tick w2)) = false ->
               w_lock_file w' = None))).
Proof.
  intros c fuel w. split.
  - intros H. unfold main, bind.
    pose proof (init_not_root w H) as I.
    destruct (init w) as [r w0]. cbn [fst] in I. subst r. reflexivity.
  - intros w0 I.
    assert (Mn : main c fuel w = run c fuel w0).
    { unfold main. unfold bind at 1. rewrite I. reflexivity. }
    rewrite Mn. clear Mn.
    split; [|split].
    + intros A. unfold run. unfold bind at 1.
      destruct (acquire_lock fuel w0) as [r w1]. cbn [fst] in A. subst r.
      reflexivity.
    + intros e A. unfold run. unfold bind at 1.
      pose proof (acquire_lock_raises fuel w0 e A) as X.
      destruct (acquire_lock fuel w0) as [r w1]. cbn [fst] in A. subst r.
      cbn [fst]. apply exit_status_exception. exact X.
    + intros w1 r w2 A L R Sv.
      assert (Rn : run c fuel w0 = try_finally (guarded_loop c fuel) cleanup w1).
      { unfold run. unfold bind at 1. rewrite A. reflexivity. }
      rewrite Rn. clear Rn.
      destruct R as [-> | (e & -> & Ex)].
      * destruct (cleanup_run w2 Sv) as (w' & C & Ef & Lk).
        assert (Fn : try_finally (guarded_loop c fuel) cleanup w1 = (Ret tt, w')).
        { unfold try_finally, guarded_loop, try_except. rewrite L, C. reflexivity. }
        rewrite Fn. exists w'. split; [reflexivity|]. split; [reflexivity|].
        split; assumption.
      * set (w3 := logged "ERROR" ("Traceback: " ++ exn_text e)
                     (logged "ERROR" ("Unexpected error: " ++ exn_text e) w2)).
        assert (Sv3 : survives w3) by (apply (survives_env w2); [reflexivity|exact Sv]).
        destruct (cleanup_run w3 Sv3) as (w' & C & Ef & Lk).
        assert (Fn : try_finally (guarded_loop c fuel) cleanup w1 = (Ret tt, w')).
        { unfold try_finally, guarded_loop, try_except. rewrite L, Ex.
          unfold bind at 1. rewrite !log_message_eq. fold w3. rewrite C.
          reflexivity. }
        rewrite Fn. exists w'. split; [reflexivity|]. split; [reflexivity|].
        split.
        -- rewrite Ef. unfold w3. rewrite !logged_effects. reflexivity.
        -- exact Lk.
Qed.

(** *** Loading *)

Lemma load_state_missing w :
  w_state_file w = None -> load_state w = (Ret tt, w).
Proof.
  intros H. unfold load_state, try_except, state_file_exists, bind, get_world, ret.
  rewrite H. reflexivity.
Qed.

Lemma dict_of_pairs_exn items :
  forall acc e, dict_of_pairs items acc = inl e -> is_Exception e = true.
Proof.
  induction items as [|x items IH]; intros acc e H; [discriminate|].
  cbn [dict_of_pairs] in H.
  repeat match type of H with
         | match ?t with _ => _ end = _ => destruct t
         end;
    try (inversion H; reflexivity); eapply IH; exact H.
Qed.

Lemma defaultdict_of_exn obj e :
  defaultdict_of obj = inl e -> is_Exception e = true.
Proof.
  destruct obj as [| | |s|items|fields]; cbn [defaultdict_of]; intros H;
    try (inversion H; reflexivity).
  - destruct s; inversion H; reflexivity.
  - eapply dict_of_pairs_exn. exact H.
Qed.

(** With a state file in place: what [load_state] makes of its text. *)
Lemma load_state_present w text :
  w_state_file w = Some text ->
  exists w',
    load_state w = (Ret tt, w') /\
    w_env w' = w_env w /\ w_state_file w' = w_state_file w /\
    self_state w'
    = if env_io_fails (w_env w) (w_tick w) then []
      else match Json.loads text with
           | Some obj =>
               match defaultdict_of obj with
               | inr d => d
               | inl _ => []
               end
           | None => []
           end.
Proof.
  intros H. destruct w as [env tick sf lf tr st run]. cbn [w_state_file] in H.
  subst sf. unfold load_state, try_except, state_file_exists, json_load,
    read_state_file, io_fault, lift_sum. mred.
  destruct (env_io_fails env tick); mred.
  - eexists. split; [reflexivity|]. repeat split.
  - destruct (Json.loads text) as [obj|]; mred.
    + destruct (defaultdict_of obj) as [e|d] eqn:D; mred.
      * rewrite (defaultdict_of_exn _ _ D).
        eexists. split; [reflexivity|]. repeat split.
      * eexists. split; [reflexivity|]. repeat split.
    + eexists. split; [reflexivity|]. repeat split.
Qed.

(** C7, as the code has it: [save_state] rewrites the state file in place.
    When nothing goes wrong the file ends up holding the full text of the
    table.  When the file cannot be opened it is left as it was; when a
    write fails the file is left holding the part of the new text written
    so far; in both cases the error is logged and [save_state] returns
    normally.  When the process dies while writing, the file is left
    holding the part written so far.  The table in memory is never
    changed. *)
Theorem save_state_in_place :
  forall w,
    self_state (snd (save_state w)) = self_state w /\
    (env_write (w_env w) (w_tick w) = WriteDone ->
     fst (save_state w) = Ret tt /\
     w_state_file (snd (save_state w)) = Some (Json.dumps (JObj (self_state w)))) /\
    (env_write (w_env w) (w_tick w) = OpenRefused ->
     fst (save_state w) = Ret tt /\
     w_state_file (snd (save_state w)) = w_state_file w /\
     exists msg, last (w_trace (snd (save_state w))) (EvSleep 0) = EvLog "ERROR" msg) /\
    (forall k,
        env_write (w_env w) (w_tick w) = WriteError k ->
        fst (save_state w) = Ret tt /\
        w_state_file (snd (save_state w))
        = Some (String.substring 0 k (Json.dumps (JObj (self_state w)))) /\
        exists msg, last (w_trace (snd (save_state w))) (EvSleep 0) = EvLog "ERROR" msg) /\
    (forall k,
        env_write (w_env w) (w_tick w) = WriteCrash k ->
        fst (save_state w) = Halt Crashed /\
        w_state_file (snd (save_state w))
        = Some (String.substring 0 k (Json.dumps (JObj (self_state w))))).
Proof.
  intros w. pose proof (save_state_eq w) as E. cbv zeta in E.
  split; [|split; [|split; [|split]]].
  - rewrite E. destruct (env_write (w_env w) (w_tick w)); reflexivity.
  - intros O. rewrite E, O. split; reflexivity.
  - intros O. rewrite E, O. split; [reflexivity|]. split; [reflexivity|].
    eexists. unfold logged. cbn [snd w_trace with_trace]. apply last_last.
  - intros k O. rewrite E, O. split; [reflexivity|]. split; [reflexivity|].
    eexists. unfold logged. cbn [snd w_trace with_trace]. apply last_last.
  - intros k O. rewrite E, O. split; reflexivity.
Qed.

(** *** The codec: numbers *)

Lemma take_digits_stop rest :
  ends_number rest = true -> Text.take_digits rest = (Decimal.Nil, rest).
Proof.
  destruct rest as [|c rest]; [reflexivity|].
  unfold ends_number. intros H. apply andb_true_iff in H. destruct H as [H _].
  destruct c as [[] [] [] [] [] [] [] []]; try discriminate H; reflexivity.
Qed.

Lemma take_digits_uint d rest :
  ends_number rest = true ->
  Text.take_digits (NilEmpty.string_of_uint d ++ rest) = (d, rest).
Proof.
  intros H. induction d; cbn [NilEmpty.string_of_uint append];
    try (cbn [Text.take_digits]; cbn; rewrite IHd; reflexivity).
  apply take_digits_stop. exact H.
Qed.

Lemma unorm_head_zero x y :
  Decimal.unorm x = Decimal.D0 y -> y = Decimal.Nil.
Proof.
  induction x; cbn; intros H; try discriminate; try (inversion H; reflexivity).
  rewrite DecimalFacts.unorm_D0 in H. apply IHx. exact H.
Qed.

(** The digits of a positive number: some, and no leading zero. *)
Lemma to_uint_shape p :
  match Pos.to_uint p with
  | Decimal.Nil | Decimal.D0 _ => False
  | _ => True
  end.
Proof.
  pose proof (DecimalPos.Unsigned.to_of (Pos.to_uint p)) as H.
  rewrite DecimalPos.Unsigned.of_to in H. cbn [N.to_uint] in H.
  pose proof (DecimalPos.Unsigned.to_uint_nonnil p) as N.
  pose proof (DecimalPos.Unsigned.to_uint_nonzero p) as Z.
  destruct (Pos.to_uint p) eqn:E; try exact I.
  - apply N. reflexivity.
  - symmetry in H. apply unorm_head_zero in H. subst. apply Z. reflexivity.
Qed.

Lemma ends_number_float rest :
  ends_number rest = true -> Json.starts_float rest = false.
Proof.
  destruct rest as [|c rest]; [reflexivity|]. unfold ends_number.
  intros H. apply andb_true_iff in H. destruct H as [_ H].
  apply negb_true_iff in H. exact H.
Qed.

Lemma number_pos p rest neg :
  ends_number rest = true ->
  (let unsigned (neg : bool) (t : string) :=
     match Text.take_digits t with
     | (Decimal.Nil, _) => None
     | (Decimal.D0 Decimal.Nil, r) =>
         if Json.starts_float r then None else Some (JNum 0, r)
     | (Decimal.D0 _, _) => None
     | (d, r) =>
         if Json.starts_float r then None
         else let n := Z.of_N (N.of_uint d) in
              Some (JNum (if neg then - n else n), r)
     end in
   unsigned neg (NilEmpty.string_of_uint (Pos.to_uint p) ++ rest))
  = Some (JNum (if neg then Z.neg p else Z.pos p), rest).
Proof.
  intros H. cbv beta zeta. rewrite (take_digits_uint _ _ H).
  pose proof (to_uint_shape p) as S.
  pose proof (DecimalPos.Unsigned.of_to p) as O.
  unfold N.of_uint.
  destruct (Pos.to_uint p) eqn:E; try contradiction;
    rewrite (ends_number_float _ H); rewrite O; destruct neg; reflexivity.
Qed.

(** An integer is read back from its decimal text. *)
Lemma number_of_Z z rest :
  ends_number rest = true ->
  Json.number (Text.of_Z z ++ rest) = Some (JNum z, rest).
Proof.
  intros H. unfold Text.of_Z. destruct z as [|p|p]; cbn [Z.to_int].
  - cbn. rewrite (take_digits_stop _ H), (ends_number_float _ H). reflexivity.
  - unfold NilZero.string_of_int, NilZero.string_of_uint.
    pose proof (to_uint_shape p) as S.
    pose proof (number_pos p rest false H) as N. cbv beta zeta in N.
    unfold Json.number.
    destruct (Pos.to_uint p) eqn:E; try contradiction;
      cbn [NilEmpty.string_of_uint append] in *; exact N.
  - unfold NilZero.string_of_int, NilZero.string_of_uint.
    pose proof (to_uint_shape p) as S.
    pose proof (number_pos p rest true H) as N. cbv beta zeta in N.
    unfold Json.number.
    destruct (Pos.to_uint p) eqn:E; try contradiction;
      cbn [NilEmpty.string_of_uint append] in *; exact N.
Qed.

(** *** The codec: strings *)

Lemma append_assoc (a b c : string) : ((a ++ b) ++ c = a ++ (b ++ c))%string.
Proof. induction a; cbn; [reflexivity | rewrite IHa; reflexivity]. Qed.

Lemma append_length (a b : string) :
  String.length (a ++ b) = (String.length a + String.length b)%nat.
Proof. induction a; cbn; [reflexivity | rewrite IHa; reflexivity]. Qed.

Lemma string_body_escape_char c tail :
  Json.string_body (Json.escape_char c ++ tail)
  = Json.cons_char c (Json.string_body tail).
Proof. destruct c as [[] [] [] [] [] [] [] []]; reflexivity. Qed.

(** A string is read back from its quoted text. *)
Lemma string_body_escape s rest :
  Json.string_body (Json.escape s ++ String Text.dquote rest) = Some (s, rest).
Proof.
  induction s as [|c s IH]; [reflexivity|].
  cbn [Json.escape]. rewrite append_assoc, string_body_escape_char, IH.
  reflexivity.
Qed.

(** *** The codec: objects *)

Lemma skip_ws_stop c s : Json.is_ws c = false -> Json.skip_ws (String c s) = String c s.
Proof. intros H. cbn. rewrite H. reflexivity. Qed.

Lemma skip_ws_spaces n s : Json.skip_ws (Json.spaces n ++ s) = Json.skip_ws s.
Proof. induction n; [reflexivity | exact IHn]. Qed.

Lemma skip_ws_nl lvl s : Json.skip_ws (Json.nl lvl ++ s) = Json.skip_ws s.
Proof. unfold Json.nl. cbn [append]. cbn. apply skip_ws_spaces. Qed.

Lemma quote_append k s :
  (Json.quote k ++ s = String Text.dquote (Json.escape k ++ String Text.dquote s))%string.
Proof. unfold Json.quote. cbn [append]. rewrite append_assoc. reflexivity. Qed.

Lemma dump_members lvl k v fs :
  Json.dump lvl (JObj ((k, v) :: fs))
  = ("{" ++ Json.nl (S lvl) ++ Json.quote k ++ ": " ++ Json.dump (S lvl) v
     ++ members_text lvl fs ++ Json.nl lvl ++ "}")%string.
Proof.
  cbn [Json.dump]. do 5 f_equal.
  apply (f_equal (fun s => (s ++ Json.nl lvl ++ "}")%string)).
  induction fs as [|[k' v'] fs IH]; [reflexivity|].
  cbn [members_text]. rewrite <- IH. reflexivity.
Qed.

Lemma of_Z_head z :
  exists c s, Text.of_Z z = String c s /\
              (Text.is_digit c || Ascii.eqb c "-")%bool = true.
Proof.
  unfold Text.of_Z. destruct z as [|p|p]; cbn [Z.to_int].
  - eexists. eexists. split; reflexivity.
  - unfold NilZero.string_of_int, NilZero.string_of_uint.
    pose proof (to_uint_shape p) as S.
    destruct (Pos.to_uint p); try contradiction;
      eexists; eexists; split; reflexivity.
  - eexists. eexists. split; reflexivity.
Qed.

Lemma value_number f c s :
  (Text.is_digit c || Ascii.eqb c "-")%bool = true ->
  Json.value (S f) (String c s) = Json.number (String c s).
Proof.
  destruct c as [[] [] [] [] [] [] [] []]; intros H; try discriminate H; reflexivity.
Qed.

Lemma reads_back_num lvl z : reads_back lvl (JNum z).
Proof.
  intros f rest E L. cbn [Json.dump] in *.
  destruct (of_Z_head z) as (c & s & Hz & Hc).
  destruct f as [|f]; [rewrite Hz in L; cbn in L; lia|].
  rewrite <- (number_of_Z z rest E). rewrite Hz. cbn [append].
  apply value_number. exact Hc.
Qed.

(** Every text [dump] produces starts with a character that is no white
    space. *)
Lemma dump_head lvl v :
  exists c s, Json.dump lvl v = String c s /\ Json.is_ws c = false.
Proof.
  destruct v as [|[]|z|s|[|x xs]|[|[k v] fs]];
    try (eexists; eexists; split; reflexivity).
  cbn [Json.dump]. destruct (of_Z_head z) as (c & s & Hz & Hc).
  exists c, s. split; [exact Hz|].
  destruct c as [[] [] [] [] [] [] [] []]; try discriminate Hc; reflexivity.
Qed.

Lemma skip_ws_dump lvl v s :
  Json.skip_ws (Json.dump lvl v ++ s) = (Json.dump lvl v ++ s)%string.
Proof.
  destruct (dump_head lvl v) as (c & t & -> & H). cbn [append].
  apply skip_ws_stop. exact H.
Qed.

Lemma ends_number_members lvl fs rest :
  ends_number (members_text lvl fs ++ Json.nl lvl ++ "}" ++ rest) = true.
Proof. destruct fs as [|[k v] fs]; reflexivity. Qed.

Lemma quote_length k s :
  String.length (Json.quote k ++ s)
  = S (S (String.length (Json.escape k) + String.length s)).
Proof.
  rewrite quote_append. cbn [String.length]. rewrite append_length.
  cbn [String.length]. lia.
Qed.

(** One member: the key, the colon, then the value and what follows it. *)
Lemma members_step f k tail acc :
  Json.members (S f) (Json.quote k ++ ": " ++ tail) acc
  = match Json.value f (Json.skip_ws tail) with
    | Some (v, r3) =>
        match Json.skip_ws r3 with
        | String d r4 =>
            if Ascii.eqb d "}" then Some (JObj (dict_set k v acc), r4)
            else if Ascii.eqb d "," then
                   Json.members f (Json.skip_ws r4) (dict_set k v acc)
                 else None
        | EmptyString => None
        end
    | None => None
    end.
Proof.
  rewrite quote_append. cbn [Json.members]. rewrite Ascii.eqb_refl.
  rewrite string_body_escape. reflexivity.
Qed.

Lemma members_text_cons lvl k v fs s :
  (members_text lvl ((k, v) :: fs) ++ s
   = String "," (Json.nl (S lvl)
                 ++ Json.quote k ++ ": " ++ Json.dump (S lvl) v
                 ++ members_text lvl fs ++ s))%string.
Proof.
  cbn [members_text]. rewrite !append_assoc. reflexivity.
Qed.

Lemma skip_ws_quote k s :
  Json.skip_ws (Json.quote k ++ s) = (Json.quote k ++ s)%string.
Proof. rewrite quote_append. apply skip_ws_stop. reflexivity. Qed.

(** The members of an object are read back, in order, given that their
    values are. *)
Lemma members_read_back lvl fs :
  Forall (fun kv => reads_back (S lvl) (snd kv)) fs ->
  forall k v acc f rest,
    reads_back (S lvl) v ->
    (String.length (Json.quote k ++ ": " ++ Json.dump (S lvl) v
                    ++ members_text lvl fs ++ Json.nl lvl ++ "}") <= f)%nat ->
    Json.members f
      (Json.quote k ++ ": " ++ Json.dump (S lvl) v
       ++ members_text lvl fs ++ Json.nl lvl ++ "}" ++ rest) acc
    = Some (JObj (store_all ((k, v) :: fs) acc), rest).
Proof.
  induction 1 as [|[k2 v2] fs Hv2 Hfs IH]; intros k v acc f rest Hv L;
    rewrite quote_length in L; rewrite !append_length in L;
    cbn [String.length] in L;
    (destruct f as [|f]; [lia|]);
    rewrite members_step, skip_ws_dump.
  - rewrite (Hv f (members_text lvl [] ++ Json.nl lvl ++ "}" ++ rest)%string);
      [|apply ends_number_members|lia].
    cbn [members_text append]. rewrite skip_ws_nl. reflexivity.
  - rewrite (Hv f (members_text lvl ((k2, v2) :: fs) ++ Json.nl lvl ++ "}" ++ rest)%string);
      [|apply ends_number_members|lia].
    rewrite members_text_cons. rewrite skip_ws_stop by reflexivity.
    cbv beta iota.
    change (Ascii.eqb "," "}") with false. change (Ascii.eqb "," ",") with true.
    cbv beta iota.
    rewrite skip_ws_nl, skip_ws_quote.
    cbn [snd] in Hv2.
    rewrite (IH k2 v2 (dict_set k v acc) f rest Hv2); [reflexivity|].
    rewrite !append_length. cbn [String.length].
    cbn [members_text] in L. rewrite !append_length in L.
    cbn [String.length] in L. lia.
Qed.

Lemma dict_set_fresh k v acc :
  ~ In k (keys acc) -> dict_set k v acc = (acc ++ [(k, v)])%list.
Proof.
  induction acc as [|[k' v'] acc IH]; intros H; [reflexivity|].
  cbn [dict_set]. destruct (String.eqb k k') eqn:E.
  - apply String.eqb_eq in E. subst. exfalso. apply H. left. reflexivity.
  - cbn [app]. rewrite IH; [reflexivity|]. intros I. apply H. right. exact I.
Qed.

Lemma store_all_nodup l :
  forall acc, NoDup (keys acc ++ keys l) -> store_all l acc = (acc ++ l)%list.
Proof.
  induction l as [|[k v] l IH]; intros acc H.
  - symmetry. apply List.app_nil_r.
  - unfold store_all. cbn [fold_left fst snd]. fold (store_all l (dict_set k v acc)).
    assert (F : ~ In k (keys acc)).
    { cbn [keys map fst] in H. apply NoDup_remove_2 in H.
      intros I. apply H. apply in_or_app. left. exact I. }
    rewrite (dict_set_fresh k v acc F). rewrite IH.
    + rewrite <- List.app_assoc. reflexivity.
    + unfold keys in *. rewrite map_app. cbn [map fst].
      rewrite <- List.app_assoc. exact H.
Qed.

Lemma value_object f lvl k s :
  Json.value (S f) ("{" ++ Json.nl lvl ++ Json.quote k ++ s)
  = Json.members f (Json.quote k ++ s) [].
Proof.
  cbn [append Json.value]. change (Ascii.eqb "{" "{") with true. cbv beta iota.
  rewrite skip_ws_nl, skip_ws_quote. rewrite quote_append. reflexivity.
Qed.

(** An object is read back, given that the values of its members are and
    that its keys are distinct. *)
Lemma reads_back_obj lvl fields :
  NoDup (keys fields) ->
  Forall (fun kv => reads_back (S lvl) (snd kv)) fields ->
  reads_back lvl (JObj fields).
Proof.
  intros N F f rest E L.
  destruct fields as [|[k v] fs].
  - cbn [Json.dump] in *. cbn [String.length] in L.
    destruct f as [|f]; [lia|]. reflexivity.
  - rewrite dump_members in *. inversion F as [|x l Hv Hfs]; subst.
    cbn [snd] in Hv.
    cbn [append String.length] in L. destruct f as [|f]; [lia|].
    apply le_S_n in L. rewrite append_length in L.
    rewrite !append_assoc. rewrite value_object.
    rewrite (members_read_back lvl fs Hfs k v [] f rest Hv).
    + rewrite store_all_nodup; [reflexivity | exact N].
    + match goal with
      | |- (?a <= f)%nat =>
          change (String.length (Json.nl (S lvl)) + a <= f)%nat in L
      end.
      lia.
Qed.


Lemma append_nil_r (s : string) : (s ++ "")%string = s.
Proof. induction s; cbn; [reflexivity | rewrite IHs; reflexivity]. Qed.





(** ** Sample runs *)

(** A disabled unit: [is-enabled] prints "disabled" and exits with 1; the
    cycle stops after the two probes. *)
Lemma masked_or_disabled_skipped_witness :
  fst (is_service_masked "db" (with_tick 1 Sample.w_disabled)) = Ret true /\
  exists w',
    check_service Sample.config "db" "restart" true Sample.w_disabled = (Ret tt, w') /\
    same_store Sample.w_disabled w' /\
    effects (w_trace w')
    = [EvCmd (cmd_list_unit "db") (Completed 0 "" "");
       EvCmd (cmd_is_enabled "db") (Completed 1 "disabled" "")].
Proof.
  destruct (masked_or_disabled_skipped Sample.config "db" "restart" true
              Sample.w_disabled 1 "disabled" "" eq_refl eq_refl
              (or_introl (fun H : 1 = 0 => Z.neq_succ_diag_l 0 H)))
    as (Hm & w' & Hrun & Hstore & Heff).
  split.
  - apply Hm. reflexivity.
  - exists w'. split; [exact Hrun|]. split; [exact Hstore|]. exact Heff.
Defined.


(** In the sample worlds whose writes go through, the process is never
    killed while writing. *)
Lemma survives_sample proc mail st lock table :
  survives (Sample.world_with (Sample.env_with proc WriteDone mail) st lock table).
Proof. intros n k. discriminate. Qed.

(** A service found down with nothing on record: the count is 1 when the
    recovery starts, and 1 or 0 after the cycle as the recovery fails or not. *)
Lemma failure_counter_cycle_witness :
  exists w1 b w2 w',
    state_failures (self_state w1) "db" = Some 1 /\
    perform_action Sample.config "db" "restart" w1 = (Ret b, w2) /\
    check_service Sample.config "db" "restart" true Sample.w_down = (Ret tt, w') /\
    state_failures (self_state w') "db" = Some (if b then 0 else 1).
Proof.
  destruct (failure_counter_cycle Sample.config "db" "restart" true Sample.w_down
              0 0 "enabled" "" 3 "inactive" ""
              eq_refl eq_refl eq_refl eq_refl eq_refl eq_refl (Z.le_refl 0)
              (survives_sample _ _ _ _ _))
    as (_ & Hdown).
  destruct (Hdown eq_refl)
    as (w1 & o1 & seg & b & w2 & Hf & _ & _ & Hrun & _ & Hok & Hko).
  exists w1, b, w2.
  destruct b.
  - destruct (Hok eq_refl) as (w' & o2 & Hc & Hz & _).
    exists w'. repeat split; assumption.
  - destruct (Hko eq_refl) as (w3 & _ & _ & _ & Hlast).
    exists (snd (check_service Sample.config "db" "restart" true Sample.w_down)).
    split; [exact Hf|]. split; [exact Hrun|]. split.
    + vm_compute. reflexivity.
    + apply (Hlast (fst (check_service Sample.config "db" "restart" true Sample.w_down))).
      apply surjective_pairing.
Defined.

(** Ten failures, no alert so far, the clock at 5000 with a limit of 3600:
    the alert path is taken. *)
Lemma escalation_decision_witness :
  shouldAlert Sample.config 10 0 true 5000 = true /\
  escalate Sample.config "db" "restart" true Sample.w_mail_fails
  = alert_and_record Sample.config "db" "restart" 5000 (clocked Sample.w_mail_fails).
Proof.
  destruct (escalation_decision Sample.config "db" "restart" true Sample.w_mail_fails
              (Sample.entry 10 0) 10 0 eq_refl eq_refl eq_refl)
    as (_ & Hpath & _).
  split; [reflexivity|]. apply Hpath. reflexivity.
Defined.

(** The mailer exits with status 1 and the entry is stamped all the same. *)
Lemma alert_stamps_last_alert_witness :
  state_last_alert
    (self_state (snd (escalate Sample.config "db" "restart" true Sample.w_mail_fails)))
    "db" = Some 5000 /\
  state_failures
    (self_state (snd (escalate Sample.config "db" "restart" true Sample.w_mail_fails)))
    "db" = Some 10.
Proof.
  apply (alert_stamps_last_alert Sample.config "db" "restart" true Sample.w_mail_fails
           (Sample.entry 10 0) 10 0
           (fst (escalate Sample.config "db" "restart" true Sample.w_mail_fails))
           (snd (escalate Sample.config "db" "restart" true Sample.w_mail_fails))
           eq_refl eq_refl eq_refl (surjective_pairing _)).
  vm_compute. discriminate.
Defined.

(** A failed send closes the rate-limit window: with ten failures on record
    and a mailer that exits with status 1, the escalation logs the failure
    and still moves [last_alert] from 0 to the current time 5000, so that a
    second later the alert gate says no. *)
Lemma failed_alert_stamps_last_alert :
  let run := escalate Sample.config "db" "restart" true Sample.w_mail_fails in
  fst run = Ret tt /\
  (exists subject body,
      mails (w_trace (snd run)) = [EvMail subject body (MailExit 1)]) /\
  In (EvLog "ERROR" "Failed to send alert for db") (w_trace (snd run)) /\
  state_last_alert (self_state Sample.w_mail_fails) "db" = Some 0 /\
  state_last_alert (self_state (snd run)) "db" = Some 5000 /\
  shouldAlert Sample.config 10 5000 true 5001 = false.
Proof.
  vm_compute.
  split; [reflexivity|]. split; [do 2 eexists; reflexivity|].
  split; [|repeat split].
  repeat (first [left; reflexivity | right]).
Qed.

(** A crash ten characters into the write leaves a truncated state file in
    place of the old one; the text does not parse, and the next start begins
    from the empty table: neither the old count nor the new one is read. *)
Lemma crash_during_save_loses_state :
  fst (save_state Sample.w_crash) = Halt Crashed /\
  w_state_file Sample.w_crash = Some (Json.dumps (JObj [("db", Sample.entry 3 0)])) /\
  w_state_file (snd (save_state Sample.w_crash))
  = Some (String.substring 0 10 (Json.dumps (JObj [("db", Sample.entry 4 0)]))) /\
  Json.loads (String.substring 0 10 (Json.dumps (JObj [("db", Sample.entry 4 0)]))) = None /\
  fst (load_state Sample.w_restart) = Ret tt /\
  self_state (snd (load_state Sample.w_restart)) = [].
Proof. vm_compute. repeat split. Qed.

(** An exception that escapes the loop (here the [TypeError] of indexing an
    entry that is a number) is caught and logged by [run], and the process
    exits with status 0. *)
Lemma exception_in_loop_exits_0 :
  let run := main Sample.config 1 Sample.w_bad_entry in
  env_euid (w_env Sample.w_bad_entry) = 0 /\
  exit_status (fst run) = Some 0 /\
  In (EvLog "ERROR" "Unexpected error: TypeError") (w_trace (snd run)).
Proof.
  vm_compute. split; [reflexivity|]. split; [reflexivity|].
  repeat (first [left; reflexivity | right]).
Qed.

(** The lock file holds the pid of another live process (4242, our own is
    100): acquiring fails and leaves the file alone, yet releasing removes
    it. *)
Lemma release_removes_foreign_lock :
  w_lock_file Sample.w_locked = Some "4242" /\
  env_pid (w_env Sample.w_locked) = 100 /\
  env_kill_ok (w_env Sample.w_locked) 4242 = true /\
  fst (acquire_lock 2 Sample.w_locked) = Ret false /\
  w_lock_file (snd (acquire_lock 2 Sample.w_locked)) = Some "4242" /\
  fst (release_lock Sample.w_locked) = Ret tt /\
  w_lock_file (snd (release_lock Sample.w_locked)) = None.
Proof. vm_compute. repeat split. Qed.

(** * Further properties *)

(** *** Services that do not exist *)

Lemma cmd_result_not_completed t o :
  o = ProcTimeout \/ (exists msg, o = ProcError msg) ->
  fst (fst (cmd_result t o)) = -1.
Proof. intros [-> | (msg & ->)]; reflexivity. Qed.

(** X1: a service whose existence check does not exit with status 0 (the unit
    is not listed, or the command timed out or could not be run, which
    [run_command] reports as status -1) is skipped with a warning: the
    check is the only command run, and the table, the state file and the
    lock file are as before. *)
Theorem missing_service_skipped :
  forall c name action alarm w,
    fst (fst (answer w 0 (cmd_list_unit name))) <> 0 ->
    exists w',
      check_service c name action alarm w = (Ret tt, w') /\
      same_store w w' /\
      effects (w_trace w')
      = (effects (w_trace w) ++ [issued w 0 (cmd_list_unit name)])%list /\
      last (w_trace w') (EvSleep 0)
      = EvLog "WARNING" ("Service " ++ name ++ " does not exist, skipping").
Proof.
  intros c name action alarm w Hrc.
  unfold check_service, bind.
  rewrite log_message_eq, check_service_exists_eq.
  set (w1 := logged "INFO" ("Checking service: " ++ name) w).
  assert (E1 : answer w1 0 (cmd_list_unit name) = answer w 0 (cmd_list_unit name))
    by reflexivity.
  rewrite E1. apply Z.eqb_neq in Hrc. rewrite Hrc.
  cbv beta iota delta [negb]. rewrite log_message_eq.
  eexists. split; [reflexivity|]. split; [|split].
  - eapply same_store_trans; [|apply logged_store].
    eapply same_store_trans; [|apply after_blocking_store].
    apply logged_store.
  - rewrite logged_effects, after_blocking_effects by reflexivity.
    unfold w1. rewrite logged_effects. reflexivity.
  - unfold logged. cbn [w_trace with_trace]. apply last_last.
Qed.

Lemma missing_service_skipped_witness :
  exists w',
    check_service Sample.config "db" "restart" true
      (Sample.world_with
         (Sample.env_with (fun _ _ => ProcTimeout) WriteDone (MailExit 0))
         None None [])
    = (Ret tt, w') /\
    self_state w' = [] /\
    effects (w_trace w') = [EvCmd (cmd_list_unit "db") ProcTimeout].
Proof.
  assert (N : -1 <> 0) by discriminate.
  destruct (missing_service_skipped Sample.config "db" "restart" true
              (Sample.world_with
                 (Sample.env_with (fun _ _ => ProcTimeout) WriteDone (MailExit 0))
                 None None [])
              N)
    as (w' & Hrun & (_ & Hst & _) & Heff & _).
  exists w'. split; [exact Hrun|]. split; [exact Hst | exact Heff].
Defined.

(** *** Actions *)

(** X2: the command of an action is [systemctl], the action and the service,
    for the six actions the program knows and for no other; on any other
    action [perform_action] logs an error and returns false without
    running a command. *)
Theorem unknown_action_gives_up :
  forall c service action w,
    (forall cmd,
        action_command action service = Some cmd <->
        In action known_actions /\
        cmd = "systemctl " ++ action ++ " " ++ service) /\
    (~ In action known_actions ->
     perform_action c service action w
     = (Ret false,
        logged "ERROR"
          ("Unknown action: " ++ action ++ " for service " ++ service) w)).
Proof.
  intros c service action w.
  assert (K : forall cmd,
             action_command action service = Some cmd <->
             In action known_actions /\
             cmd = "systemctl " ++ action ++ " " ++ service).
  { intros cmd. unfold action_command, known_actions.
    repeat match goal with
           | |- context [String.eqb action ?s] =>
               destruct (String.eqb_spec action s) as [->|?]
           end;
      split;
      try (intros H; inversion H; subst; clear H; split;
           [cbn [In]; tauto | reflexivity]);
      try (intros [_ ->]; reflexivity);
      try discriminate.
    intros [H _]. cbn [In] in H.
    repeat match type of H with
           | _ \/ _ => destruct H as [H|H]
           end;
      try contradiction; symmetry in H; contradiction. }
  split; [exact K|].
  intros N. unfold perform_action.
  destruct (action_command action service) as [cmd|] eqn:E.
  - exfalso. apply N. apply (K cmd). reflexivity.
  - reflexivity.
Qed.

(** *** The substring test *)

Lemma prefix_spec (a b : string) :
  String.prefix a b = true <-> exists post, b = a ++ post.
Proof.
  revert b. induction a as [|c a IH]; intros b.
  - split; [intros _; exists b; reflexivity | intros _; destruct b; reflexivity].
  - destruct b as [|d b]; cbn [String.prefix].
    + split; [discriminate | intros (post & H); discriminate H].
    + destruct (Ascii.ascii_dec c d) as [->|N].
      * rewrite IH. split; intros (post & H); exists post.
        -- cbn. rewrite H. reflexivity.
        -- cbn in H. inversion H. reflexivity.
      * split; [discriminate|]. intros (post & H). cbn in H. congruence.
Qed.

(** [needle in hay] holds exactly when [hay] has [needle] somewhere in
    it. *)
Lemma contains_spec (needle hay : string) :
  Text.contains needle hay = true <->
  exists pre post, hay = pre ++ needle ++ post.
Proof.
  induction hay as [|c hay IH]; cbn [Text.contains].
  - rewrite orb_false_r, prefix_spec. split.
    + intros (post & H). exists EmptyString, post. exact H.
    + intros (pre & post & H). destruct pre; [exists post; exact H|discriminate H].
  - rewrite orb_true_iff, prefix_spec, IH. split.
    + intros [(post & H) | (pre & post & H)].
      * exists EmptyString, post. exact H.
      * exists (String c pre), post. cbn. rewrite H. reflexivity.
    + intros (pre & post & H). destruct pre as [|d pre].
      * left. exists post. exact H.
      * right. cbn in H. inversion H. exists pre, post. reflexivity.
Qed.

(** *** A healthy service *)

Lemma on_active_idle name f w :
  state_failures (self_state w) name = Some f ->
  f <= 0 ->
  on_active name w
  = (Ret tt,
     with_state (touch name (self_state w))
       (logged "INFO" ("Service " ++ name ++ " is active") w)).
Proof.
  intros F P. unfold on_active. unfold bind at 1. rewrite log_message_eq.
  set (w0 := logged "INFO" _ w).
  assert (F0 : state_failures (self_state w0) name = Some f) by exact F.
  unfold bind at 1. rewrite (failures_of_touch _ _ _ F0).
  apply Z.ltb_ge in P. rewrite P. reflexivity.
Qed.

(** X3: a service that exists, is not masked and whose liveness probe exits
    with status 0 and prints a text with "active" anywhere in it (so
    "inactive" with status 0 passes as well) is taken as healthy.  With no
    failure on record the cycle runs the three probes and nothing else: no
    recovery command, no write of the state file; the table gains the
    service's default entry if it had none, and is otherwise as before. *)
Theorem healthy_service_no_write :
  forall c name action alarm w rc1 out1 err1 pre post err2 f,
    fst (fst (answer w 0 (cmd_list_unit name))) = 0 ->
    answer w 1 (cmd_is_enabled name) = (rc1, out1, err1) ->
    rc1 = 0 -> Text.contains "masked" out1 = false ->
    answer w 2 (cmd_is_active name) = (0, pre ++ "active" ++ post, err2) ->
    state_failures (self_state w) name = Some f ->
    f <= 0 ->
    exists w',
      check_service c name action alarm w = (Ret tt, w') /\
      self_state w' = touch name (self_state w) /\
      w_state_file w' = w_state_file w /\
      w_lock_file w' = w_lock_file w /\
      effects (w_trace w')
      = (effects (w_trace w)
         ++ [issued w 0 (cmd_list_unit name); issued w 1 (cmd_is_enabled name);
             issued w 2 (cmd_is_active name)])%list.
Proof.
  intros c name action alarm w rc1 out1 err1 pre post err2 f
         Hex Hen Hrc Hm Hac F P.
  destruct (check_service_probed c name action alarm w _ _ _ _ _ _
              Hex Hen Hrc Hm Hac) as (wp & (Envp & Stp & Sfp & Lkp) & _ & Ep & K).
  assert (A : Text.contains "active" (pre ++ "active" ++ post) = true).
  { apply contains_spec. exists pre, post. reflexivity. }
  rewrite A in K. cbn [Z.eqb andb] in K.
  rewrite (on_active_idle name f wp) in K by (try rewrite Stp; assumption).
  eexists. split; [exact K|].
  cbn [self_state with_state w_state_file w_lock_file w_trace logged with_trace].
  rewrite Stp. split; [reflexivity|]. split; [exact Sfp|]. split; [exact Lkp|].
  rewrite effects_app. cbn [effects filter is_effect]. rewrite List.app_nil_r.
  exact Ep.
Qed.

Lemma healthy_service_no_write_witness :
  exists w',
    check_service Sample.config "db" "restart" true
      (Sample.world_with
         (Sample.env_with
            (Sample.systemd (Completed 0 "inactive" "") (Completed 0 "" ""))
            WriteDone (MailExit 0))
         None None [])
    = (Ret tt, w') /\
    self_state w' = [("db", default_entry)] /\
    w_state_file w' = None.
Proof.
  destruct (healthy_service_no_write Sample.config "db" "restart" true
              (Sample.world_with
                 (Sample.env_with
                    (Sample.systemd (Completed 0 "inactive" "") (Completed 0 "" ""))
                    WriteDone (MailExit 0))
                 None None [])
              0 "enabled" "" "in" "" "" 0
              eq_refl eq_refl eq_refl eq_refl eq_refl eq_refl (Z.le_refl 0))
    as (w' & Hrun & Hst & Hfile & _).
  exists w'. split; [exact Hrun|]. split; [exact Hst | exact Hfile].
Defined.

(** *** The cost of a recovery *)

Lemma slept_app a b : slept (a ++ b) = slept a + slept b.
Proof.
  induction a as [|e a IH]; [reflexivity|].
  cbn [app slept fold_right]. fold (slept (a ++ b)). fold (slept a).
  rewrite IH. destruct e; lia.
Qed.

Lemma commands_app a b : commands (a ++ b) = (commands a + commands b)%nat.
Proof. unfold commands. rewrite filter_app, List.length_app. reflexivity. Qed.

Lemma delay_cost c attempt :
  0 <= RETRY_DELAY c ->
  0 <= slept (delay c attempt) <= RETRY_DELAY c /\ commands (delay c attempt) = 0%nat.
Proof.
  intros P. unfold delay. destruct (attempt <? RETRY_COUNT c - 1); cbn; split; lia.
Qed.

Lemma recovery_cost c action service cmd attempts seg b :
  0 <= RETRY_DELAY c ->
  recovery c action service cmd attempts seg b ->
  0 <= slept seg <= Z.of_nat (List.length attempts) * Z.max 3 (RETRY_DELAY c) /\
  (commands seg <= 2 * List.length attempts)%nat.
Proof.
  intros P.
  induction 1 as [|attempt rest o seg b Ho R IH|attempt rest o Ho V
                  |attempt rest o p Ho V Hp|attempt rest o p seg b Ho V Hp R IH].
  - cbn. split; lia.
  - destruct IH as (A & B). destruct (delay_cost c attempt P) as (D & E).
    change (EvCmd cmd o :: delay c attempt ++ seg)
      with ([EvCmd cmd o] ++ delay c attempt ++ seg)%list.
    rewrite !slept_app, !commands_app, E.
    change (commands [EvCmd cmd o]) with 1%nat.
    change (slept [EvCmd cmd o]) with 0.
    cbn [List.length]. rewrite Nat2Z.inj_succ. split; [nia|lia].
  - change (slept [EvCmd cmd o]) with 0. change (commands [EvCmd cmd o]) with 1%nat.
    cbn [List.length]. rewrite Nat2Z.inj_succ. split; [nia|lia].
  - change (slept [EvCmd cmd o; EvSleep 3; EvCmd (cmd_is_active service) p]) with 3.
    change (commands [EvCmd cmd o; EvSleep 3; EvCmd (cmd_is_active service) p])
      with 2%nat.
    cbn [List.length]. rewrite Nat2Z.inj_succ. split; [nia|lia].
  - destruct IH as (A & B).
    change (EvCmd cmd o :: EvSleep 3 :: EvCmd (cmd_is_active service) p :: seg)
      with ([EvCmd cmd o; EvSleep 3; EvCmd (cmd_is_active service) p] ++ seg)%list.
    rewrite slept_app, commands_app.
    change (slept [EvCmd cmd o; EvSleep 3; EvCmd (cmd_is_active service) p]) with 3.
    change (commands [EvCmd cmd o; EvSleep 3; EvCmd (cmd_is_active service) p])
      with 2%nat.
    cbn [List.length]. rewrite Nat2Z.inj_succ. split; [nia|lia].
Qed.

(** X4: whatever the action and however the commands end, [perform_action]
    returns after at most [2 * RETRY_COUNT] commands (each of them bounded
    by the 30-second timeout of [run_command]) and at most
    [RETRY_COUNT * max(3, RETRY_DELAY)] seconds of sleep. *)
Theorem recovery_is_bounded :
  forall c service action w,
    0 <= RETRY_DELAY c ->
    exists seg b w',
      perform_action c service action w = (Ret b, w') /\
      effects (w_trace w') = (effects (w_trace w) ++ seg)%list /\
      (commands seg <= 2 * Z.to_nat (RETRY_COUNT c))%nat /\
      0 <= slept seg <= Z.max 0 (RETRY_COUNT c) * Z.max 3 (RETRY_DELAY c).
Proof.
  intros c service action w P. unfold perform_action.
  destruct (action_command action service) as [cmd|].
  - destruct (attempt_loop_recovery c service action cmd (range (RETRY_COUNT c)) w)
      as (seg & b & w' & R & _ & E & G).
    destruct (recovery_cost _ _ _ _ _ _ _ P G) as (A & B).
    rewrite range_length in A, B.
    exists seg, b, w'. split; [exact R|]. split; [exact E|]. split; [exact B|].
    replace (Z.of_nat (Z.to_nat (RETRY_COUNT c))) with (Z.max 0 (RETRY_COUNT c))
      in A by lia.
    exact A.
  - exists [], false. eexists. unfold bind. rewrite log_message_eq.
    split; [reflexivity|]. rewrite logged_effects, List.app_nil_r.
    split; [reflexivity|]. cbn. split; [lia|]. split; nia.
Qed.

Lemma recovery_is_bounded_witness :
  exists seg b w',
    perform_action Sample.config "db" "restart" Sample.w_down = (Ret b, w') /\
    (commands seg <= 6)%nat /\ slept seg <= 15.
Proof.
  assert (P : 0 <= RETRY_DELAY Sample.config) by (cbn; lia).
  destruct (recovery_is_bounded Sample.config "db" "restart" Sample.w_down P)
    as (seg & b & w' & R & _ & A & B).
  exists seg, b, w'. split; [exact R|]. split; [exact A | exact (proj2 B)].
Defined.

(** *** Sending mail *)

Lemma mails_logged level msg w : mails (w_trace (logged level msg w)) = mails (w_trace w).
Proof.
  unfold logged. cbn [w_trace with_trace]. rewrite mails_app. apply List.app_nil_r.
Qed.

(** X5: [send_email] never raises: it returns a flag.  The message is handed
    to the mailer at most once; the flag is true only when one of the three
    known methods was used, the message was handed over, and the mailer did
    not fail (for sendmail and mail: exit status 0); with no admin address
    or an unknown method nothing is handed over and the flag is false.  The
    table and the files are never touched. *)
Theorem send_email_spec :
  forall c subject body w,
  exists sent w',
    send_email c subject body w = (Ret sent, w') /\
    same_store w w' /\
    (mails (w_trace w') = mails (w_trace w) \/
     mails (w_trace w')
     = (mails (w_trace w)
        ++ [EvMail subject body (env_mail (w_env w) (w_tick w))])%list) /\
    (sent = true ->
     ADMIN_EMAIL c <> EmptyString /\
     In (SENDMAIL_METHOD c) mail_methods /\
     mails (w_trace w')
     = (mails (w_trace w)
        ++ [EvMail subject body (env_mail (w_env w) (w_tick w))])%list /\
     exists rc,
       env_mail (w_env w) (w_tick w) = MailExit rc /\
       (SENDMAIL_METHOD c <> "smtp" -> rc = 0)) /\
    (ADMIN_EMAIL c = EmptyString \/ ~ In (SENDMAIL_METHOD c) mail_methods ->
     sent = false /\ mails (w_trace w') = mails (w_trace w)).
Proof.
  intros c subject body w. unfold send_email, mail_methods.
  destruct (String.eqb_spec (ADMIN_EMAIL c) EmptyString) as [A|A].
  { unfold bind. rewrite log_message_eq. eexists. eexists.
    split; [reflexivity|]. split; [apply logged_store|].
    rewrite mails_logged.
    split; [left; reflexivity|]. split; [discriminate|].
    intros _. split; reflexivity. }
  assert (T : forall (ok : mail_outcome -> M bool),
             (forall o w0, exists b, ok o w0 = (Ret b, w0) \/
                                     (ok o w0 = (Raise OSError, w0) /\ b = false)) ->
             exists sent w',
               try_except (r <- mail_transport subject body ;; ok r) is_Exception
                 (fun e =>
                    log_message "ERROR" ("Failed to send email: " ++ exn_text e) ;;
                    ret false) w
               = (Ret sent, w') /\
               same_store w w' /\
               mails (w_trace w')
               = (mails (w_trace w)
                  ++ [EvMail subject body (env_mail (w_env w) (w_tick w))])%list /\
               (sent = true ->
                ok (env_mail (w_env w) (w_tick w))
                  (with_trace
                     (w_trace w ++ [EvMail subject body (env_mail (w_env w) (w_tick w))])
                     (with_tick (S (w_tick w)) w))
                = (Ret true,
                   with_trace
                     (w_trace w ++ [EvMail subject body (env_mail (w_env w) (w_tick w))])
                     (with_tick (S (w_tick w)) w)))).
  { intros ok Hok. unfold try_except. unfold bind at 1. rewrite mail_transport_eq.
    set (w1 := with_trace _ _).
    assert (M1 : mails (w_trace w1)
                 = (mails (w_trace w)
                    ++ [EvMail subject body (env_mail (w_env w) (w_tick w))])%list).
    { unfold w1. cbn [w_trace with_trace]. rewrite mails_app. reflexivity. }
    destruct (Hok (env_mail (w_env w) (w_tick w)) w1) as (b & [E | (E & ->)]);
      rewrite E.
    - exists b, w1. split; [reflexivity|]. split; [repeat split|].
      split; [exact M1|]. intros ->. reflexivity.
    - cbn [is_Exception]. unfold bind. rewrite log_message_eq.
      eexists. eexists. split; [reflexivity|].
      split; [repeat split|]. rewrite mails_logged.
      split; [exact M1 | discriminate]. }
  destruct (String.eqb_spec (SENDMAIL_METHOD c) "sendmail") as [S1|S1];
    [|destruct (String.eqb_spec (SENDMAIL_METHOD c) "smtp") as [S2|S2];
      [|destruct (String.eqb_spec (SENDMAIL_METHOD c) "mail") as [S3|S3]]].
  - destruct (T (fun r => match r with
                          | MailExit rc => ret (rc =? 0)
                          | MailError => raise OSError
                          end)) as (sent & w' & E & St & Ml & Ok).
    { intros [rc|] w0; [exists (rc =? 0); left | exists false; right; split];
        reflexivity. }
    exists sent, w'. split; [exact E|]. split; [exact St|].
    split; [right; exact Ml|]. split.
    + intros Hs. split; [exact A|]. split; [rewrite S1; cbn; tauto|].
      split; [exact Ml|]. specialize (Ok Hs).
      destruct (env_mail (w_env w) (w_tick w)) as [rc|]; [|discriminate Ok].
      exists rc. split; [reflexivity|]. intros _.
      unfold ret in Ok. inversion Ok as [Hrc]. apply Z.eqb_eq. exact Hrc.
    + intros [H|H]; [contradiction|]. exfalso. apply H. rewrite S1. cbn. tauto.
  - destruct (T (fun r => match r with
                          | MailExit _ => ret true
                          | MailError => raise OSError
                          end)) as (sent & w' & E & St & Ml & Ok).
    { intros [rc|] w0; [exists true; left | exists false; right; split];
        reflexivity. }
    exists sent, w'. split; [exact E|]. split; [exact St|].
    split; [right; exact Ml|]. split.
    + intros Hs. split; [exact A|]. split; [rewrite S2; cbn; tauto|].
      split; [exact Ml|]. specialize (Ok Hs).
      destruct (env_mail (w_env w) (w_tick w)) as [rc|]; [|discriminate Ok].
      exists rc. split; [reflexivity|]. intros N. contradiction.
    + intros [H|H]; [contradiction|]. exfalso. apply H. rewrite S2. cbn. tauto.
  - destruct (T (fun r => match r with
                          | MailExit rc => ret (rc =? 0)
                          | MailError => raise OSError
                          end)) as (sent & w' & E & St & Ml & Ok).
    { intros [rc|] w0; [exists (rc =? 0); left | exists false; right; split];
        reflexivity. }
    exists sent, w'. split; [exact E|]. split; [exact St|].
    split; [right; exact Ml|]. split.
    + intros Hs. split; [exact A|]. split; [rewrite S3; cbn; tauto|].
      split; [exact Ml|]. specialize (Ok Hs).
      destruct (env_mail (w_env w) (w_tick w)) as [rc|]; [|discriminate Ok].
      exists rc. split; [reflexivity|]. intros _.
      unfold ret in Ok. inversion Ok as [Hrc]. apply Z.eqb_eq. exact Hrc.
    + intros [H|H]; [contradiction|]. exfalso. apply H. rewrite S3. cbn. tauto.
  - unfold try_except, bind. rewrite log_message_eq. eexists. eexists.
    split; [reflexivity|]. split; [apply logged_store|].
    rewrite mails_logged. split; [left; reflexivity|]. split.
    + discriminate.
    + intros _. split; reflexivity.
Qed.

(** *** An alert that cannot be composed *)

Lemma stdout_of_eq cmd w :
  stdout_of cmd w
  = (Ret (snd (fst (answer w 0 cmd))), after_blocking (issued w 0 cmd) w).
Proof.
  unfold stdout_of, bind, issued. rewrite run_command_eq, answer_0, Nat.add_0_r.
  destruct (cmd_result 30 _) as [[rc out] err]. reflexivity.
Qed.

Lemma read_proc_fails content w :
  env_io_fails (w_env w) (w_tick w) = true ->
  read_proc content w = (Raise OSError, with_tick (S (w_tick w)) w).
Proof.
  intros H. destruct w as [env tick sf lf tr st run]. cbn in H.
  unfold read_proc, io_fault. mred. rewrite H. reflexivity.
Qed.

(** [get_system_info] reads [/proc/loadavg] outside any [try]: when the
    read fails the call raises after its first two commands. *)
Lemma get_system_info_fails w :
  env_io_fails (w_env w) (w_tick w + 2) = true ->
  exists w',
    get_system_info w = (Raise OSError, w') /\
    quiet w w' /\
    effects (w_trace w')
    = (effects (w_trace w) ++ [issued w 0 "uname -a"; issued w 1 "uptime"])%list.
Proof.
  intros H. unfold get_system_info. unfold bind at 1. unfold get_world.
  unfold bind at 1. rewrite stdout_of_eq.
  set (w1 := after_blocking (issued w 0 "uname -a") w).
  unfold bind at 1. rewrite stdout_of_eq.
  set (w2 := after_blocking (issued w1 0 "uptime") w1).
  assert (S1 : same_store w w1) by apply after_blocking_store.
  assert (S2 : same_store w1 w2) by apply after_blocking_store.
  assert (T1 : w_tick w1 = S (w_tick w)) by apply after_blocking_tick.
  assert (T2 : w_tick w2 = S (S (w_tick w))).
  { unfold w2. rewrite after_blocking_tick, T1. reflexivity. }
  assert (I1 : issued w1 0 "uptime" = issued w 1 "uptime").
  { unfold issued. destruct S1 as (-> & _). rewrite T1, Nat.add_0_r, Nat.add_1_r.
    reflexivity. }
  unfold bind at 1. rewrite read_proc_fails.
  2:{ destruct S2 as (-> & _). destruct S1 as (-> & _). rewrite T2.
      rewrite <- H. f_equal. lia. }
  eexists. split; [reflexivity|]. split.
  - split.
    + eapply same_store_trans; [exact S1|].
      eapply same_store_trans; [exact S2|]. repeat split.
    + cbn [w_trace with_tick]. unfold w2.
      rewrite after_blocking_mails by reflexivity.
      unfold w1. apply after_blocking_mails. reflexivity.
  - cbn [w_trace with_tick]. unfold w2.
    rewrite after_blocking_effects by reflexivity.
    unfold w1 at 1. rewrite after_blocking_effects by reflexivity.
    rewrite I1, <- List.app_assoc. reflexivity.
Qed.

(** X6: when [/proc/loadavg] cannot be read while an alert that is due is
    being composed, the exception leaves [check_service]'s escalation:
    the clock was read and two diagnostic commands were run, no message was
    handed to the mailer, [last_alert] was not stamped and the table was
    not saved. *)
Theorem alert_not_composed :
  forall c name action alarm w e f la,
    dict_get name (self_state w) = Some e ->
    entry_failures e = Some f ->
    entry_last_alert e = Some la ->
    shouldAlert c f la alarm (env_clock (w_env w) (w_tick w)) = true ->
    env_io_fails (w_env w) (w_tick w + 3) = true ->
    exists w',
      escalate c name action alarm w = (Raise OSError, w') /\
      same_store w w' /\
      mails (w_trace w') = mails (w_trace w) /\
      effects (w_trace w')
      = (effects (w_trace w)
         ++ [EvClock (env_clock (w_env w) (w_tick w));
             issued w 1 "uname -a"; issued w 2 "uptime"])%list.
Proof.
  intros c name action alarm w e f la He Hf Hl Hs Hio.
  rewrite (escalate_eq _ _ _ _ _ _ _ _ He Hf Hl).
  unfold shouldAlert in Hs. apply andb_true_iff in Hs. destruct Hs as (-> & ->).
  set (now := env_clock (w_env w) (w_tick w)).
  set (w0 := clocked w).
  assert (S0 : same_store w w0) by apply clocked_store.
  assert (T0 : w_tick w0 = S (w_tick w)) by reflexivity.
  assert (E0 : w_env w0 = w_env w) by reflexivity.
  destruct (get_system_info_fails w0) as (w1 & G & (S1 & M1) & F1).
  { rewrite E0, T0. rewrite <- Hio. f_equal. lia. }
  unfold alert_and_record. unfold bind at 1. unfold send_alert. unfold bind at 1.
  rewrite (state_entry_eq name e w0) by exact He.
  unfold bind at 1.
  destruct (entry_fields _ _ Hf) as (fields & ->).
  unfold entry_failures in Hf. cbn [getitem].
  destruct (dict_get "failures" fields) as [v|]; [|discriminate].
  unfold ret at 1. unfold bind at 1. unfold alert_text. unfold bind at 1.
  unfold get_world at 1. unfold bind at 1. rewrite G.
  exists w1. split; [reflexivity|]. split; [|split].
  - eapply same_store_trans; [exact S0 | exact S1].
  - rewrite M1. apply clocked_mails.
  - rewrite F1. unfold w0, clocked. cbn [w_trace with_trace with_tick].
    rewrite effects_app. cbn [effects filter is_effect].
    rewrite <- List.app_assoc. cbn [app].
    unfold issued. cbn [w_env w_tick with_trace with_tick].
    rewrite !Nat.add_0_r.
    replace (w_tick w + 1)%nat with (S (w_tick w)) by lia.
    replace (w_tick w + 2)%nat with (S (S (w_tick w))) by lia.
    replace (S (w_tick w) + 1)%nat with (S (S (w_tick w))) by lia.
    reflexivity.
Qed.

Lemma alert_not_composed_witness :
  exists w',
    escalate Sample.config "db" "restart" true
      (Sample.world_with
         {| env_proc := Sample.down; env_io_fails := fun n => (n =? 3)%nat;
            env_write := fun _ => WriteDone; env_mail := fun _ => MailExit 0;
            env_clock := fun _ => 5000; env_signal := fun _ => None;
            env_kill_ok := fun _ => false; env_euid := 0; env_pid := 100;
            env_hostname := "host"; env_fqdn := "host.example.org";
            env_loadavg := "0.10"; env_meminfo := "MemTotal: 1000 kB" |}
         None None [("db", Sample.entry 10 0)])
    = (Raise OSError, w') /\
    self_state w' = [("db", Sample.entry 10 0)] /\
    mails (w_trace w') = [].
Proof.
  destruct (alert_not_composed Sample.config "db" "restart" true
              (Sample.world_with
                 {| env_proc := Sample.down; env_io_fails := fun n => (n =? 3)%nat;
                    env_write := fun _ => WriteDone; env_mail := fun _ => MailExit 0;
                    env_clock := fun _ => 5000; env_signal := fun _ => None;
                    env_kill_ok := fun _ => false; env_euid := 0; env_pid := 100;
                    env_hostname := "host"; env_fqdn := "host.example.org";
                    env_loadavg := "0.10"; env_meminfo := "MemTotal: 1000 kB" |}
                 None None [("db", Sample.entry 10 0)])
              (Sample.entry 10 0) 10 0 eq_refl eq_refl eq_refl eq_refl eq_refl)
    as (w' & Hrun & (_ & Hst & _) & Hm & _).
  exists w'. split; [exact Hrun|]. split; [exact Hst | exact Hm].
Defined.

(** *** The pid in the lock file *)

Lemma digit_no_space c : Text.is_digit c = true -> Text.is_space c = false.
Proof.
  destruct c as [[] [] [] [] [] [] [] []]; vm_compute; intros H;
    try reflexivity; discriminate H.
Qed.

Lemma all_digits_no_space s : all_digits s = true -> no_space s = true.
Proof.
  induction s as [|c s IH]; [reflexivity|]. cbn [all_digits no_space].
  intros H. apply andb_true_iff in H. destruct H as (D & R).
  rewrite (digit_no_space c D), (IH R). reflexivity.
Qed.

Lemma uint_all_digits d : all_digits (NilEmpty.string_of_uint d) = true.
Proof. induction d; cbn [NilEmpty.string_of_uint all_digits]; auto. Qed.

Lemma strip_no_space s : no_space s = true -> Text.strip s = s.
Proof.
  intros H. unfold Text.strip.
  assert (L : Text.lstrip s = s).
  { destruct s as [|c s]; [reflexivity|]. cbn [no_space] in H.
    apply andb_true_iff in H. destruct H as (C & _). apply negb_true_iff in C.
    cbn [Text.lstrip]. rewrite C. reflexivity. }
  rewrite L. clear L. induction s as [|c s IH]; [reflexivity|].
  cbn [no_space] in H. apply andb_true_iff in H. destruct H as (C & R).
  apply negb_true_iff in C. cbn [Text.rstrip]. rewrite (IH R), C.
  destruct s; reflexivity.
Qed.

Lemma drop_underscores_digits b s :
  all_digits s = true -> Text.drop_underscores b s = Some s.
Proof.
  revert b. induction s as [|c s IH]; intros b H; [reflexivity|].
  cbn [all_digits] in H. apply andb_true_iff in H. destruct H as (D & R).
  cbn [Text.drop_underscores].
  destruct (Ascii.eqb_spec c "_") as [->|_]; [discriminate D|].
  rewrite (IH _ R). reflexivity.
Qed.

(** The digits of a positive number are read back as that number. *)
Lemma to_Z_digits p neg :
  (let signed (neg : bool) (digits : string) :=
     match Text.drop_underscores false digits with
     | None => None
     | Some plain =>
         match Text.take_digits plain with
         | (Decimal.Nil, _) => None
         | (d, EmptyString) =>
             let n := Z.of_N (N.of_uint d) in Some (if neg then - n else n)
         | _ => None
         end
     end in
   signed neg (NilEmpty.string_of_uint (Pos.to_uint p)))
  = Some (if neg then Z.neg p else Z.pos p).
Proof.
  cbv beta zeta. rewrite drop_underscores_digits by apply uint_all_digits.
  rewrite <- (append_nil_r (NilEmpty.string_of_uint (Pos.to_uint p))).
  rewrite take_digits_uint by reflexivity.
  pose proof (to_uint_shape p) as S.
  pose proof (DecimalPos.Unsigned.of_to p) as O. unfold N.of_uint.
  destruct (Pos.to_uint p) eqn:E; try contradiction;
    rewrite O; destruct neg; reflexivity.
Qed.

(** [int(str(z))] is [z]. *)
Lemma to_Z_of_Z z : Text.to_Z (Text.strip (Text.of_Z z)) = Some z.
Proof.
  destruct z as [|p|p].
  - reflexivity.
  - assert (E : Text.of_Z (Z.pos p) = NilEmpty.string_of_uint (Pos.to_uint p)).
    { unfold Text.of_Z, NilZero.string_of_int, NilZero.string_of_uint.
      cbn [Z.to_int]. pose proof (to_uint_shape p) as S.
      destruct (Pos.to_uint p); try contradiction; reflexivity. }
    rewrite E.
    rewrite (strip_no_space (NilEmpty.string_of_uint (Pos.to_uint p)))
      by (apply all_digits_no_space, uint_all_digits).
    pose proof (to_Z_digits p false) as T. cbv beta zeta in T.
    unfold Text.to_Z.
    rewrite (strip_no_space (NilEmpty.string_of_uint (Pos.to_uint p)))
      by (apply all_digits_no_space, uint_all_digits).
    pose proof (to_uint_shape p) as S.
    destruct (Pos.to_uint p) eqn:U; try contradiction;
      cbn [NilEmpty.string_of_uint] in *; exact T.
  - assert (E : Text.of_Z (Z.neg p)
                = String "-" (NilEmpty.string_of_uint (Pos.to_uint p))).
    { unfold Text.of_Z, NilZero.string_of_int, NilZero.string_of_uint.
      cbn [Z.to_int]. pose proof (to_uint_shape p) as S.
      destruct (Pos.to_uint p); try contradiction; reflexivity. }
    rewrite E.
    assert (N : no_space (String "-" (NilEmpty.string_of_uint (Pos.to_uint p))) = true).
    { cbn [no_space]. rewrite all_digits_no_space by apply uint_all_digits.
      reflexivity. }
    rewrite (strip_no_space _ N). unfold Text.to_Z. rewrite (strip_no_space _ N).
    exact (to_Z_digits p true).
Qed.

(** *** One instance at a time *)

(** X7: the first instance finds no lock file and acquires the lock: the file
    then holds the decimal text of its pid, which [int] reads back as that
    pid.  While that process is alive, any later attempt on that lock file
    (read without an error) answers false and leaves the file as it is. *)
Theorem lock_excludes_second_instance :
  forall w k,
    w_lock_file w = None ->
    env_io_fails (w_env w) (w_tick w) = false ->
    env_io_fails (w_env w) (S (w_tick w)) = false ->
    fits_c_int (env_pid (w_env w)) = true ->
    exists w1,
      acquire_lock (S k) w = (Ret true, w1) /\
      w_lock_file w1 = Some (Text.of_Z (env_pid (w_env w))) /\
      Text.to_Z (Text.strip (Text.of_Z (env_pid (w_env w)))) = Some (env_pid (w_env w)) /\
      forall w2 j,
        w_lock_file w2 = w_lock_file w1 ->
        env_kill_ok (w_env w2) (env_pid (w_env w)) = true ->
        env_io_fails (w_env w2) (S (w_tick w2)) = false ->
        fst (acquire_lock (S j) w2) = Ret false /\
        w_lock_file (snd (acquire_lock (S j) w2)) = w_lock_file w1.
Proof.
  intros w k Hfree H1 H2 Hfit.
  destruct (acquire_lock_free k w Hfree) as (E & _).
  rewrite E, (acquire_lock_free_result w Hfree H1 H2).
  eexists. split; [reflexivity|]. cbn [w_lock_file with_lock_file].
  split; [reflexivity|]. split; [apply to_Z_of_Z|].
  intros w2 j L Hlive Hread.
  rewrite (acquire_lock_held j w2 _ L), Hread, to_Z_of_Z, Hfit, Hlive.
  cbn [fst snd w_lock_file with_tick]. split; [reflexivity | exact L].
Qed.

Lemma lock_excludes_second_instance_witness :
  exists w1,
    acquire_lock 2
      (Sample.world_with (Sample.env_with Sample.up WriteDone (MailExit 0))
         None None [])
    = (Ret true, w1) /\
    w_lock_file w1 = Some "100".
Proof.
  destruct (lock_excludes_second_instance
              (Sample.world_with (Sample.env_with Sample.up WriteDone (MailExit 0))
                 None None [])
              1%nat eq_refl eq_refl eq_refl eq_refl)
    as (w1 & Hrun & Hfile & _).
  exists w1. split; [exact Hrun | exact Hfile].
Defined.

(** *** Lock files that do not name a process *)

(** X8: if writing the pid fails after the lock file was created, the call
    raises and leaves an empty lock file behind.  A lock file whose text is
    not an integer (the empty one included) is taken as stale: it is
    removed and the lock is acquired, the file then naming the caller. *)
Theorem unreadable_lock_is_reclaimed :
  forall w,
    (w_lock_file w = None ->
     env_io_fails (w_env w) (w_tick w) = false ->
     env_io_fails (w_env w) (S (w_tick w)) = true ->
     forall k,
       fst (acquire_lock (S k) w) = Raise OSError /\
       w_lock_file (snd (acquire_lock (S k) w)) = Some EmptyString) /\
    Text.to_Z (Text.strip EmptyString) = None /\
    (forall text k,
        w_lock_file w = Some text ->
        Text.to_Z (Text.strip text) = None ->
        (forall n, (w_tick w < n <= w_tick w + 4)%nat ->
                   env_io_fails (w_env w) n = false) ->
        fst (acquire_lock (S (S k)) w) = Ret true /\
        w_lock_file (snd (acquire_lock (S (S k)) w))
        = Some (Text.of_Z (env_pid (w_env w)))).
Proof.
  intros w. split; [|split; [reflexivity|]].
  - intros Hfree H1 H2 k.
    destruct (acquire_lock_free k w Hfree) as (E & _). rewrite E. clear E.
    destruct w as [env tick sf lf tr st run]. cbn in Hfree, H1, H2. subst lf.
    lred. rewrite H1. lred. rewrite H2. lred. split; reflexivity.
  - intros text k L T Hio.
    rewrite (acquire_lock_held (S k) w text L).
    rewrite (Hio (S (w_tick w))) by lia. rewrite T.
    rewrite (reclaim_eq k _ text) by exact L.
    cbn [w_env w_tick with_tick].
    rewrite (Hio (S (S (w_tick w)))) by lia.
    rewrite acquire_lock_free_result.
    + cbn [fst snd w_lock_file with_lock_file]. split; reflexivity.
    + reflexivity.
    + cbn [w_env w_tick with_tick with_lock_file]. apply Hio. lia.
    + cbn [w_env w_tick with_tick with_lock_file]. apply Hio. lia.
Qed.



(** *** Waiting between two passes *)

Lemma after_blocking_running ev w :
  self_running (after_blocking ev w)
  = match env_signal (w_env w) (w_tick w) with
    | Some _ => false
    | None => self_running w
    end.
Proof.
  unfold after_blocking. destruct (env_signal (w_env w) (w_tick w)); reflexivity.
Qed.

Lemma wait_loop_stopped l w :
  self_running w = false -> wait_loop l w = (Ret tt, w).
Proof.
  intros H. destruct l as [|x l]; [reflexivity|].
  cbn [wait_loop]. unfold bind, get_world. rewrite H. reflexivity.
Qed.

(** With no signal for the whole wait, one second is slept per element. *)
Lemma wait_loop_undisturbed l :
  forall w,
    self_running w = true ->
    (forall i, (i < List.length l)%nat ->
               env_signal (w_env w) (w_tick w + i) = None) ->
    exists w',
      wait_loop l w = (Ret tt, w') /\
      same_store w w' /\ self_running w' = true /\
      w_tick w' = (w_tick w + List.length l)%nat /\
      effects (w_trace w')
      = (effects (w_trace w) ++ repeat (EvSleep 1) (List.length l))%list.
Proof.
  induction l as [|x l IH]; intros w R Q.
  - exists w. split; [reflexivity|]. split; [apply same_store_refl|].
    split; [exact R|]. cbn [List.length repeat]. rewrite Nat.add_0_r, List.app_nil_r.
    split; reflexivity.
  - cbn [wait_loop]. unfold bind at 1. unfold get_world. rewrite R.
    unfold bind at 1. rewrite time_sleep_eq.
    set (w1 := after_blocking (EvSleep 1) w).
    assert (S1 : same_store w w1) by apply after_blocking_store.
    assert (T1 : w_tick w1 = S (w_tick w)) by apply after_blocking_tick.
    assert (R1 : self_running w1 = true).
    { unfold w1. rewrite after_blocking_running.
      rewrite <- (Nat.add_0_r (w_tick w)), Q by (cbn; lia). exact R. }
    destruct (IH w1 R1) as (w' & E & S' & R' & T' & F').
    { intros i Hi. destruct S1 as (-> & _). rewrite T1.
      replace (S (w_tick w) + i)%nat with (w_tick w + S i)%nat by lia.
      apply Q. cbn [List.length]. lia. }
    exists w'. split; [exact E|]. split; [eapply same_store_trans; eassumption|].
    split; [exact R'|]. split; [rewrite T', T1; cbn [List.length]; lia|].
    rewrite F'. unfold w1. rewrite after_blocking_effects by reflexivity.
    rewrite <- List.app_assoc. reflexivity.
Qed.

(** A signal during the [j]-th second of the wait ends the wait with that
    second. *)
Lemma wait_loop_signalled l :
  forall w j signum,
    self_running w = true ->
    (j < List.length l)%nat ->
    (forall i, (i < j)%nat -> env_signal (w_env w) (w_tick w + i) = None) ->
    env_signal (w_env w) (w_tick w + j) = Some signum ->
    exists w',
      wait_loop l w = (Ret tt, w') /\
      same_store w w' /\ self_running w' = false /\
      effects (w_trace w')
      = (effects (w_trace w) ++ repeat (EvSleep 1) (S j))%list.
Proof.
  induction l as [|x l IH]; intros w j signum R Hj Q Sg.
  - cbn in Hj. lia.
  - cbn [wait_loop]. unfold bind at 1. unfold get_world. rewrite R.
    unfold bind at 1. rewrite time_sleep_eq.
    set (w1 := after_blocking (EvSleep 1) w).
    assert (S1 : same_store w w1) by apply after_blocking_store.
    assert (T1 : w_tick w1 = S (w_tick w)) by apply after_blocking_tick.
    assert (F1 : effects (w_trace w1) = (effects (w_trace w) ++ [EvSleep 1])%list)
      by (apply after_blocking_effects; reflexivity).
    destruct j as [|j].
    + rewrite Nat.add_0_r in Sg.
      assert (R1 : self_running w1 = false).
      { unfold w1. rewrite after_blocking_running, Sg. reflexivity. }
      rewrite (wait_loop_stopped l w1 R1).
      exists w1. split; [reflexivity|]. split; [exact S1|]. split; [exact R1|].
      exact F1.
    + assert (R1 : self_running w1 = true).
      { unfold w1. rewrite after_blocking_running.
        rewrite <- (Nat.add_0_r (w_tick w)), Q by lia. exact R. }
      destruct (IH w1 j signum R1) as (w' & E & S' & R' & F').
      { cbn [List.length] in Hj. lia. }
      { intros i Hi. destruct S1 as (-> & _). rewrite T1.
        replace (S (w_tick w) + i)%nat with (w_tick w + S i)%nat by lia.
        apply Q. lia. }
      { destruct S1 as (-> & _). rewrite T1.
        replace (S (w_tick w) + j)%nat with (w_tick w + S j)%nat by lia.
        exact Sg. }
      exists w'. split; [exact E|]. split; [eapply same_store_trans; eassumption|].
      split; [exact R'|]. rewrite F', F1, <- List.app_assoc. reflexivity.
Qed.

(** X10: in daemon mode, after a pass over the services: if a signal was
    handled during the pass the loop ends without sleeping; if one arrives
    during the [j]-th second of the wait the loop ends with that second,
    without another pass; with no signal the wait lasts [CHECK_INTERVAL]
    seconds and the next pass follows. *)
Theorem daemon_stops_on_signal :
  forall c k w w1,
    DAEMON_MODE c = true ->
    self_running w = true ->
    check_all c (SERVICES c) w = (Ret tt, w1) ->
    (self_running w1 = false -> cycles c (S (S k)) w = (Ret tt, w1)) /\
    (self_running w1 = true ->
     forall j signum,
       (j < Z.to_nat (CHECK_INTERVAL c))%nat ->
       (forall i, (i < j)%nat -> env_signal (w_env w1) (w_tick w1 + i) = None) ->
       env_signal (w_env w1) (w_tick w1 + j) = Some signum ->
       exists w',
         cycles c (S (S k)) w = (Ret tt, w') /\
         same_store w1 w' /\ self_running w' = false /\
         effects (w_trace w')
         = (effects (w_trace w1) ++ repeat (EvSleep 1) (S j))%list) /\
    (self_running w1 = true ->
     (forall i, (i < Z.to_nat (CHECK_INTERVAL c))%nat ->
                env_signal (w_env w1) (w_tick w1 + i) = None) ->
     exists w2,
       cycles c (S (S k)) w = cycles c (S k) w2 /\
       same_store w1 w2 /\ self_running w2 = true /\
       effects (w_trace w2)
       = (effects (w_trace w1)
          ++ repeat (EvSleep 1) (Z.to_nat (CHECK_INTERVAL c)))%list).
Proof.
  intros c k w w1 D R P.
  assert (K : cycles c (S (S k)) w
              = (wait_loop (range (CHECK_INTERVAL c)) ;; cycles c (S k)) w1).
  { change (cycles c (S (S k)) w)
      with ((w0 <- get_world ;;
             if self_running w0 then
               check_all c (SERVICES c) ;;
               if DAEMON_MODE c then
                 wait_loop (range (CHECK_INTERVAL c)) ;; cycles c (S k)
               else ret tt
             else ret tt) w).
    unfold bind at 1. unfold get_world. rewrite R. unfold bind at 1.
    rewrite P, D. reflexivity. }
  assert (Stop : forall w0, self_running w0 = false ->
                            cycles c (S k) w0 = (Ret tt, w0)).
  { intros w0 H. cbn [cycles]. unfold bind, get_world. rewrite H. reflexivity. }
  rewrite K. split; [|split].
  - intros H. unfold bind. rewrite (wait_loop_stopped _ _ H). apply Stop. exact H.
  - intros H j signum Hj Q Sg.
    destruct (wait_loop_signalled (range (CHECK_INTERVAL c)) w1 j signum H)
      as (w' & E & S' & R' & F'); try assumption.
    { rewrite range_length. exact Hj. }
    exists w'. unfold bind. rewrite E. split; [apply Stop; exact R'|].
    split; [exact S'|]. split; [exact R' | exact F'].
  - intros H Q.
    destruct (wait_loop_undisturbed (range (CHECK_INTERVAL c)) w1 H)
      as (w2 & E & S' & R' & _ & F').
    { rewrite range_length. exact Q. }
    exists w2. unfold bind. rewrite E. split; [reflexivity|].
    split; [exact S'|]. split; [exact R'|]. rewrite F', range_length. reflexivity.
Qed.

Lemma daemon_stops_on_signal_witness :
  exists w',
    cycles
      {| ADMIN_EMAIL := "admin@example.com"; SENDMAIL_METHOD := "sendmail";
         SERVICES := []; ALERT_THRESHOLD := 10; ALERT_RATE_LIMIT := 3600;
         RETRY_COUNT := 3; RETRY_DELAY := 5; CHECK_INTERVAL := 60;
         DAEMON_MODE := true |} 2
      (Sample.world_with
         {| env_proc := Sample.up; env_io_fails := fun _ => false;
            env_write := fun _ => WriteDone; env_mail := fun _ => MailExit 0;
            env_clock := fun _ => 5000;
            env_signal := fun n => if (n =? 2)%nat then Some 15 else None;
            env_kill_ok := fun _ => false; env_euid := 0; env_pid := 100;
            env_hostname := "host"; env_fqdn := "host.example.org";
            env_loadavg := "0.10"; env_meminfo := "MemTotal: 1000 kB" |}
         None None [])
    = (Ret tt, w') /\
    self_running w' = false /\
    effects (w_trace w') = [EvSleep 1; EvSleep 1; EvSleep 1].
Proof.
  destruct (daemon_stops_on_signal
              {| ADMIN_EMAIL := "admin@example.com"; SENDMAIL_METHOD := "sendmail";
                 SERVICES := []; ALERT_THRESHOLD := 10; ALERT_RATE_LIMIT := 3600;
                 RETRY_COUNT := 3; RETRY_DELAY := 5; CHECK_INTERVAL := 60;
                 DAEMON_MODE := true |} 0%nat
              (Sample.world_with
                 {| env_proc := Sample.up; env_io_fails := fun _ => false;
                    env_write := fun _ => WriteDone; env_mail := fun _ => MailExit 0;
                    env_clock := fun _ => 5000;
                    env_signal := fun n => if (n =? 2)%nat then Some 15 else None;
                    env_kill_ok := fun _ => false; env_euid := 0; env_pid := 100;
                    env_hostname := "host"; env_fqdn := "host.example.org";
                    env_loadavg := "0.10"; env_meminfo := "MemTotal: 1000 kB" |}
                 None None [])
              _ eq_refl eq_refl eq_refl)
    as (_ & Hsig & _).
  destruct (Hsig eq_refl 2%nat 15) as (w' & Hrun & _ & Hstop & Heff).
  - cbn. lia.
  - intros i Hi. destruct i as [|[|i]]; [reflexivity | reflexivity | lia].
  - reflexivity.
  - exists w'. split; [exact Hrun|]. split; [exact Hstop | exact Heff].
Defined.

(** *** An exception during a pass *)

Lemma check_all_app c l1 l2 w :
  check_all c (l1 ++ l2) w = (check_all c l1 ;; check_all c l2) w.
Proof.
  revert w. induction l1 as [|s l1 IH]; intros w; [reflexivity|].
  cbn [app check_all]. unfold bind.
  destruct (check_service c (svc_name s) (svc_action s) (svc_alarm s) w)
    as [[[]|e|h] w1]; try reflexivity.
  rewrite IH. reflexivity.
Qed.

(** X11: an exception raised while one service is checked ends the pass and the
    loop with it, in daemon mode too: the services listed after it are not
    checked, and the world is the one the failing check left.  The handler
    in [run] then logs the exception, and nothing more is done. *)
Theorem exception_skips_remaining_services :
  forall c k w pre s rest w1 e w2,
    SERVICES c = (pre ++ s :: rest)%list ->
    self_running w = true ->
    check_all c pre w = (Ret tt, w1) ->
    check_service c (svc_name s) (svc_action s) (svc_alarm s) w1 = (Raise e, w2) ->
    check_all c (SERVICES c) w = (Raise e, w2) /\
    cycles c (S k) w = (Raise e, w2) /\
    (is_Exception e = true ->
     try_except (cycles c (S k)) is_Exception
       (fun e =>
          log_message "ERROR" ("Unexpected error: " ++ exn_text e) ;;
          log_message "ERROR" ("Traceback: " ++ exn_text e)) w
     = (Ret tt,
        logged "ERROR" ("Traceback: " ++ exn_text e)
          (logged "ERROR" ("Unexpected error: " ++ exn_text e) w2))).
Proof.
  intros c k w pre s rest w1 e w2 Hs R P F.
  assert (A : check_all c (SERVICES c) w = (Raise e, w2)).
  { rewrite Hs, check_all_app. unfold bind at 1. rewrite P.
    cbn [check_all]. unfold bind at 1. rewrite F. reflexivity. }
  assert (B : cycles c (S k) w = (Raise e, w2)).
  { cbn [cycles]. unfold bind at 1. unfold get_world. rewrite R.
    unfold bind at 1. rewrite A. reflexivity. }
  split; [exact A|]. split; [exact B|].
  intros X. unfold try_except. rewrite B, X. reflexivity.
Qed.

Lemma exception_skips_remaining_services_witness :
  check_all
    {| ADMIN_EMAIL := "admin@example.com"; SENDMAIL_METHOD := "sendmail";
       SERVICES := [ {| svc_name := "db"; svc_action := "restart"; svc_alarm := true |};
                     {| svc_name := "web"; svc_action := "restart"; svc_alarm := true |} ];
       ALERT_THRESHOLD := 10; ALERT_RATE_LIMIT := 3600;
       RETRY_COUNT := 3; RETRY_DELAY := 5; CHECK_INTERVAL := 60;
       DAEMON_MODE := false |}
    [ {| svc_name := "db"; svc_action := "restart"; svc_alarm := true |};
      {| svc_name := "web"; svc_action := "restart"; svc_alarm := true |} ]
    (Sample.world_with (Sample.env_with Sample.up WriteDone (MailExit 0))
       None None [("db", JNum 5)])
  = (Raise TypeError,
     snd (check_service
            {| ADMIN_EMAIL := "admin@example.com"; SENDMAIL_METHOD := "sendmail";
               SERVICES := [ {| svc_name := "db"; svc_action := "restart"; svc_alarm := true |};
                             {| svc_name := "web"; svc_action := "restart"; svc_alarm := true |} ];
               ALERT_THRESHOLD := 10; ALERT_RATE_LIMIT := 3600;
               RETRY_COUNT := 3; RETRY_DELAY := 5; CHECK_INTERVAL := 60;
               DAEMON_MODE := false |}
            "db" "restart" true
            (Sample.world_with (Sample.env_with Sample.up WriteDone (MailExit 0))
               None None [("db", JNum 5)]))).
Proof.
  apply (exception_skips_remaining_services
           {| ADMIN_EMAIL := "admin@example.com"; SENDMAIL_METHOD := "sendmail";
              SERVICES := [ {| svc_name := "db"; svc_action := "restart"; svc_alarm := true |};
                            {| svc_name := "web"; svc_action := "restart"; svc_alarm := true |} ];
              ALERT_THRESHOLD := 10; ALERT_RATE_LIMIT := 3600;
              RETRY_COUNT := 3; RETRY_DELAY := 5; CHECK_INTERVAL := 60;
              DAEMON_MODE := false |}
           0%nat
           (Sample.world_with (Sample.env_with Sample.up WriteDone (MailExit 0))
              None None [("db", JNum 5)])
           [] {| svc_name := "db"; svc_action := "restart"; svc_alarm := true |}
           [ {| svc_name := "web"; svc_action := "restart"; svc_alarm := true |} ]
           _ TypeError _ eq_refl eq_refl eq_refl).
  vm_compute. reflexivity.
Defined.

(** *** A second instance *)

(** X12: started while a live process holds the lock, [run] logs an error and
    exits with status 1 before its [try] block: no service is checked, the
    state is not saved, and the lock file, which is not its own, is left
    in place. *)
Theorem second_instance_exits_untouched :
  forall c k w text pid,
    w_lock_file w = Some text ->
    env_io_fails (w_env w) (S (w_tick w)) = false ->
    Text.to_Z (Text.strip text) = Some pid ->
    fits_c_int pid = true ->
    env_kill_ok (w_env w) pid = true ->
    exists w',
      run c (S k) w = (Raise (SystemExit 1), w') /\
      exit_status (fst (run c (S k) w)) = Some 1 /\
      same_store w w' /\
      effects (w_trace w') = effects (w_trace w).
Proof.
  intros c k w text pid L Hread T Hfit Hlive.
  assert (K : run c (S k) w
              = (Raise (SystemExit 1),
                 logged "ERROR" "Another instance is already running. Exiting."
                   (with_tick (S (S (w_tick w))) w))).
  { unfold run. unfold bind at 1.
    rewrite (acquire_lock_held k w text L), Hread, T, Hfit, Hlive.
    cbn [negb]. unfold bind. rewrite log_message_eq. reflexivity. }
  rewrite K.
  eexists. split; [reflexivity|]. split; [reflexivity|]. split.
  - eapply same_store_trans; [|apply logged_store]. repeat split.
  - rewrite logged_effects. reflexivity.
Qed.

Lemma second_instance_exits_untouched_witness :
  exists w',
    run Sample.config 2 Sample.w_locked = (Raise (SystemExit 1), w') /\
    w_lock_file w' = Some "4242".
Proof.
  destruct (second_instance_exits_untouched Sample.config 1%nat Sample.w_locked
              "4242" 4242 eq_refl eq_refl eq_refl eq_refl eq_refl)
    as (w' & Hrun & _ & (_ & _ & _ & Hlock) & _).
  exists w'. split; [exact Hrun | exact Hlock].
Defined.

(** *** Frames of a cycle *)

Section Preserves.

Variable R : World -> World -> Prop.
Hypothesis R_refl : forall w, R w w.
Hypothesis R_trans : forall w1 w2 w3, R w1 w2 -> R w2 w3 -> R w1 w3.

Lemma preserves_ret {A} (a : A) : preserves R (ret a).
Proof. intros w. apply R_refl. Qed.

Lemma preserves_raise {A} (e : exn) : preserves R (@raise A e).
Proof. intros w. apply R_refl. Qed.

Lemma preserves_get_world : preserves R get_world.
Proof. intros w. apply R_refl. Qed.

Lemma preserves_bind {A B} (m : M A) (k : A -> M B) :
  preserves R m -> (forall a, preserves R (k a)) -> preserves R (bind m k).
Proof.
  intros Hm Hk w. unfold bind. specialize (Hm w).
  destruct (m w) as [[a|e|h] w1]; cbn [snd] in *; try exact Hm.
  eapply R_trans; [exact Hm | apply Hk].
Qed.

Lemma preserves_try_except {A} (body : M A) caught handler :
  preserves R body -> (forall e, preserves R (handler e)) ->
  preserves R (try_except body caught handler).
Proof.
  intros Hb Hh w. unfold try_except. specialize (Hb w).
  destruct (body w) as [[a|e|h] w1]; cbn [snd] in *; try exact Hb.
  destruct (caught e); [|exact Hb].
  eapply R_trans; [exact Hb | apply Hh].
Qed.

End Preserves.

Lemma apart_refl name w : apart name w w.
Proof. repeat split; auto. Qed.

Lemma apart_trans name w1 w2 w3 :
  apart name w1 w2 -> apart name w2 w3 -> apart name w1 w3.
Proof.
  intros (A1 & B1 & C1 & D1) (A2 & B2 & C2 & D2). repeat split.
  - intros other N. rewrite (A2 other N). apply A1. exact N.
  - congruence.
  - congruence.
  - auto.
Qed.

(** A step that changes neither the table, the lock file nor the
    environment, and does not set the flag. *)
Lemma apart_of_store name w w' :
  same_store w w' -> (self_running w = false -> self_running w' = false) ->
  apart name w w'.
Proof.
  intros (E & S & _ & L) Rn. repeat split; auto. intros other _. rewrite S.
  reflexivity.
Qed.

Lemma apart_log name level msg : preserves (apart name) (log_message level msg).
Proof. intros w. apply apart_of_store; [apply logged_store | auto]. Qed.

Lemma apart_journal name msg p : preserves (apart name) (log_to_journal msg p).
Proof. intros w. apply apart_of_store; [repeat split | auto]. Qed.

Lemma apart_blocking name ev w : apart name w (after_blocking ev w).
Proof.
  apply apart_of_store; [apply after_blocking_store|].
  intros H. rewrite after_blocking_running, H.
  destruct (env_signal (w_env w) (w_tick w)); reflexivity.
Qed.

Lemma apart_run_command name cmd t : preserves (apart name) (run_command cmd t).
Proof. intros w. rewrite run_command_eq. apply apart_blocking. Qed.

Lemma apart_sleep name secs : preserves (apart name) (time_sleep secs).
Proof. intros w. rewrite time_sleep_eq. apply apart_blocking. Qed.

Lemma apart_time name : preserves (apart name) time_time.
Proof. intros w. rewrite time_time_eq. apply apart_of_store; [apply clocked_store | auto]. Qed.

Lemma apart_read_proc name f : preserves (apart name) (read_proc f).
Proof.
  intros w. destruct w as [env tick sf lf tr st run].
  unfold read_proc, io_fault. mred.
  destruct (env_io_fails env tick); apply apart_of_store; repeat split; auto.
Qed.

Lemma apart_mail name subject body :
  preserves (apart name) (mail_transport subject body).
Proof.
  intros w. rewrite mail_transport_eq. apply apart_of_store; [repeat split | auto].
Qed.

Lemma apart_write name text : preserves (apart name) (write_state_file text).
Proof.
  intros w. destruct w as [env tick sf lf tr st run].
  unfold write_state_file. mred.
  destruct (env_write env tick); repeat split; auto.
Qed.

Lemma other_key other name : other <> name -> String.eqb other name = false.
Proof. intros N. apply String.eqb_neq. exact N. Qed.

Lemma apart_state_entry name : preserves (apart name) (state_entry name).
Proof.
  intros w. rewrite state_entry_touch. cbn [snd]. repeat split; auto.
  intros other N. cbn [self_state with_state]. unfold touch.
  destruct (dict_get name (self_state w)); [reflexivity|].
  apply dict_get_set_other. apply other_key. exact N.
Qed.

Lemma apart_set_state name v w :
  apart name w (with_state (dict_set name v (self_state w)) w).
Proof.
  repeat split; auto. intros other N. cbn [self_state with_state].
  apply dict_get_set_other. apply other_key. exact N.
Qed.

Lemma apart_getitem name obj k : preserves (apart name) (getitem obj k).
Proof.
  intros w. unfold getitem. destruct obj; try apply apart_refl.
  destruct (dict_get k fields); apply apart_refl.
Qed.

Lemma apart_get_or name obj k d : preserves (apart name) (get_or obj k d).
Proof.
  intros w. unfold get_or. destruct obj; try apply apart_refl.
  destruct (dict_get k fields); apply apart_refl.
Qed.

Lemma apart_as_number name v : preserves (apart name) (as_number v).
Proof. intros w. unfold as_number. destruct (number_of v); apply apart_refl. Qed.

Create HintDb frame.
#[local] Hint Resolve apart_log apart_journal apart_run_command apart_sleep
  apart_time apart_read_proc apart_mail apart_write apart_state_entry
  apart_getitem apart_get_or apart_as_number : frame.

(** One step of a frame proof: a known step, or the structure of the
    program. *)
Ltac frame_step name :=
  lazymatch goal with
  | |- preserves _ (ret _) => apply preserves_ret; apply apart_refl
  | |- preserves _ (raise _) => apply preserves_raise; apply apart_refl
  | |- preserves _ get_world => apply preserves_get_world; apply apart_refl
  | |- preserves _ (bind _ _) =>
      apply (preserves_bind _ (apart_trans name)); [|intros ?]
  | |- preserves _ (try_except _ _ _) =>
      apply (preserves_try_except _ (apart_trans name)); [|intros ?]
  | |- preserves _ (if ?b then _ else _) => destruct b
  | |- preserves _ (match ?x with _ => _ end) => destruct x
  | |- preserves _ _ => solve [auto 1 with frame nocore]
  end.

Lemma apart_setitem name k v : preserves (apart name) (setitem name k v).
Proof.
  unfold setitem. frame_step name; [auto with frame|].
  destruct a; try solve [frame_step name].
  intros w. unfold bind, get_world, modify. cbn [snd]. apply apart_set_state.
Qed.

Lemma apart_save_state name : preserves (apart name) save_state.
Proof.
  unfold save_state. repeat frame_step name.
Qed.

#[local] Hint Resolve apart_setitem apart_save_state : frame.

Lemma apart_stdout_of name cmd : preserves (apart name) (stdout_of cmd).
Proof.
  unfold stdout_of. frame_step name; [auto with frame|].
  destruct a as [[rc out] err]. frame_step name.
Qed.

#[local] Hint Resolve apart_stdout_of : frame.

Lemma apart_failures_of name : preserves (apart name) (failures_of name).
Proof. unfold failures_of. repeat frame_step name. Qed.

Lemma apart_get_system_info name : preserves (apart name) get_system_info.
Proof. unfold get_system_info. repeat first [frame_step name | progress cbv zeta]. Qed.

Lemma apart_get_service_info name service :
  preserves (apart name) (get_service_info service).
Proof. unfold get_service_info. repeat first [frame_step name | progress cbv zeta]. Qed.

Lemma apart_get_top_info name : preserves (apart name) get_top_info.
Proof. unfold get_top_info. repeat frame_step name. Qed.

Lemma apart_get_recent_logs name : preserves (apart name) get_recent_logs.
Proof. unfold get_recent_logs. repeat first [frame_step name | progress cbv zeta]. Qed.

#[local] Hint Resolve apart_failures_of apart_get_system_info
  apart_get_service_info apart_get_top_info apart_get_recent_logs : frame.

Lemma apart_alert_text name c service action failures :
  preserves (apart name) (alert_text c service action failures).
Proof. unfold alert_text. repeat first [frame_step name | progress cbv zeta]. Qed.

Lemma apart_send_email name c subject body :
  preserves (apart name) (send_email c subject body).
Proof. unfold send_email. repeat frame_step name. Qed.

#[local] Hint Resolve apart_alert_text apart_send_email : frame.

Lemma apart_send_alert name c action : preserves (apart name) (send_alert c name action).
Proof. unfold send_alert. repeat frame_step name. Qed.

#[local] Hint Resolve apart_send_alert : frame.

Lemma apart_escalate name c action alarm :
  preserves (apart name) (escalate c name action alarm).
Proof. unfold escalate, alert_and_record. repeat frame_step name. Qed.

Lemma apart_on_active name : preserves (apart name) (on_active name).
Proof. unfold on_active. repeat frame_step name. Qed.

Lemma apart_attempt_loop name c action cmd attempts :
  preserves (apart name) (attempt_loop c name action cmd attempts).
Proof.
  induction attempts as [|attempt rest IH]; cbn [attempt_loop].
  - frame_step name.
  - repeat first [exact IH | frame_step name].
Qed.

Lemma apart_perform_action name c action :
  preserves (apart name) (perform_action c name action).
Proof.
  unfold perform_action. destruct (action_command action name).
  - apply apart_attempt_loop.
  - repeat frame_step name.
Qed.

#[local] Hint Resolve apart_escalate apart_on_active apart_perform_action : frame.

Lemma apart_on_inactive name c action alarm status :
  preserves (apart name) (on_inactive c name action alarm status).
Proof. unfold on_inactive. repeat frame_step name. Qed.

#[local] Hint Resolve apart_on_inactive : frame.

Lemma apart_check_service name c action alarm :
  preserves (apart name) (check_service c name action alarm).
Proof.
  unfold check_service, check_service_exists, is_service_masked.
  repeat frame_step name.
Qed.

(** X13: a cycle for one service never changes the entry of another service,
    never touches the lock file, and never sets the [running] flag again
    once a signal has cleared it, whether the cycle returns, raises or
    the process dies in it. *)
Theorem check_service_leaves_others :
  forall c name action alarm w,
    (forall other,
        other <> name ->
        dict_get other (self_state (snd (check_service c name action alarm w)))
        = dict_get other (self_state w)) /\
    w_lock_file (snd (check_service c name action alarm w)) = w_lock_file w /\
    (self_running w = false ->
     self_running (snd (check_service c name action alarm w)) = false).
Proof.
  intros c name action alarm w.
  destruct (apart_check_service name c action alarm w) as (A & B & _ & D).
  split; [exact A|]. split; [exact B | exact D].
Qed.

(** *** The lock during the run *)

Lemma held_refl w : held w w.
Proof. repeat split; auto. Qed.

Lemma held_trans w1 w2 w3 : held w1 w2 -> held w2 w3 -> held w1 w3.
Proof.
  intros (A1 & B1 & C1) (A2 & B2 & C2). repeat split; [congruence | congruence | auto].
Qed.

Lemma held_of_apart name w w' : apart name w w' -> held w w'.
Proof. intros (_ & B & C & D). repeat split; assumption. Qed.

Lemma held_check_all c services : preserves held (check_all c services).
Proof.
  induction services as [|s rest IH]; cbn [check_all].
  - apply preserves_ret. exact held_refl.
  - apply (preserves_bind _ held_trans); [|intros _; exact IH].
    intros w. apply (held_of_apart (svc_name s)). apply apart_check_service.
Qed.

Lemma held_wait_loop l : preserves held (wait_loop l).
Proof.
  induction l as [|x l IH]; cbn [wait_loop].
  - apply preserves_ret. exact held_refl.
  - apply (preserves_bind _ held_trans); [apply preserves_get_world; exact held_refl|].
    intros w0. destruct (self_running w0).
    + apply (preserves_bind _ held_trans); [|intros _; exact IH].
      intros w. apply (held_of_apart EmptyString). apply apart_sleep.
    + apply preserves_ret. exact held_refl.
Qed.

Lemma held_cycles c fuel : preserves held (cycles c fuel).
Proof.
  induction fuel as [|k IH]; cbn [cycles].
  - intros w. apply held_refl.
  - apply (preserves_bind _ held_trans); [apply preserves_get_world; exact held_refl|].
    intros w0. destruct (self_running w0); [|apply preserves_ret; exact held_refl].
    apply (preserves_bind _ held_trans); [apply held_check_all|]. intros _.
    destruct (DAEMON_MODE c); [|apply preserves_ret; exact held_refl].
    apply (preserves_bind _ held_trans); [apply held_wait_loop | intros _; exact IH].
Qed.

Lemma held_log level msg : preserves held (log_message level msg).
Proof. intros w. apply (held_of_apart EmptyString). apply apart_log. Qed.

Lemma held_guarded_loop c fuel : preserves held (guarded_loop c fuel).
Proof.
  unfold guarded_loop, loop_body.
  apply (preserves_try_except _ held_trans).
  - apply (preserves_bind _ held_trans); [apply preserves_get_world; exact held_refl|].
    intros w0.
    apply (preserves_bind _ held_trans); [apply held_log|]. intros _.
    apply (preserves_bind _ held_trans); [apply held_log|]. intros _.
    apply (preserves_bind _ held_trans); [|intros _; apply held_cycles].
    destruct (DAEMON_MODE c); [apply held_log | apply preserves_ret; exact held_refl].
  - intros e. apply (preserves_bind _ held_trans); [apply held_log|].
    intros _. apply held_log.
Qed.

(** A successful [acquire_lock] leaves the caller's pid in the lock file. *)
Lemma acquire_lock_true fuel :
  forall w w1,
    acquire_lock fuel w = (Ret true, w1) ->
    w_lock_file w1 = Some (Text.of_Z (env_pid (w_env w))) /\ w_env w1 = w_env w.
Proof.
  induction fuel as [|k IH]; intros w w1 H; [discriminate H|].
  destruct (w_lock_file w) as [text|] eqn:L.
  - rewrite (acquire_lock_held k w text L) in H.
    assert (Rc : forall w0,
               w_env w0 = w_env w -> w_lock_file w0 = Some text ->
               (lock_remove ;; acquire_lock k) w0 = (Ret true, w1) ->
               w_lock_file w1 = Some (Text.of_Z (env_pid (w_env w))) /\
               w_env w1 = w_env w).
    { intros w0 E0 L0 H0. unfold bind in H0. rewrite (lock_remove_eq w0 text L0) in H0.
      destruct (env_io_fails (w_env w0) (w_tick w0)); [discriminate H0|].
      apply IH in H0. cbn [w_env with_lock_file with_tick] in H0.
      rewrite <- E0. exact H0. }
    destruct (env_io_fails (w_env w) (S (w_tick w))).
    { apply (Rc (with_tick (S (S (w_tick w))) w) eq_refl L H). }
    destruct (Text.to_Z (Text.strip text)) as [pid|]; [|apply (Rc (with_tick (S (S (w_tick w))) w) eq_refl L H)].
    destruct (fits_c_int pid); [|discriminate H].
    destruct (env_kill_ok (w_env w) pid); [discriminate H|].
    apply (Rc (with_tick (S (S (w_tick w))) w) eq_refl L H).
  - destruct (acquire_lock_free k w L) as (E & _). rewrite E in H. clear E.
    destruct w as [env tick sf lf tr st run]. cbn in L. subst lf.
    revert H. lred. destruct (env_io_fails env tick); lred; [discriminate|].
    destruct (env_io_fails env (S tick)); lred; [discriminate|].
    intros H. inversion H. split; reflexivity.
Qed.

(** X14: from a successful [acquire_lock] to the clean-up, the lock file names
    this process: neither the passes over the services, nor the waits
    between them, nor the handling of an exception change it, however long
    the loop runs and however it ends.  Nor is the [running] flag, once
    cleared by a signal, ever set again. *)
Theorem lock_names_owner_throughout :
  forall c fuel k w w1,
    acquire_lock k w = (Ret true, w1) ->
    w_lock_file w1 = Some (Text.of_Z (env_pid (w_env w))) /\
    w_lock_file (snd (guarded_loop c fuel w1))
    = Some (Text.of_Z (env_pid (w_env w))) /\
    (forall services w0,
        w_lock_file (snd (check_all c services w0)) = w_lock_file w0 /\
        (self_running w0 = false ->
         self_running (snd (check_all c services w0)) = false)).
Proof.
  intros c fuel k w w1 H.
  destruct (acquire_lock_true k w w1 H) as (L & _).
  split; [exact L|]. split.
  - destruct (held_guarded_loop c fuel w1) as (A & _). rewrite A. exact L.
  - intros services w0. destruct (held_check_all c services w0) as (A & _ & B).
    split; assumption.
Qed.

Lemma lock_names_owner_throughout_witness :
  w_lock_file
    (snd (guarded_loop Sample.config 1
            (snd (acquire_lock 2 Sample.w_stale))))
  = Some "100".
Proof.
  apply (lock_names_owner_throughout Sample.config 1%nat 2%nat Sample.w_stale
           (snd (acquire_lock 2 Sample.w_stale))).
  vm_compute. reflexivity.
Defined.

(** *** The table stays valid *)

Lemma keys_dict_set k v d :
  keys (dict_set k v d)
  = if existsb (String.eqb k) (keys d) then keys d else (keys d ++ [k])%list.
Proof.
  induction d as [|[k0 v0] d IH]; [reflexivity|].
  cbn [dict_set keys map fst existsb].
  destruct (String.eqb k k0) eqn:E; cbn [orb map fst]; [reflexivity|].
  fold (keys (dict_set k v d)). fold (keys d). rewrite IH.
  destruct (existsb (String.eqb k) (keys d)); reflexivity.
Qed.

Lemma nodup_dict_set k v d : NoDup (keys d) -> NoDup (keys (dict_set k v d)).
Proof.
  intros N. rewrite keys_dict_set.
  destruct (existsb (String.eqb k) (keys d)) eqn:E; [exact N|].
  apply NoDup_app; [exact N | constructor; [intros [] | constructor] |].
  intros x Hx Hk. destruct Hk as [Hk|[]]. subst x.
  assert (X : existsb (String.eqb k) (keys d) = true).
  { apply existsb_exists. exists k. split; [exact Hx | apply String.eqb_refl]. }
  congruence.
Qed.

Lemma forall_dict_set (P : json -> Prop) k v d :
  Forall (fun kv => P (snd kv)) d -> P v ->
  Forall (fun kv : string * json => P (snd kv)) (dict_set k v d).
Proof.
  intros F Pv. induction d as [|[k0 v0] d IH]; cbn [dict_set].
  - repeat constructor. exact Pv.
  - inversion F as [|x l Px Fl]; subst.
    destruct (String.eqb k k0); constructor; auto.
Qed.

Lemma dict_get_forall (P : json -> Prop) k d v :
  Forall (fun kv => P (snd kv)) d -> dict_get k d = Some v -> P v.
Proof.
  intros F. induction d as [|[k0 v0] d IH]; cbn [dict_get]; [discriminate|].
  inversion F as [|x l Px Fl]; subst.
  destruct (String.eqb k k0); [|auto]. intros H. inversion H; subst. exact Px.
Qed.

Lemma dict_get_set_some k' k v d :
  dict_get k' d <> None -> dict_get k' (dict_set k v d) <> None.
Proof.
  destruct (String.eqb k' k) eqn:E.
  - apply String.eqb_eq in E. subst k'. rewrite dict_get_set_same. discriminate.
  - rewrite (dict_get_set_other _ _ _ _ E). auto.
Qed.

(** An entry all of whose fields are integers, once it has a failure
    count, keeps being a well-formed entry when a field is set to an
    integer. *)
Lemma valid_entry_set k z fields :
  valid_entry (JObj fields) ->
  entry_failures (JObj fields) <> None ->
  valid_entry (JObj (dict_set k (JNum z) fields)) /\
  entry_failures (JObj (dict_set k (JNum z) fields)) <> None /\
  entry_last_alert (JObj (dict_set k (JNum z) fields)) <> None.
Proof.
  intros (fs & E & N & F) Hf. inversion E; subst fs. clear E.
  assert (F' : Forall (fun kv : string * json => exists n, snd kv = JNum n)
                 (dict_set k (JNum z) fields)).
  { apply (forall_dict_set (fun v => exists n, v = JNum n)); [exact F|].
    eexists. reflexivity. }
  split; [|split].
  - eexists. split; [reflexivity|]. split; [apply nodup_dict_set; exact N | exact F'].
  - cbn [entry_failures] in *.
    assert (G : dict_get "failures" (dict_set k (JNum z) fields) <> None).
    { apply dict_get_set_some. destruct (dict_get "failures" fields); congruence. }
    destruct (dict_get "failures" (dict_set k (JNum z) fields)) as [v|] eqn:D;
      [|congruence].
    destruct (dict_get_forall (fun v => exists n, v = JNum n) _ _ _ F' D) as (n & ->).
    discriminate.
  - cbn [entry_last_alert].
    destruct (dict_get "last_alert" (dict_set k (JNum z) fields)) as [v|] eqn:D;
      [|discriminate].
    destruct (dict_get_forall (fun v => exists n, v = JNum n) _ _ _ F' D) as (n & ->).
    discriminate.
Qed.

Lemma valid_default_entry :
  valid_entry default_entry /\
  entry_failures default_entry <> None /\ entry_last_alert default_entry <> None.
Proof.
  split; [|split; discriminate].
  eexists. split; [reflexivity|]. split.
  - cbn. repeat constructor; cbn; intuition discriminate.
  - repeat constructor; eexists; reflexivity.
Qed.

Lemma valid_table_set name v t :
  valid_table t ->
  valid_entry v /\ entry_failures v <> None /\ entry_last_alert v <> None ->
  valid_table (dict_set name v t).
Proof.
  intros (N & F) V. split; [apply nodup_dict_set; exact N|].
  apply (forall_dict_set
           (fun v => valid_entry v /\ entry_failures v <> None /\
                     entry_last_alert v <> None)); assumption.
Qed.

Lemma valid_table_touch name t : valid_table t -> valid_table (touch name t).
Proof.
  intros V. unfold touch. destruct (dict_get name t); [exact V|].
  apply valid_table_set; [exact V | exact valid_default_entry].
Qed.

Lemma stays_valid_refl w : stays_valid w w.
Proof. intros V. exact V. Qed.

Lemma stays_valid_trans w1 w2 w3 :
  stays_valid w1 w2 -> stays_valid w2 w3 -> stays_valid w1 w3.
Proof. unfold stays_valid. auto. Qed.

Lemma stays_of_store w w' : same_store w w' -> stays_valid w w'.
Proof. intros (_ & S & _) V. rewrite S. exact V. Qed.

Lemma valid_log level msg : preserves stays_valid (log_message level msg).
Proof. intros w. apply stays_of_store. apply logged_store. Qed.

Lemma valid_journal msg p : preserves stays_valid (log_to_journal msg p).
Proof. intros w. apply stays_of_store. repeat split. Qed.

Lemma valid_run_command cmd t : preserves stays_valid (run_command cmd t).
Proof. intros w. rewrite run_command_eq. apply stays_of_store, after_blocking_store. Qed.

Lemma valid_sleep secs : preserves stays_valid (time_sleep secs).
Proof. intros w. rewrite time_sleep_eq. apply stays_of_store, after_blocking_store. Qed.

Lemma valid_time : preserves stays_valid time_time.
Proof. intros w. rewrite time_time_eq. apply stays_of_store, clocked_store. Qed.

Lemma valid_read_proc f : preserves stays_valid (read_proc f).
Proof.
  intros w. destruct w as [env tick sf lf tr st run].
  unfold read_proc, io_fault. mred.
  destruct (env_io_fails env tick); intros V; exact V.
Qed.

Lemma valid_mail subject body : preserves stays_valid (mail_transport subject body).
Proof. intros w. rewrite mail_transport_eq. apply stays_of_store. repeat split. Qed.

Lemma valid_write text : preserves stays_valid (write_state_file text).
Proof.
  intros w. destruct w as [env tick sf lf tr st run].
  unfold write_state_file. mred.
  destruct (env_write env tick); intros V; exact V.
Qed.

Lemma valid_state_entry name : preserves stays_valid (state_entry name).
Proof.
  intros w. rewrite state_entry_touch. cbn [snd]. intros V.
  cbn [self_state with_state]. apply valid_table_touch. exact V.
Qed.

Lemma valid_getitem obj k : preserves stays_valid (getitem obj k).
Proof.
  intros w. unfold getitem. destruct obj; try apply stays_valid_refl.
  destruct (dict_get k fields); apply stays_valid_refl.
Qed.

Lemma valid_get_or obj k d : preserves stays_valid (get_or obj k d).
Proof.
  intros w. unfold get_or. destruct obj; try apply stays_valid_refl.
  destruct (dict_get k fields); apply stays_valid_refl.
Qed.

Lemma valid_as_number v : preserves stays_valid (as_number v).
Proof. intros w. unfold as_number. destruct (number_of v); apply stays_valid_refl. Qed.

Lemma valid_setitem name k z : preserves stays_valid (setitem name k (JNum z)).
Proof.
  intros w V. unfold setitem, bind. rewrite state_entry_touch.
  pose proof (valid_table_touch name _ V) as Vt.
  pose proof (touch_get name (self_state w)) as G.
  destruct (entry_of (self_state w) name) as [| | | | |fields] eqn:E;
    try exact Vt.
  unfold get_world, modify. cbn [snd self_state with_state].
  apply valid_table_set; [exact Vt|].
  destruct Vt as (_ & F).
  destruct (dict_get_forall
              (fun v => valid_entry v /\ entry_failures v <> None /\
                        entry_last_alert v <> None) _ _ _ F G) as (A & B & _).
  apply valid_entry_set; assumption.
Qed.

Create HintDb valid.
#[local] Hint Resolve valid_log valid_journal valid_run_command valid_sleep
  valid_time valid_read_proc valid_mail valid_write valid_state_entry
  valid_getitem valid_get_or valid_as_number valid_setitem : valid.

Ltac valid_step :=
  lazymatch goal with
  | |- preserves _ (ret _) => apply preserves_ret; exact stays_valid_refl
  | |- preserves _ (raise _) => apply preserves_raise; exact stays_valid_refl
  | |- preserves _ get_world => apply preserves_get_world; exact stays_valid_refl
  | |- preserves _ (bind _ _) =>
      apply (preserves_bind _ stays_valid_trans); [|intros ?]
  | |- preserves _ (try_except _ _ _) =>
      apply (preserves_try_except _ stays_valid_trans); [|intros ?]
  | |- preserves _ (if ?b then _ else _) => destruct b
  | |- preserves _ (match ?x with _ => _ end) => destruct x
  | |- preserves _ _ => solve [auto 1 with valid nocore]
  end.

Lemma valid_save_state : preserves stays_valid save_state.
Proof. unfold save_state. repeat valid_step. Qed.

Lemma valid_stdout_of cmd : preserves stays_valid (stdout_of cmd).
Proof. unfold stdout_of. repeat valid_step. Qed.

#[local] Hint Resolve valid_save_state valid_stdout_of : valid.

Lemma valid_failures_of name : preserves stays_valid (failures_of name).
Proof. unfold failures_of. repeat valid_step. Qed.

Lemma valid_alert_text c service action failures :
  preserves stays_valid (alert_text c service action failures).
Proof.
  unfold alert_text, get_system_info, get_service_info, get_top_info,
    get_recent_logs.
  repeat first [valid_step | progress cbv zeta].
Qed.

Lemma valid_send_email c subject body :
  preserves stays_valid (send_email c subject body).
Proof. unfold send_email. repeat valid_step. Qed.

#[local] Hint Resolve valid_failures_of valid_alert_text valid_send_email : valid.

Lemma valid_escalate c name action alarm :
  preserves stays_valid (escalate c name action alarm).
Proof. unfold escalate, alert_and_record, send_alert. repeat valid_step. Qed.

Lemma valid_attempt_loop c name action cmd attempts :
  preserves stays_valid (attempt_loop c name action cmd attempts).
Proof.
  induction attempts as [|attempt rest IH]; cbn [attempt_loop].
  - valid_step.
  - repeat first [exact IH | valid_step].
Qed.

Lemma valid_perform_action c name action :
  preserves stays_valid (perform_action c name action).
Proof.
  unfold perform_action. destruct (action_command action name).
  - apply valid_attempt_loop.
  - repeat valid_step.
Qed.

#[local] Hint Resolve valid_escalate valid_perform_action : valid.





(** *** Start-up *)

(** What [__init__] does once the privilege check has passed and the two
    directories could be made: it loads the state. *)
Lemma init_loads w :
  env_euid (w_env w) = 0 ->
  env_io_fails (w_env w) (w_tick w) = false ->
  env_io_fails (w_env w) (S (w_tick w)) = false ->
  init w
  = load_state (with_tick (S (S (w_tick w))) (with_running true (with_state [] w))).
Proof.
  destruct w as [env tick sf lf tr st run]. cbn [w_env w_tick].
  intros E F1 F2. unfold init, os_geteuid, mkdir, io_fault.
  cbv beta iota zeta delta
    [bind ret raise modify get_world next_call with_tick with_state with_running
     w_env w_tick w_trace w_state_file w_lock_file self_state self_running].
  rewrite E. cbn [Z.eqb negb]. cbv beta iota. rewrite F1. cbv beta iota.
  rewrite F2. reflexivity.
Qed.

(** X16: the constructor checks the privilege before anything else: not run as
    root, it writes one emergency entry to the journal and exits with
    status 1, having made no directory and read no file.  Run as root, a
    directory that cannot be made raises [OSError] out of the constructor:
    nothing is logged and no state is loaded.  Otherwise it returns with
    the [running] flag set, whatever the state file holds. *)
Theorem startup_checks_privilege_first :
  forall w,
    (env_euid (w_env w) <> 0 ->
     init w
     = (Raise (SystemExit 1),
        with_trace (w_trace w ++ [EvJournal 0 "Must be run as root!"])
          (with_running true (with_state [] w)))) /\
    (env_euid (w_env w) = 0 ->
     env_io_fails (w_env w) (w_tick w) = true \/
     env_io_fails (w_env w) (S (w_tick w)) = true ->
     fst (init w) = Raise OSError /\
     exit_status (fst (init w)) = Some 1 /\
     w_trace (snd (init w)) = w_trace w /\
     self_state (snd (init w)) = [] /\
     w_state_file (snd (init w)) = w_state_file w) /\
    (env_euid (w_env w) = 0 ->
     env_io_fails (w_env w) (w_tick w) = false ->
     env_io_fails (w_env w) (S (w_tick w)) = false ->
     fst (init w) = Ret tt /\
     self_running (snd (init w)) = true /\
     w_state_file (snd (init w)) = w_state_file w /\
     w_lock_file (snd (init w)) = w_lock_file w).
Proof.
  intros w. split; [|split].
  - intros H. destruct w as [env tick sf lf tr st run]. cbn [w_env] in H.
    unfold init, os_geteuid. mred.
    apply Z.eqb_neq in H. rewrite H. reflexivity.
  - intros E F. destruct w as [env tick sf lf tr st run].
    cbn [w_env w_tick] in E, F.
    assert (K : init {| w_env := env; w_tick := tick; w_state_file := sf;
                        w_lock_file := lf; w_trace := tr; self_state := st;
                        self_running := run |}
                = (Raise OSError,
                   {| w_env := env;
                      w_tick := if env_io_fails env tick then S tick else S (S tick);
                      w_state_file := sf; w_lock_file := lf; w_trace := tr;
                      self_state := []; self_running := true |})).
    { unfold init, os_geteuid, mkdir, io_fault.
      cbv beta iota zeta delta
        [bind ret raise modify get_world next_call with_tick with_state
         with_running w_env w_tick w_trace w_state_file w_lock_file self_state
         self_running].
      rewrite E. cbn [Z.eqb negb]. cbv beta iota.
      destruct (env_io_fails env tick); cbv beta iota; [reflexivity|].
      destruct F as [F|F]; [discriminate F|]. rewrite F. reflexivity. }
    rewrite K. repeat split.
  - intros E F1 F2. rewrite (init_loads w E F1 F2).
    set (w0 := with_tick _ _).
    destruct (w_state_file w) as [text|] eqn:S.
    + destruct (load_state_present w0 text S) as (w' & L & _ & Sf & _).
      rewrite L. cbn [fst snd]. split; [reflexivity|].
      revert L. unfold w0. destruct w as [env tick sf lf tr st run].
      cbn [w_state_file] in S. subst sf.
      unfold load_state, try_except, state_file_exists, json_load,
        read_state_file, io_fault, lift_sum. mred.
      destruct (env_io_fails env (S (S tick))); mred.
      * intros L. inversion L. repeat split.
      * destruct (Json.loads text) as [obj|]; mred.
        -- destruct (defaultdict_of obj) as [e|d] eqn:D; mred.
           ++ rewrite (defaultdict_of_exn _ _ D). intros L. inversion L. repeat split.
           ++ intros L. inversion L. repeat split.
        -- intros L. inversion L. repeat split.
    + rewrite (load_state_missing w0 S). cbn [fst snd]. unfold w0.
      repeat split; assumption.
Qed.

(** *** A failure on record survives a restart *)





(** *** An alert that is due is sent *)







Lemma runs_weaken {A} k (P Q : A -> Prop) (m : M A) :
  (forall a, P a -> Q a) -> runs k P m -> runs k Q m.
Proof.
  intros H Hm w S. destruct (Hm w S) as (a & w' & E & Pa & R).
  exists a, w'. split; [exact E|]. split; [apply H; exact Pa | exact R].
Qed.










(** *** The codec: any value *)

Lemma json_nested_ind (P : json -> Prop) :
  P JNull -> (forall b, P (JBool b)) -> (forall z, P (JNum z)) ->
  (forall s, P (JStr s)) ->
  (forall items, Forall P items -> P (JArr items)) ->
  (forall fields, Forall (fun kv => P (snd kv)) fields -> P (JObj fields)) ->
  forall j, P j.
Proof.
  intros Hn Hb Hz Hs Ha Ho. fix IH 1. intros j.
  destruct j as [|b|z|s|items|fields].
  - exact Hn.
  - apply Hb.
  - apply Hz.
  - apply Hs.
  - apply Ha. induction items as [|x items IHi]; constructor; [apply IH | exact IHi].
  - apply Ho. induction fields as [|[k v] fields IHf]; constructor;
      [apply IH | exact IHf].
Qed.

Lemma reads_back_null lvl : reads_back lvl JNull.
Proof.
  intros f rest _ L. cbn [Json.dump] in *. destruct f as [|f]; [cbn in L; lia|].
  reflexivity.
Qed.

Lemma reads_back_bool lvl b : reads_back lvl (JBool b).
Proof.
  intros f rest _ L. destruct b; cbn [Json.dump] in *;
    (destruct f as [|f]; [cbn in L; lia|]); reflexivity.
Qed.

Lemma reads_back_str lvl s : reads_back lvl (JStr s).
Proof.
  intros f rest _ L. cbn [Json.dump] in *.
  destruct f as [|f]; [unfold Json.quote in L; cbn in L; lia|].
  rewrite quote_append. cbn [Json.value].
  change (Ascii.eqb Text.dquote "{") with false.
  change (Ascii.eqb Text.dquote "[") with false.
  rewrite Ascii.eqb_refl. cbv beta iota.
  rewrite string_body_escape. reflexivity.
Qed.

Lemma dump_items lvl x xs :
  Json.dump lvl (JArr (x :: xs))
  = ("[" ++ Json.nl (S lvl) ++ Json.dump (S lvl) x
     ++ items_text lvl xs ++ Json.nl lvl ++ "]")%string.
Proof.
  cbn [Json.dump]. do 3 f_equal.
  apply (f_equal (fun s => (s ++ Json.nl lvl ++ "]")%string)).
  induction xs as [|y ys IH]; [reflexivity|].
  cbn [items_text]. rewrite <- IH. reflexivity.
Qed.

(** No text [dump] produces starts with a closing bracket. *)
Lemma dump_head_open lvl v :
  exists c s, Json.dump lvl v = String c s /\ Ascii.eqb c "]" = false.
Proof.
  destruct v as [|[]|z|s|[|x xs]|[|[k v] fs]];
    try (eexists; eexists; split; reflexivity).
  cbn [Json.dump]. destruct (of_Z_head z) as (c & s & Hz & Hc).
  exists c, s. split; [exact Hz|].
  destruct c as [[] [] [] [] [] [] [] []]; try discriminate Hc; reflexivity.
Qed.

Lemma ends_number_items lvl xs rest :
  ends_number (items_text lvl xs ++ Json.nl lvl ++ "]" ++ rest) = true.
Proof. destruct xs as [|y ys]; reflexivity. Qed.

Lemma items_text_cons lvl y ys s :
  (items_text lvl (y :: ys) ++ s
   = String "," (Json.nl (S lvl) ++ Json.dump (S lvl) y ++ items_text lvl ys ++ s))%string.
Proof. cbn [items_text]. rewrite !append_assoc. reflexivity. Qed.

(** The items of an array are read back, in order, given that each is. *)
Lemma elements_read_back lvl xs :
  Forall (reads_back (S lvl)) xs ->
  forall x acc f rest,
    reads_back (S lvl) x ->
    (String.length (Json.dump (S lvl) x ++ items_text lvl xs ++ Json.nl lvl ++ "]")
     <= f)%nat ->
    Json.elements f
      (Json.dump (S lvl) x ++ items_text lvl xs ++ Json.nl lvl ++ "]" ++ rest) acc
    = Some (JArr (acc ++ x :: xs), rest).
Proof.
  induction 1 as [|y ys Hy Hys IH]; intros x acc f rest Hx L;
    rewrite !append_length in L; cbn [String.length] in L;
    (destruct f as [|f]; [lia|]); cbn [Json.elements].
  - rewrite (Hx f (items_text lvl [] ++ Json.nl lvl ++ "]" ++ rest)%string);
      [|apply ends_number_items|lia].
    cbn [items_text append]. rewrite skip_ws_nl. reflexivity.
  - rewrite (Hx f (items_text lvl (y :: ys) ++ Json.nl lvl ++ "]" ++ rest)%string);
      [|apply ends_number_items|lia].
    rewrite items_text_cons. rewrite skip_ws_stop by reflexivity.
    cbv beta iota.
    change (Ascii.eqb "," "]") with false. change (Ascii.eqb "," ",") with true.
    cbv beta iota.
    rewrite skip_ws_nl, skip_ws_dump.
    rewrite (IH y (acc ++ [x])%list f rest Hy).
    + rewrite <- List.app_assoc. reflexivity.
    + rewrite !append_length. cbn [String.length].
      cbn [items_text] in L. rewrite !append_length in L.
      cbn [String.length] in L. lia.
Qed.

Lemma reads_back_arr lvl items :
  Forall (reads_back (S lvl)) items -> reads_back lvl (JArr items).
Proof.
  intros F f rest E L. destruct items as [|x xs].
  - cbn [Json.dump] in *. cbn [String.length] in L.
    destruct f as [|f]; [lia|]. reflexivity.
  - rewrite dump_items in *. inversion F as [|a l Hx Hxs]; subst.
    cbn [append String.length] in L. destruct f as [|f]; [lia|].
    apply le_S_n in L. rewrite append_length in L.
    rewrite !append_assoc.
    assert (V : Json.value (S f)
                  ("[" ++ Json.nl (S lvl) ++ Json.dump (S lvl) x
                   ++ items_text lvl xs ++ Json.nl lvl ++ "]" ++ rest)
                = Json.elements f
                    (Json.dump (S lvl) x ++ items_text lvl xs
                     ++ Json.nl lvl ++ "]" ++ rest) []).
    { cbn [append Json.value]. change (Ascii.eqb "[" "{") with false.
      change (Ascii.eqb "[" "[") with true. cbv beta iota.
      rewrite skip_ws_nl, skip_ws_dump.
      destruct (dump_head_open (S lvl) x) as (c & s & -> & Hc).
      cbn [append]. rewrite Hc. reflexivity. }
    rewrite V. rewrite (elements_read_back lvl xs Hxs x [] f rest Hx).
    + reflexivity.
    + match goal with
      | |- (?a <= f)%nat =>
          change (String.length (Json.nl (S lvl)) + a <= f)%nat in L
      end.
      lia.
Qed.

Lemma distinct_items items :
  distinct_keys (JArr items) -> Forall distinct_keys items.
Proof.
  induction items as [|x xs IH]; [constructor|].
  intros (A & B). constructor; [exact A | apply IH; exact B].
Qed.

Lemma distinct_fields fields :
  distinct_keys (JObj fields) ->
  NoDup (keys fields) /\ Forall (fun kv => distinct_keys (snd kv)) fields.
Proof.
  intros (N & A). split; [exact N|]. clear N.
  induction fields as [|[k v] fs IH]; [constructor|].
  destruct A as (A & B). constructor; [exact A | apply IH; exact B].
Qed.

(** Every value whose objects have distinct keys is read back from its
    text, at any nesting level. *)
Lemma reads_back_any v : distinct_keys v -> forall lvl, reads_back lvl v.
Proof.
  induction v as [|b|z|s|items IH|fields IH] using json_nested_ind; intros D lvl.
  - apply reads_back_null.
  - apply reads_back_bool.
  - apply reads_back_num.
  - apply reads_back_str.
  - apply reads_back_arr. apply distinct_items in D.
    induction IH as [|x xs Hx Hxs IHx]; [constructor|].
    inversion D; subst. constructor; [apply Hx; assumption | apply IHx; assumption].
  - apply distinct_fields in D. destruct D as (N & D).
    apply reads_back_obj; [exact N|].
    clear N. induction IH as [|kv fs Hx Hxs IHx]; [constructor|].
    inversion D; subst. constructor; [apply Hx; assumption | apply IHx; assumption].
Qed.

Lemma loads_dumps_any v : distinct_keys v -> Json.loads (Json.dumps v) = Some v.
Proof.
  intros D. unfold Json.loads, Json.dumps.
  pose proof (skip_ws_dump 0 v "") as W. rewrite append_nil_r in W. rewrite W.
  pose proof (reads_back_any v D 0%nat (S (String.length (Json.dump 0 v))) ""%string
                eq_refl) as P.
  rewrite append_nil_r in P. rewrite P; [reflexivity | lia].
Qed.

(** X19: whatever the table holds (integers, strings, booleans, nulls, arrays,
    nested objects), as long as no object in it has a key twice: when the
    write goes through, the table a later [load_state] builds from the file
    that [save_state] wrote is the table that was saved. *)
Theorem any_table_round_trips :
  forall w w2,
    distinct_keys (JObj (self_state w)) ->
    env_write (w_env w) (w_tick w) = WriteDone ->
    w_state_file w2 = w_state_file (snd (save_state w)) ->
    env_io_fails (w_env w2) (w_tick w2) = false ->
    fst (save_state w) = Ret tt /\
    Json.loads (Json.dumps (JObj (self_state w))) = Some (JObj (self_state w)) /\
    fst (load_state w2) = Ret tt /\
    self_state (snd (load_state w2)) = self_state w.
Proof.
  intros w w2 D O F Io.
  pose proof (save_state_eq w) as E. cbv zeta in E. rewrite O in E.
  rewrite E in *. cbn [fst snd w_state_file with_state_file] in *.
  split; [reflexivity|]. split; [apply loads_dumps_any; exact D|].
  destruct (load_state_present w2 _ F) as (w3 & L & _ & _ & S3).
  rewrite L. cbn [fst snd]. split; [reflexivity|].
  rewrite S3, Io, (loads_dumps_any _ D). reflexivity.
Qed.

Lemma any_table_round_trips_witness :
  self_state
    (snd (load_state
            (Sample.world_with (Sample.env_with Sample.up WriteDone (MailExit 0))
               (w_state_file
                  (snd (save_state
                          (Sample.world_with
                             (Sample.env_with Sample.up WriteDone (MailExit 0))
                             None None
                             [("db", JObj [("failures", JNum 2);
                                           ("note", JStr "checked by hand");
                                           ("tags", JArr [JBool true; JNull])])]))))
               None [])))
  = [("db", JObj [("failures", JNum 2); ("note", JStr "checked by hand");
                  ("tags", JArr [JBool true; JNull])])].
Proof.
  apply (any_table_round_trips
           (Sample.world_with (Sample.env_with Sample.up WriteDone (MailExit 0))
              None None
              [("db", JObj [("failures", JNum 2); ("note", JStr "checked by hand");
                            ("tags", JArr [JBool true; JNull])])])
           (Sample.world_with (Sample.env_with Sample.up WriteDone (MailExit 0))
              (w_state_file
                 (snd (save_state
                         (Sample.world_with
                            (Sample.env_with Sample.up WriteDone (MailExit 0))
                            None None
                            [("db", JObj [("failures", JNum 2);
                                          ("note", JStr "checked by hand");
                                          ("tags", JArr [JBool true; JNull])])]))))
              None [])).
  - cbn. repeat split; repeat constructor; cbn; intuition discriminate.
  - reflexivity.
  - reflexivity.
  - reflexivity.
Defined.
